(** * Funding-rate monitor and liquidation filter: a shallow embedding

    The development follows [funding.py], [liqs.py] and
    [pull_from_vps.py].  Python values are
    modelled as the code has them: [int] as [Z], [float] as the kernel's
    binary64 [float], [str] as [string], a [dict] as a finite map, a text
    file opened in append mode as the list of rows written to it.  An
    [asyncio] program runs one task at a time and switches tasks only at an
    [await]; the stretches of code between two suspension points are the
    atomic events of the model. *)

From Stdlib Require Import ZArith Lia List Bool Ascii String.
From Stdlib Require Import Floats.PrimFloat Floats.FloatOps Floats.SpecFloat.
From Stdlib Require Import Floats.FloatAxioms.
From Stdlib Require Import Numbers.Cyclic.Int63.Uint63.
From Stdlib Require Import DecimalString.
From stdpp Require Import base option list strings gmap fin_maps.

#[local] Set Warnings "-inexact-float,-register-all".

Local Open Scope string_scope.
Local Open Scope Z_scope.
Local Open Scope list_scope.

(** ** Python strings *)

Module PyStr.

(** [s.startswith(p)] *)
Definition startswith (s p : string) : bool := String.prefix p s.

(** [s.replace(old, new)] scans left to right and replaces every
    non-overlapping occurrence.  [skip] counts the characters of a matched
    occurrence that are still to be dropped. *)
Fixpoint replace_from (old new : string) (skip : nat) (s : string) : string :=
  match s with
  | EmptyString => EmptyString
  | String c s' =>
      match skip with
      | S k => replace_from old new k s'
      | O =>
          if String.prefix old s
          then new +:+ replace_from old new (Nat.pred (String.length old)) s'
          else String c (replace_from old new O s')
      end
  end.

(** With an empty [old], Python puts [new] before every character and at
    the end. *)
Fixpoint intersperse_all (new s : string) : string :=
  match s with
  | EmptyString => new
  | String c s' => new +:+ String c (intersperse_all new s')
  end.

Definition replace (s old new : string) : string :=
  match old with
  | EmptyString => intersperse_all new s
  | String _ _ => replace_from old new O s
  end.

(** [s.upper()] on ASCII text: the letters a-z are moved to A-Z, every
    other byte is kept. *)
Definition upper_ascii (c : ascii) : ascii :=
  let n := nat_of_ascii c in
  if (Nat.leb 97 n && Nat.leb n 122)%bool then ascii_of_nat (n - 32) else c.

Fixpoint upper (s : string) : string :=
  match s with
  | EmptyString => EmptyString
  | String c s' => String (upper_ascii c) (upper s')
  end.

(** [p in s] for two strings: [p] occurs somewhere in [s]. *)
Fixpoint contains (s p : string) : bool :=
  String.prefix p s ||
  match s with
  | EmptyString => false
  | String _ s' => contains s' p
  end.

(** [s.endswith(p)] and the removal of one trailing [p], which is what
    "stripping a suffix" means. *)
Definition endswith (s p : string) : bool :=
  let ls := String.length s in
  let lp := String.length p in
  Nat.leb lp ls && String.eqb (String.substring (ls - lp) lp s) p.

Definition removesuffix (s p : string) : string :=
  if endswith s p
  then String.substring 0 (String.length s - String.length p) s
  else s.

End PyStr.

(** ** Python floats and integers *)

Module PyNum.

(** [float(n)] for an [int]: the nearest binary64 value, ties to even,
    which is the machine's conversion below 2^63 and the same rounding
    done on [Z] above; a negative number is converted through its
    magnitude.  Python raises [OverflowError] where that value is not
    finite; the callers below test [is_infinity] for it. *)
Definition float_of_magnitude (m : Z) : float :=
  if m <? 9223372036854775808 then of_uint63 (Uint63.of_Z m)
  else SF2Prim (binary_normalize prec emax m 0 false).

Definition float_of_int (n : Z) : float :=
  if n <? 0 then (- float_of_magnitude (- n))%float else float_of_magnitude n.

(** [a / b] on two [int]s (true division).  Both operands used in this
    program are far below 2^53, where the quotient of the converted
    operands is the correctly rounded quotient Python returns. *)
Definition truediv (a b : Z) : float :=
  (float_of_int a / float_of_int b)%float.

(** [x > y], [x < y] on floats; every comparison with [nan] is false. *)
Definition gt (x y : float) : bool := (y <? x)%float.
Definition lt (x y : float) : bool := (x <? y)%float.

(** [t % 1] on a float: the fractional part for [t >= 0]; for [t < 0]
    Python adds 1 to the negative remainder. *)
Definition mod1 (t : float) : float :=
  match Prim2SF t with
  | S754_nan | S754_infinity _ => PrimFloat.nan
  | S754_zero _ => PrimFloat.zero
  | S754_finite s m e =>
      if 0 <=? e then PrimFloat.zero
      else
        let f := SF2Prim (binary_normalize prec emax (Z.pos m mod 2 ^ (- e)) e false) in
        if PrimFloat.is_zero f then PrimFloat.zero
        else if s then (1 - f)%float else f
  end.

(** Rounding a non-negative fraction [num / den] to the nearest integer,
    ties to the even one, as the fixed-point formats [.2f] and [.0f] do. *)
Definition round_half_even (num den : Z) : Z :=
  let q := num / den in
  let r := num mod den in
  if 2 * r <? den then q
  else if den <? 2 * r then q + 1
  else if Z.even q then q else q + 1.

Definition digits (n : Z) : string :=
  NilZero.string_of_uint (N.to_uint (Z.to_N n)).

(** [n] written with at least [width] digits, zero padded on the left. *)
Fixpoint zero_pad (width : nat) (s : string) : string :=
  match width with
  | O => s
  | S w => if Nat.ltb (String.length s) width then zero_pad w ("0" +:+ s) else s
  end.

(** [format(x, '.<d>f')]: the exact value of [x] rounded to [d] decimals. *)
Definition format_fixed (d : nat) (x : float) : string :=
  let sign (s : bool) := if s then "-" else "" in
  let body (scaled : Z) :=
    let unit := 10 ^ Z.of_nat d in
    let int_part := digits (scaled / unit) in
    match d with
    | O => int_part
    | S _ => int_part +:+ "." +:+ zero_pad d (digits (scaled mod unit))
    end in
  match Prim2SF x with
  | S754_nan => "nan"
  | S754_infinity s => sign s +:+ "inf"
  | S754_zero s => sign s +:+ body 0
  | S754_finite s m e =>
      let num := Z.pos m * 10 ^ Z.of_nat d in
      let scaled :=
        if 0 <=? e then num * 2 ^ e else round_half_even num (2 ^ (- e)) in
      sign s +:+ body scaled
  end.

End PyNum.

(** ** Exceptions *)

(** The exception classes the two programs can meet.  [JSONDecodeError] is
    a subclass of [ValueError]; every class here is a subclass of
    [Exception]. *)
Inductive exn : Set :=
| ConnectionClosed
| JSONDecodeError
| KeyError
| ValueError
| TypeError
| AttributeError
| OverflowError
| OSError.

(** [except ValueError] also catches the subclass. *)
Definition is_ValueError (e : exn) : bool :=
  match e with
  | ValueError | JSONDecodeError => true
  | _ => false
  end.

Inductive pyres (A : Type) : Type :=
| Ok (a : A)
| Raise (e : exn).

Arguments Ok {A} a.
Arguments Raise {A} e.

Definition pybind {A B : Type} (c : pyres A) (k : A -> pyres B) : pyres B :=
  match c with
  | Ok a => k a
  | Raise e => Raise e
  end.

Notation "'do' x <- c ; k" := (pybind c (fun x => k))
  (at level 10, x name, c at level 100, k at level 200).

(** A computation that does not raise [ConnectionClosed]. *)
Definition stays_open {A : Type} (c : pyres A) : Prop :=
  match c with
  | Raise ConnectionClosed => False
  | _ => True
  end.

(** A list comprehension whose element expression may raise. *)
Fixpoint traverse {A B : Type} (f : A -> pyres B) (l : list A) : pyres (list B) :=
  match l with
  | [] => Ok []
  | a :: rest => do b <- f a; do bs <- traverse f rest; Ok (b :: bs)
  end.

(** ** Decoded JSON *)

(** What [json.loads] returns: [None], [bool], [int], [float], [str],
    [list] and [dict].  A [dict] is kept as its items in order, each key
    once. *)
Inductive jval : Type :=
| JNull
| JBool (b : bool)
| JInt (n : Z)
| JReal (x : float)
| JStr (s : string)
| JArr (items : list jval)
| JObj (fields : list (string * jval)).

Module Json.

Fixpoint assoc (k : string) (fields : list (string * jval)) : option jval :=
  match fields with
  | [] => None
  | (k', v) :: rest => if String.eqb k k' then Some v else assoc k rest
  end.

Definition is_str (s : string) (v : jval) : bool :=
  match v with
  | JStr s' => String.eqb s' s
  | _ => false
  end.

(** [v[k]] with a string key [k]. *)
Definition getitem (v : jval) (k : string) : pyres jval :=
  match v with
  | JObj fields =>
      match assoc k fields with
      | Some x => Ok x
      | None => Raise KeyError
      end
  | _ => Raise TypeError
  end.

(** [k in v] with a string [k]: key of a dict, item of a list, substring
    of a string; the other values are not containers. *)
Definition contains (k : string) (v : jval) : pyres bool :=
  match v with
  | JObj fields => Ok (bool_decide (is_Some (assoc k fields)))
  | JArr items => Ok (existsb (is_str k) items)
  | JStr s => Ok (PyStr.contains s k)
  | _ => Raise TypeError
  end.

(** [d.get(k, default)] on a dict. *)
Definition get (fields : list (string * jval)) (k : string) (default : jval) : jval :=
  match assoc k fields with
  | Some x => x
  | None => default
  end.

(** [v == s] for a string [s]. *)
Definition eq_str (v : jval) (s : string) : bool := is_str s v.

(** [int(x)] on a float: truncation toward zero. *)
Definition int_of_float (x : float) : pyres Z :=
  match Prim2SF x with
  | S754_nan => Raise ValueError
  | S754_infinity _ => Raise OverflowError
  | S754_zero _ => Ok 0
  | S754_finite s m e =>
      let a := if 0 <=? e then Z.pos m * 2 ^ e else Z.pos m / 2 ^ (- e) in
      Ok (if s then - a else a)
  end.

End Json.

(** The builtins [json.loads], [float] and [int] read text; what they make
    of a given text is a parameter of the development. *)
Section Builtins.

(** [json.loads(text)]; [None] when it raises [JSONDecodeError]. *)
Variable json_decode : string -> option jval.
(** [float(s)] on a string; [None] when it raises [ValueError]. *)
Variable float_of_str : string -> option float.
(** [int(s)] on a string; [None] when it raises [ValueError]. *)
Variable int_of_str : string -> option Z.

Definition json_loads (text : string) : pyres jval :=
  match json_decode text with
  | Some v => Ok v
  | None => Raise JSONDecodeError
  end.

Definition py_float (v : jval) : pyres float :=
  match v with
  | JReal x => Ok x
  | JInt n =>
      let x := PyNum.float_of_int n in
      if PrimFloat.is_infinity x then Raise OverflowError else Ok x
  | JBool b => Ok (if b then 1%float else 0%float)
  | JStr s =>
      match float_of_str s with
      | Some x => Ok x
      | None => Raise ValueError
      end
  | JNull | JArr _ | JObj _ => Raise TypeError
  end.

Definition py_int (v : jval) : pyres Z :=
  match v with
  | JInt n => Ok n
  | JBool b => Ok (if b then 1 else 0)
  | JReal x => Json.int_of_float x
  | JStr s =>
      match int_of_str s with
      | Some n => Ok n
      | None => Raise ValueError
      end
  | JNull | JArr _ | JObj _ => Raise TypeError
  end.

End Builtins.

(** ** The websocket *)

(** What [await websocket.recv()] does when the task resumes: it returns a
    message, raises [ConnectionClosed], or fails with another error (shown
    as [OSError]). *)
Inductive recv_event : Type :=
| Message (text : string)
| RecvClosed
| RecvFailed.

(** ** Files and the clock *)

(** A file system maps a path to the rows written to that file so far; a
    path that is not bound has no file. *)
Module Fs.
Section Rows.
Context {row : Type}.

(** [open(path, 'a')] creates the file when it is missing. *)
Definition open_append (path : string) (fs : gmap string (list row))
  : gmap string (list row) :=
  match fs !! path with
  | Some _ => fs
  | None => <[path := []]> fs
  end.

(** One row written through a handle opened with ['a']. *)
Definition append (path : string) (r : row) (fs : gmap string (list row))
  : gmap string (list row) :=
  <[path := default [] (fs !! path) ++ [r]]> fs.

(** The rows of a file; none when the file is missing. *)
Definition rows (path : string) (fs : gmap string (list row)) : list row :=
  default [] (fs !! path).
End Rows.
End Fs.

(** The wall clock is the number of microseconds since the epoch; UTC has
    no daylight saving, so the fields of [datetime.now(timezone.utc)] are
    plain quotients of it. *)
Module Clock.

Definition microsecond (t : Z) : Z := t mod 1000000.
Definition second (t : Z) : Z := (t / 1000000) mod 60.
Definition minute (t : Z) : Z := (t / 60000000) mod 60.
Definition hour (t : Z) : Z := (t / 3600000000) mod 24.

(** [t.replace(second=0, microsecond=0)] *)
Definition replace_second0 (t : Z) : Z := t - t mod 60000000.

Definition two_digits (n : Z) : string := PyNum.zero_pad 2 (PyNum.digits n).

(** [t.strftime('%H:%M:%S')] *)
Definition strftime_HMS (t : Z) : string :=
  two_digits (hour t) +:+ ":" +:+ two_digits (minute t) +:+ ":" +:+ two_digits (second t).

(** A time of day on the first day of the epoch, for examples. *)
Definition at_time (h m s us : Z) : Z :=
  ((h * 60 + m) * 60 + s) * 1000000 + us.

(** [await asyncio.sleep(delay)] with the delay given in microseconds: a
    delay that is zero or negative returns at once, and the model takes
    the wake-up to be punctual. *)
Definition after_sleep (t delay : Z) : Z := t + Z.max 0 delay.

End Clock.

(** * funding.py *)

Module Funding.

Definition symbols : list string :=
  ["btcusdt"; "ethusdt"; "solusdt"; "xrpusdt"; "bnbusdt"; "dogeusdt"].

Definition display_names : list string :=
  map (fun symbol => PyStr.upper (PyStr.replace symbol "usdt" "")) symbols.

Definition websocket_url_base : string := "wss://fstream.binance.com/ws/".

(** The dictionary [current_rates] as the module creates it. *)
Definition current_rates : gmap string (option float) :=
  list_to_map (map (fun name => (name, None)) display_names).

Definition CSV_FILENAME : string := "funding_rates.csv".

(** ** Observable state *)

(** What the logger is asked to write (level INFO and above). *)
Inductive log_record : Type :=
| LogCreatedCsv
| LogIncomplete
| LogWrote (row : list string)
| LogConnecting (url : string)
| LogConnectionClosed (symbol : string)
| LogJsonDecodeError (symbol : string)
| LogUnexpected (symbol : string)
| LogWaiting (wait_time : float).

(** One call of [cprint(text, text_color, back_color)]. *)
Record cprint_call : Type :=
  Cprint { text : string; text_color : string; back_color : string }.

Record world : Type := World {
  rates : gmap string (option float);
  files : gmap string (list (list string));
  console : list cprint_call;
  logged : list log_record
}.

Definition set_rates (r : gmap string (option float)) (w : world) : world :=
  World r (files w) (console w) (logged w).
Definition set_files (f : gmap string (list (list string))) (w : world) : world :=
  World (rates w) f (console w) (logged w).
Definition print_all (out : list cprint_call) (w : world) : world :=
  World (rates w) (files w) (console w ++ out) (logged w).
Definition log (r : log_record) (w : world) : world :=
  World (rates w) (files w) (console w) (logged w ++ [r]).

(** The state the program starts from, given the files already on disk. *)
Definition boot (disk : gmap string (list (list string))) : world :=
  World current_rates disk [] [].

(** ** Persistence *)

Definition setup_csv_file (w : world) : world :=
  let headers := "Time (UTC)" :: display_names in
  match files w !! CSV_FILENAME with
  | Some _ => w
  | None => log LogCreatedCsv (set_files (<[CSV_FILENAME := [headers]]> (files w)) w)
  end.

Definition is_None {A : Type} (v : option A) : bool :=
  match v with
  | None => true
  | Some _ => false
  end.

(** [None in rates.values()] *)
Definition None_in_values (rates : gmap string (option float)) : bool :=
  existsb is_None (map snd (map_to_list rates)).

(** [f"{rates[name]:.2f}%"] *)
Definition cell (rates : gmap string (option float)) (name : string) : pyres string :=
  match rates !! name with
  | None => Raise KeyError
  | Some None => Raise TypeError
  | Some (Some x) => Ok (PyNum.format_fixed 2 x +:+ "%")
  end.

(** The text of a cell whose rate is set. *)
Definition shown (rates : gmap string (option float)) (name : string) : string :=
match rates !! name with
| Some (Some x) => PyNum.format_fixed 2 x +:+ "%"
| _ => ""
end.

Definition write_to_csv (timestamp : string) (rates : gmap string (option float))
    (w : world) : pyres unit * world :=
  if None_in_values rates then (Ok tt, log LogIncomplete w)
  else
    match traverse (cell rates) display_names with
    | Ok cells =>
        let row := timestamp :: cells in
        (Ok tt, log (LogWrote row) (set_files (Fs.append CSV_FILENAME row (files w)) w))
    | Raise e => (Raise e, set_files (Fs.open_append CSV_FILENAME (files w)) w)
    end.

(** ** The scheduler *)

Definition seconds_to_next_minute (now : Z) : Z :=
  let s := 60 - Clock.second now in
  if s =? 60 then 0 else s.

Definition microseconds_to_wait (now : Z) : Z :=
  seconds_to_next_minute now * 1000000 - Clock.microsecond now.

Definition wait_time (now : Z) : float :=
  PyNum.truediv (microseconds_to_wait now) 1000000.

(** The quotient [- i / 1000000] on machine numbers with two tests of it:
    it is below zero, and it is the opposite of [i / 1000000]. *)
Definition negative_fraction_ok (i : int) : bool :=
  let x := (- of_uint63 i / of_uint63 1000000)%float in
  PrimFloat.ltb x 0%float
  && PrimFloat.Leibniz.eqb x (- (of_uint63 i / of_uint63 1000000))%float.

(** The tests run for [i = 1, 2, ..., count]. *)
Definition negative_fractions_ok (count : positive) : int * bool :=
  Pos.iter (fun st => ((fst st + 1)%uint63, snd st && negative_fraction_ok (fst st)))
           (1%uint63, true) count.

(** The pause after a collection, in seconds. *)
Definition pause_after_collection : Z := 55.

(** The colours chosen for a rate, lines 148 to 157. *)
Definition colors (rate : float) : string * string :=
  if PyNum.gt rate 50 then ("black", "on_red")
  else if PyNum.gt rate 30 then ("black", "on_yellow")
  else if PyNum.gt rate 5 then ("black", "on_cyan")
  else if PyNum.lt rate (-10) then ("black", "on_green")
  else ("black", "on_light_green").

(** The bands of the specification and the background colour that shows
    each on the console. *)
Inductive band : Set :=
| SevereHigh
| High
| Elevated
| SevereLow
| Neutral.

Definition band_color (b : band) : string :=
match b with
| SevereHigh => "on_red"
| High => "on_yellow"
| Elevated => "on_cyan"
| SevereLow => "on_green"
| Neutral => "on_light_green"
end.

(** Follows the spec's words: above 50 severe-high, above 30 high, above 5
    elevated, below -10 severe-low, else neutral, in this order of
    precedence, the first match winning. *)
Definition in_band (rate : float) (b : band) : Prop :=
match b with
| SevereHigh => PyNum.gt rate 50 = true
| High => PyNum.gt rate 50 = false /\ PyNum.gt rate 30 = true
| Elevated =>
    PyNum.gt rate 50 = false /\ PyNum.gt rate 30 = false /\ PyNum.gt rate 5 = true
| SevereLow =>
    PyNum.gt rate 50 = false /\ PyNum.gt rate 30 = false /\ PyNum.gt rate 5 = false /\
    PyNum.lt rate (-10) = true
| Neutral =>
    PyNum.gt rate 50 = false /\ PyNum.gt rate 30 = false /\ PyNum.gt rate 5 = false /\
    PyNum.lt rate (-10) = false
end.

(** Follows the spec's words: the time that remains until the next :00
    second of the wall clock, in microseconds; none on the boundary. *)
Definition remaining_to_next_minute (now : Z) : Z := (- now) mod 60000000.

(** [snapshot = current_rates.copy()] *)
Definition snapshot (w : world) : gmap string (option float) := rates w.

Section Presentation.

(** The choice of colours, to compare the program under two choices. *)
Variable palette : float -> string * string.

Definition render_item (item : string * option float) : list cprint_call :=
  match item with
  | (name, Some rate) =>
      let (text_color, back_color) := palette rate in
      [Cprint (name +:+ " funding: " +:+ PyNum.format_fixed 2 rate +:+ "%")
              text_color back_color]
  | (_, None) => []
  end.

(** The loop over [snapshot.items()].  A Python dictionary lists its
    items in insertion order; the map lists the same items in an order
    of its own. *)
Definition render (snap : gmap string (option float)) : list cprint_call :=
  flat_map render_item (map_to_list snap).

(** Lines 136 to 163: what the scheduler does when its sleep returns
    and the clock reads [now]. *)
Definition collect_with (now : Z) (w : world) : pyres unit * world :=
  let collection_time := Clock.replace_second0 now in
  let collection_time_str := Clock.strftime_HMS collection_time in
  let snap := snapshot w in
  write_to_csv collection_time_str snap (print_all (render snap) w).

End Presentation.

Definition collect : Z -> world -> pyres unit * world := collect_with colors.

(** Lines 121 to 133: the wait computed when the clock reads [now], and
    the time at which a punctual sleep returns. *)
Definition plan (now : Z) (w : world) : Z * world :=
  (Clock.after_sleep now (microseconds_to_wait now), log (LogWaiting (wait_time now)) w).

(** [cycles] rounds of the scheduler's loop on a punctual clock on which
    the work itself takes no time; the result lists the times at which
    collection was triggered.  An exception ends the task. *)
Fixpoint scheduled_data_collection (cycles : nat) (now : Z) (w : world)
  : list Z * world :=
  match cycles with
  | O => ([], w)
  | S n =>
      let (trigger, w1) := plan now w in
      match collect trigger w1 with
      | (Ok _, w2) =>
          let resume := Clock.after_sleep trigger (pause_after_collection * 1000000) in
          let (later, w3) := scheduled_data_collection n resume w2 in
          (trigger :: later, w3)
      | (Raise _, w2) => ([trigger], w2)
      end
  end.

(** ** The streams *)

(** Line 95. *)
Definition yearly_funding_rate (funding_rate : float) : float :=
  ((funding_rate * 3 * 365) * 100)%float.

(** One pass of the outer loop: [connect] raises, or the connection
    opens and delivers [frames]. *)
Inductive attempt : Type :=
| ConnectFails
| Connected (frames : list recv_event).

(** How the receive loop of one connection stands after the frames it was
    given: still waiting in [recv], or left by an exception. *)
Inductive loop_exit : Type :=
| Waiting
| Raised (e : exn).

(** The record of one pass: how it ended, the frames of that connection
    that were never read, and the seconds slept afterwards. *)
Record session : Type :=
  Session { ended_by : loop_exit; unread : list recv_event; slept : option Z }.

(** The tasks [main] creates, one per pair of [zip(symbols, display_names)]. *)
Definition streams : list (string * string) := zip symbols display_names.

(** The atomic events of the running program: a stream task resumes from
    [recv] with a message, or the scheduler resumes from its sleep when
    the clock reads [now].  The critical sections under [data_lock]
    contain no [await], so each lies within one event. *)
Inductive event : Type :=
| EvMessage (stream : string * string) (message : string)
| EvCollect (now : Z).

(** An event of a task that [main] created. *)
Definition from_task (ev : event) : Prop :=
match ev with
| EvMessage stream _ => stream ∈ streams
| EvCollect _ => True
end.

Section Streams.

Variable json_decode : string -> option jval.
Variable float_of_str : string -> option float.

(** Lines 91 to 95. *)
Definition derive (message : string) : pyres float :=
  do data <- json_loads json_decode message;
  do r <- Json.getitem data "r";
  do funding_rate <- py_float float_of_str r;
  Ok (yearly_funding_rate funding_rate).

(** Lines 91 to 98: one turn of the receive loop on a message. *)
Definition on_message (display_name message : string) (w : world)
  : pyres unit * world :=
  match derive message with
  | Ok yearly => (Ok tt, set_rates (<[display_name := Some yearly]> (rates w)) w)
  | Raise e => (Raise e, w)
  end.

(** Lines 88 to 101, on the frames one connection delivers. *)
Fixpoint receive_loop (display_name : string) (frames : list recv_event)
    (w : world) : loop_exit * list recv_event * world :=
  match frames with
  | [] => (Waiting, [], w)
  | RecvClosed :: rest => (Raised ConnectionClosed, rest, w)
  | RecvFailed :: rest => (Raised OSError, rest, w)
  | Message m :: rest =>
      match on_message display_name m w with
      | (Ok _, w') => receive_loop display_name rest w'
      | (Raise e, w') => (Raised e, rest, w')
      end
  end.

(** Lines 103 to 111: the three handlers of the outer loop, with the
    seconds each sleeps. *)
Definition handle (symbol : string) (e : exn) (w : world) : Z * world :=
  match e with
  | ConnectionClosed => (5, log (LogConnectionClosed symbol) w)
  | JSONDecodeError => (1, log (LogJsonDecodeError symbol) w)
  | _ => (5, log (LogUnexpected symbol) w)
  end.

(** Lines 84 to 111 on a script of connection attempts.  The run stops
    where a connection goes quiet: the task then waits in [recv]. *)
Fixpoint continuous_funding_stream (symbol display_name : string)
    (script : list attempt) (w : world) : list session * world :=
  match script with
  | [] => ([], w)
  | a :: later =>
      let url := websocket_url_base +:+ symbol +:+ "@markPrice" in
      let w0 := log (LogConnecting url) w in
      match a with
      | ConnectFails =>
          let (delay, w1) := handle symbol OSError w0 in
          let (sessions, w2) := continuous_funding_stream symbol display_name later w1 in
          (Session (Raised OSError) [] (Some delay) :: sessions, w2)
      | Connected frames =>
          match receive_loop display_name frames w0 with
          | (Waiting, rest, w1) => ([Session Waiting rest None], w1)
          | (Raised e, rest, w1) =>
              let (delay, w2) := handle symbol e w1 in
              let (sessions, w3) := continuous_funding_stream symbol display_name later w2 in
              (Session (Raised e) rest (Some delay) :: sessions, w3)
          end
      end
  end.

(** One event of the running program. *)
Definition step (w : world) (ev : event) : world :=
  match ev with
  | EvMessage (symbol, display_name) message =>
      match on_message display_name message w with
      | (Ok _, w') => w'
      | (Raise e, w') => snd (handle symbol e w')
      end
  | EvCollect now => snd (collect now w)
  end.

Definition run (evs : list event) (w : world) : world := fold_left step evs w.

(** The value an event stores for [display_name], if it stores one. *)
Definition stored (name : string) (ev : event) : option float :=
  match ev with
  | EvMessage (_, display_name) message =>
      if String.eqb display_name name
      then match derive message with Ok yearly => Some yearly | Raise _ => None end
      else None
  | EvCollect _ => None
  end.

(** The last value stored for [name] in a trace, if any. *)
Fixpoint last_update (name : string) (evs : list event) : option float :=
  match evs with
  | [] => None
  | ev :: later =>
      match last_update name later with
      | Some v => Some v
      | None => stored name ev
      end
  end.

End Streams.

End Funding.

(** * liqs.py *)

Module Liqs.

Definition websocket_url : string := "wss://fstream.binance.com/ws/!forceOrder@arr".

Definition TOKENS_TO_WATCH : list string := ["BTC"; "ETH"; "SOL"; "XRP"; "AVAX"; "BNB"].

(** [os.path.join] of a directory and a relative name. *)
Definition path_join (dir name : string) : string := dir +:+ "/" +:+ name.

Definition DATA_DIR : string := "binance_liquidation_data".
Definition TOKEN_DIR : string := path_join DATA_DIR "token_liquidations".
Definition main_file : string := path_join DATA_DIR "binance_all_liquidations.csv".
Definition token_file (token : string) : string :=
  path_join TOKEN_DIR (token +:+ "_liquidations.csv").

Definition main_header : list jval :=
  map JStr ["symbol"; "side"; "order_type"; "time_in_force";
            "original_quantity"; "price"; "average_price"; "order_status";
            "order_last_filled_quantity"; "order_filled_accumulated_quantity";
            "order_trade_time"; "usd_size"].

Definition token_header : list jval := main_header ++ [JStr "time_est"].

(** ** Observable state *)

(** The messages handed to [log_message]; the text of an exception and
    the time stamp of the log line are left out. *)
Inductive notice : Type :=
| InvalidData (symbol : string)
| Connecting (uri : string)
| ConnectedOk
| ClosedUnexpectedly
| DecodeError (head : string)
| ProcessingError
| ConnectionError
| ReconnectingIn (backoff : Z).

Inductive console_item : Type :=
| Cprint (text color on_color : string) (attrs : list string)
| Print (text : string)
| Cnotice (n : notice).

(** A row of a CSV file is the list of values whose [str] forms are
    joined by commas. *)
Record world : Type := World {
  files : gmap string (list (list jval));
  log_lines : list notice;
  console : list console_item
}.

Definition set_files (f : gmap string (list (list jval))) (w : world) : world :=
  World f (log_lines w) (console w).
Definition show (items : list console_item) (w : world) : world :=
  World (files w) (log_lines w) (console w ++ items).

(** Lines 54 to 62. *)
Definition log_message (n : notice) (w : world) : world :=
  World (files w) (log_lines w ++ [n]) (console w ++ [Cnotice n]).

(** ** The disk when the module is loaded *)

(** The working directory: its directories, and its regular files with
    the rows each holds, by path. *)
Record disk_state : Type := Disk {
  folders : gset string;
  regular : gmap string (list (list jval))
}.

(** [os.makedirs(path, exist_ok=True)] for a path whose parent is there:
    nothing is done when the directory exists; the call raises
    [FileExistsError], an [OSError], when the name is taken by a regular
    file; otherwise the directory is made. *)
Definition makedirs (path : string) (d : disk_state) : pyres disk_state :=
  if bool_decide (path ∈ folders d) then Ok d
  else
    match regular d !! path with
    | Some _ => Raise OSError
    | None => Ok (Disk ({[path]} ∪ folders d) (regular d))
    end.

(** [open(path, 'w')] followed by the header line, on a path that
    [os.path.isfile] did not find. *)
Definition create_if_missing (path : string) (header : list jval)
    (fs : gmap string (list (list jval))) : gmap string (list (list jval)) :=
  match fs !! path with
  | Some _ => fs
  | None => <[path := [header]]> fs
  end.

(** Lines 30 to 37 and 42 to 49: a file that is there is left alone;
    otherwise it is opened for writing, which raises
    [IsADirectoryError], an [OSError], when the path is a directory. *)
Definition write_header_if_missing (path : string) (header : list jval)
    (d : disk_state) : pyres disk_state :=
  match regular d !! path with
  | Some _ => Ok d
  | None =>
      if bool_decide (path ∈ folders d) then Raise OSError
      else Ok (Disk (folders d) (create_if_missing path header (regular d)))
  end.

(** Lines 40 to 49, the loop over the watch list; an exception leaves
    the files made so far. *)
Fixpoint write_token_headers (tokens : list string) (d : disk_state)
  : pyres unit * disk_state :=
  match tokens with
  | [] => (Ok tt, d)
  | token :: rest =>
      match write_header_if_missing (token_file token) token_header d with
      | Ok d' => write_token_headers rest d'
      | Raise e => (Raise e, d)
      end
  end.

(** Lines 18 to 49: what loading the module does to the disk, and the
    disk it leaves when it raises. *)
Definition load (d : disk_state) : pyres unit * disk_state :=
  match makedirs DATA_DIR d with
  | Raise e => (Raise e, d)
  | Ok d1 =>
      match makedirs TOKEN_DIR d1 with
      | Raise e => (Raise e, d1)
      | Ok d2 =>
          match write_header_if_missing main_file main_header d2 with
          | Raise e => (Raise e, d2)
          | Ok d3 => write_token_headers TOKENS_TO_WATCH d3
          end
      end
  end.

(** The state the program starts in when the module is loaded in a
    working directory that holds the regular files [disk] and no
    directory yet.  Where loading raises the program does not start,
    and the files are those the failed load left. *)
Definition boot (disk : gmap string (list (list jval))) : world :=
  World (regular (snd (load (Disk ∅ disk)))) [] [].

(** The liquidation rows of a file beyond its header. *)
Definition data_rows (path : string) (w : world) : list (list jval) :=
drop 1 (Fs.rows path (files w)).

(** ** The filter *)

(** Lines 71 to 75: the first token of the watch list, in list order,
    that the symbol starts with. *)
Fixpoint first_token (symbol : string) (tokens : list string) : option string :=
  match tokens with
  | [] => None
  | token :: rest =>
      if PyStr.startswith symbol token then Some token else first_token symbol rest
  end.

(** A liquidation that passed the filter, with what the rest of the
    function uses. *)
Record qualified : Type := Qualified {
  q_fields : list (string * jval);
  q_full_symbol : string;
  q_base_token : string;
  q_side : jval;
  q_usd_size : float;
  q_time_est : string
}.

Inductive verdict : Type :=
| Unwatched
| Invalid (symbol : string)
| BelowThreshold (usd_size : float)
| Qualifies (q : qualified).

(** [x.replace(...)] exists on strings only. *)
Definition as_str (v : jval) : pyres string :=
  match v with
  | JStr s => Ok s
  | _ => Raise AttributeError
  end.

(** The items of a value that has been indexed by a key without error. *)
Definition fields_of (v : jval) : list (string * jval) :=
  match v with
  | JObj fields => fields
  | _ => []
  end.

(** The emphasis threshold of line 105 and the size threshold of line 93. *)
Definition min_usd_size : float := 3000%float.
Definition bold_usd_size : float := 10000%float.

Section Filter.

Variable float_of_str : string -> option float.
Variable int_of_str : string -> option Z.
(** [datetime.fromtimestamp(timestamp / 1000, est).strftime('%H:%M:%S')]
    for the time zone US/Eastern; [None] when the time stamp is out of
    the range of [datetime] and the call raises. *)
Variable time_est_of : Z -> option string.

Definition time_est (timestamp : Z) : pyres string :=
  match time_est_of timestamp with
  | Some text => Ok text
  | None => Raise OverflowError
  end.

(** Lines 86 to 88, the body of the [try]. *)
Definition usd_size_of (order_data : jval) : pyres float :=
  do z <- Json.getitem order_data "z";
  do filled_quantity <- py_float float_of_str z;
  do p <- Json.getitem order_data "p";
  do price <- py_float float_of_str p;
  Ok (filled_quantity * price)%float.

(** Lines 67 to 98: everything the function decides before it prints
    or writes.  No effect precedes a point where this part can raise,
    except the warning of line 90, which [Invalid] stands for. *)
Definition decide (order_data : jval) : pyres verdict :=
  do s <- Json.getitem order_data "s";
  do full_symbol <- as_str s;
  let symbol := PyStr.replace full_symbol "USDT" "" in
  match first_token symbol TOKENS_TO_WATCH with
  | None => Ok Unwatched
  | Some base_token =>
      do side <- Json.getitem order_data "S";
      do t <- Json.getitem order_data "T";
      do timestamp <- py_int int_of_str t;
      match usd_size_of order_data with
      | Raise KeyError => Ok (Invalid symbol)
      | Raise e => if is_ValueError e then Ok (Invalid symbol) else Raise e
      | Ok usd_size =>
          if PyNum.lt usd_size min_usd_size then Ok (BelowThreshold usd_size)
          else
            do shown <- time_est timestamp;
            Ok (Qualifies (Qualified (fields_of order_data) full_symbol base_token
                                     side usd_size shown))
      end
  end.

(** Lines 102 to 108. *)
Definition liquidation_type (side : jval) : string :=
  if Json.eq_str side "SELL" then "L LIQ" else "S LIQ".

Definition announce (q : qualified) : list console_item :=
  let output :=
    liquidation_type (q_side q) +:+ " " +:+ q_base_token q +:+ " " +:+
    q_time_est q +:+ " $" +:+ PyNum.format_fixed 0 (q_usd_size q) in
  let color := if Json.eq_str (q_side q) "SELL" then "green" else "red" in
  let attrs := if PyNum.gt (q_usd_size q) bold_usd_size then ["bold"] else [] in
  [Cprint output "white" ("on_" +:+ color) attrs; Print ""].

(** Lines 111 to 124; the last value is the text of [str(usd_size)]. *)
Definition msg_values (q : qualified) : list jval :=
  JStr (q_full_symbol q) ::
  map (fun k => Json.get (q_fields q) k (JStr ""))
      ["S"; "o"; "f"; "q"; "p"; "ap"; "X"; "l"; "z"; "T"] ++
  [JReal (q_usd_size q)].

(** Lines 127 to 143, on a disk that takes the writes. *)
Definition persist (q : qualified) (w : world) : world :=
  let w1 := set_files (Fs.append main_file (msg_values q) (files w)) w in
  let token_msg_values := msg_values q ++ [JStr (q_time_est q)] in
  set_files (Fs.append (token_file (q_base_token q)) token_msg_values (files w1)) w1.

Definition process_liquidation (order_data : jval) (w : world) : pyres unit * world :=
  match decide order_data with
  | Raise e => (Raise e, w)
  | Ok Unwatched => (Ok tt, w)
  | Ok (Invalid symbol) => (Ok tt, log_message (InvalidData symbol) w)
  | Ok (BelowThreshold _) => (Ok tt, w)
  | Ok (Qualifies q) => (Ok tt, persist q (show (announce q) w))
  end.

End Filter.

(** ** The connection *)

Definition initial_backoff : Z := 1.
Definition max_backoff : Z := 60.

(** One pass of the outer loop: [connect] raises while the event loop's
    clock reads [loop_time], or the connection opens and delivers
    [frames]. *)
Inductive attempt : Type :=
| ConnectFails (loop_time : float)
| Connected (frames : list recv_event).

(** How the receive loop stands after the frames it was given: still
    waiting in [recv], or left through [break]. *)
Inductive loop_exit : Type :=
| Waiting
| Broke.

(** The record of one pass: a refused connection with the value of
    [backoff] announced and the seconds slept, or a connection with the
    way its loop ended and the frames it never read. *)
Inductive session : Type :=
| Refused (backoff : Z) (slept : float)
| Streamed (ended_by : loop_exit) (unread : list recv_event).

(** Line 178: [backoff + (0.1 * backoff * (loop.time() % 1))]. *)
Definition jittered (backoff : Z) (loop_time : float) : float :=
  (PyNum.float_of_int backoff
   + (0.1 * PyNum.float_of_int backoff * PyNum.mod1 loop_time))%float.

(** Line 179. *)
Definition next_backoff (backoff : Z) : Z := Z.min (backoff * 2) max_backoff.

(** The value of [backoff] after a run of consecutive refusals. *)
Definition backoff_after (failures : nat) : Z :=
Nat.iter failures next_backoff initial_backoff.

Section Connection.

Variable json_decode : string -> option jval.
Variable float_of_str : string -> option float.
Variable int_of_str : string -> option Z.
Variable time_est_of : Z -> option string.

(** Lines 160 to 162. *)
Definition on_message (msg : string) (w : world) : pyres unit * world :=
  match json_loads json_decode msg with
  | Raise e => (Raise e, w)
  | Ok data =>
      match Json.contains "o" data with
      | Raise e => (Raise e, w)
      | Ok false => (Ok tt, w)
      | Ok true =>
          match Json.getitem data "o" with
          | Raise e => (Raise e, w)
          | Ok order_data =>
              process_liquidation float_of_str int_of_str time_est_of order_data w
          end
      end
  end.

(** Lines 157 to 171, on the frames one connection delivers. *)
Fixpoint receive_loop (frames : list recv_event) (w : world)
  : loop_exit * list recv_event * world :=
  match frames with
  | [] => (Waiting, [], w)
  | RecvClosed :: rest => (Broke, rest, log_message ClosedUnexpectedly w)
  | RecvFailed :: rest => receive_loop rest (log_message ProcessingError w)
  | Message msg :: rest =>
      match on_message msg w with
      | (Ok _, w') => receive_loop rest w'
      | (Raise ConnectionClosed, w') => (Broke, rest, log_message ClosedUnexpectedly w')
      | (Raise JSONDecodeError, w') =>
          receive_loop rest (log_message (DecodeError (String.substring 0 100 msg)) w')
      | (Raise _, w') => receive_loop rest (log_message ProcessingError w')
      end
  end.

(** Lines 150 to 179 on a script of connection attempts, from a given
    value of [backoff].  The run stops where a connection goes quiet. *)
Fixpoint connection_loop (uri : string) (script : list attempt) (backoff : Z)
    (w : world) : list session * Z * world :=
  match script with
  | [] => ([], backoff, w)
  | a :: later =>
      let w0 := log_message (Connecting uri) w in
      match a with
      | Connected frames =>
          let w1 := log_message ConnectedOk w0 in
          match receive_loop frames w1 with
          | (Waiting, rest, w2) => ([Streamed Waiting rest], initial_backoff, w2)
          | (Broke, rest, w2) =>
              let '(sessions, b, w3) := connection_loop uri later initial_backoff w2 in
              (Streamed Broke rest :: sessions, b, w3)
          end
      | ConnectFails loop_time =>
          let w1 := log_message (ReconnectingIn backoff) (log_message ConnectionError w0) in
          let '(sessions, b, w2) := connection_loop uri later (next_backoff backoff) w1 in
          (Refused backoff (jittered backoff loop_time) :: sessions, b, w2)
      end
  end.

Definition binance_liquidation (uri : string) (script : list attempt) (w : world)
  : list session * Z * world :=
  connection_loop uri script initial_backoff w.

End Connection.

End Liqs.

(** * Sample inputs *)

(** Stand-ins for the builtins on the texts used in the examples: each
    table lists what the builtin returns on those texts. *)
Module Demo.

Definition lookup_text {A : Type} (table : list (string * A)) (text : string) : option A :=
snd <$> List.find (fun entry => String.eqb (fst entry) text) table.

Definition order (symbol side filled price : string) : jval :=
JObj [("s", JStr symbol); ("S", JStr side); ("o", JStr "LIMIT"); ("f", JStr "IOC");
      ("q", JStr filled); ("p", JStr price); ("ap", JStr price); ("X", JStr "FILLED");
      ("l", JStr filled); ("z", JStr filled); ("T", JInt 1568014460893)].

Definition json_decode : string -> option jval :=
lookup_text
  [("mark price 0.0001", JObj [("e", JStr "markPriceUpdate"); ("r", JStr "0.0001")]);
   ("mark price 0.0005", JObj [("e", JStr "markPriceUpdate"); ("r", JStr "0.0005")]);
   ("force order BTCUSDT SELL 0.5 90000",
    JObj [("e", JStr "forceOrder"); ("o", order "BTCUSDT" "SELL" "0.5" "90000")]);
   ("force order BTCUSDT SELL 0.01 90000",
    JObj [("e", JStr "forceOrder"); ("o", order "BTCUSDT" "SELL" "0.01" "90000")])].

Definition float_of_str : string -> option float :=
lookup_text
  [("0.0001", 0.0001%float); ("0.0005", 0.0005%float); ("0.5", 0.5%float);
   ("0.01", 0.01%float); ("90000", 90000%float)].

Definition int_of_str : string -> option Z := lookup_text [("1568014460893", 1568014460893)].

Definition time_est_of : Z -> option string := fun _ => Some "03:34:20".

End Demo.

(** * Measures of a run of funding.py *)

Module FundingRun.
Import Funding.

(** The number of times the scheduler resumes from its sleep in a trace. *)
Fixpoint collections (evs : list event) : nat :=
  match evs with
  | [] => O
  | EvCollect _ :: later => S (collections later)
  | EvMessage _ _ :: later => collections later
  end.

(** Every instrument of the program has a rate in the dictionary. *)
Definition has_rate (rates : gmap string (option float)) (name : string) : bool :=
  match rates !! name with
  | Some (Some _) => true
  | _ => false
  end.

Definition complete (rates : gmap string (option float)) : bool :=
  forallb (has_rate rates) display_names.

(** The minute whose stamp the first collection carries when the
    scheduler starts at [now]: the minute that has just begun when the
    clock reads second :00, the next one otherwise. *)
Definition first_stamp (now : Z) : Z :=
  if Clock.second now =? 0 then Clock.replace_second0 now
  else now + remaining_to_next_minute now.

End FundingRun.

(** * Measures of a run of liqs.py *)

Module LiqsRun.
Import Liqs.

(** The notices among the items printed on the console. *)
Definition notices (console : list console_item) : list notice :=
  omap (fun item => match item with Cnotice n => Some n | _ => None end) console.

(** The messages the receive loop takes from the frames of one
    connection: those that arrive before the connection closes. *)
Fixpoint delivered (frames : list recv_event) : list string :=
  match frames with
  | [] => []
  | Message msg :: rest => msg :: delivered rest
  | RecvFailed :: rest => delivered rest
  | RecvClosed :: _ => []
  end.

(** Whether the connection closes among its frames. *)
Fixpoint closes (frames : list recv_event) : bool :=
  match frames with
  | [] => false
  | RecvClosed :: _ => true
  | _ :: rest => closes rest
  end.

(** The messages taken over a script of connection attempts: the outer
    loop goes on to the next attempt when a connection is refused or
    closes, and stays on a connection that goes quiet. *)
Fixpoint read (script : list attempt) : list string :=
  match script with
  | [] => []
  | ConnectFails _ :: later => read later
  | Connected frames :: later =>
      delivered frames ++ (if closes frames then read later else [])
  end.

Section Trace.

Variable json_decode : string -> option jval.
Variable float_of_str : string -> option float.
Variable int_of_str : string -> option Z.
Variable time_est_of : Z -> option string.

(** The liquidation a message carries, when lines 160 to 162 hand it to
    [process_liquidation] and the filter lets it through. *)
Definition recorded (msg : string) : option qualified :=
  match json_loads json_decode msg with
  | Ok data =>
      match Json.contains "o" data with
      | Ok true =>
          match Json.getitem data "o" with
          | Ok order_data =>
              match decide float_of_str int_of_str time_est_of order_data with
              | Ok (Qualifies q) => Some q
              | _ => None
              end
          | Raise _ => None
          end
      | _ => None
      end
  | Raise _ => None
  end.

End Trace.

End LiqsRun.

(** * pull_from_vps.py *)

Module PullFromVps.

Definition VPS_HOST : string := "89.116.34.94".
Definition VPS_USERNAME : string := "root".
Definition VPS_PASSWORD : string := "your-password".
Definition REMOTE_PATH : string := "/root/my_project/myfile.py".
Definition LOCAL_PATH : string := "/Users/your-user/Downloads/myfile.py".

(** The calls [download_file] makes into the SSH library: the client
    is created, its host key policy is set, it connects, an SFTP session
    is opened, the file is fetched, and the session and the client are
    closed. *)
Inductive call : Type :=
| NewClient
| SetPolicy
| Connect (hostname username password : string)
| OpenSftp
| Get (remotepath localpath : string)
| CloseSftp
| CloseSsh.

#[global] Instance call_eq_dec : EqDecision call.
Proof. solve_decision. Defined.

(** What can be observed of a run: the library calls that returned, in
    order, and the lines printed. *)
Record world : Type := World {
  returned : list call;
  console : list string
}.

Definition start : world := World [] [].

Definition print (text : string) (w : world) : world :=
  World (returned w) (console w ++ [text]).

(** The calls of the function body in program order. *)
Definition plan : list call :=
  [NewClient; SetPolicy; Connect VPS_HOST VPS_USERNAME VPS_PASSWORD; OpenSftp;
   Get REMOTE_PATH LOCAL_PATH; CloseSftp; CloseSsh].

Definition downloading : string :=
  "Downloading " +:+ REMOTE_PATH +:+ " from VPS to " +:+ LOCAL_PATH +:+ "...".

Section Library.

(** What the library and the network do with a call: [None] when it
    returns, the text of the exception when it raises. *)
Variable raises : call -> option string.

(** A statement either completes or raises an exception with a text. *)
Definition invoke (c : call) (w : world) : option string * world :=
  match raises c with
  | Some text => (Some text, w)
  | None => (None, World (returned w ++ [c]) (console w))
  end.

Definition say (text : string) (w : world) : option string * world :=
  (None, print text w).

Definition and_then (first next : world -> option string * world) (w : world)
  : option string * world :=
  match first w with
  | (None, w') => next w'
  | (Some text, w') => (Some text, w')
  end.

(** Lines 12 to 29, the body of the [try]. *)
Definition body : world -> option string * world :=
  and_then (invoke NewClient)
  (and_then (invoke SetPolicy)
  (and_then (invoke (Connect VPS_HOST VPS_USERNAME VPS_PASSWORD))
  (and_then (invoke OpenSftp)
  (and_then (say downloading)
  (and_then (invoke (Get REMOTE_PATH LOCAL_PATH))
  (and_then (invoke CloseSftp)
  (and_then (invoke CloseSsh)
            (say "Download complete!")))))))).

(** Lines 10 to 32: every exception is caught and printed. *)
Definition download_file (w : world) : world :=
  match body w with
  | (None, w') => w'
  | (Some text, w') => print ("Error: " +:+ text) w'
  end.

End Library.

End PullFromVps.

(** * Further sample inputs *)

Module Samples.

(** The funding monitor once each of the six streams has delivered the
    frame with the raw rate 0.0001. *)
Definition all_reported : Funding.world :=
  Funding.run Demo.json_decode Demo.float_of_str
    (map (fun stream => Funding.EvMessage stream "mark price 0.0001") Funding.streams)
    (Funding.setup_csv_file (Funding.boot ∅)).

(** Frames that decode but are not mark-price updates or liquidations. *)
Definition json_decode : string -> option jval :=
  Demo.lookup_text
    [("subscription reply", JObj [("result", JNull); ("id", JInt 1)]);
     ("mark price abc", JObj [("e", JStr "markPriceUpdate"); ("r", JStr "abc")])].

(** What [float] makes of the texts of an amount; Python reads the text
    nan as the float that is not a number. *)
Definition float_of_str : string -> option float :=
  Demo.lookup_text [("nan", PrimFloat.nan); ("90000", 90000%float)].

End Samples.

(** * Checks of the helper functions against Python *)

Module Checks.

Example replace_btcusdt : PyStr.replace "BTCUSDT" "USDT" "" = "BTC".
Proof. reflexivity. Qed.

Example replace_all_occurrences :
  PyStr.replace "USDTBTCUSDT" "USDT" "" = "BTC".
Proof. reflexivity. Qed.

Example upper_doge : PyStr.upper "doge" = "DOGE".
Proof. reflexivity. Qed.

Example float_of_int_60 : PyNum.float_of_int 60 = 60%float.
Proof. reflexivity. Qed.

Example float_of_int_ties_to_even :
  PyNum.float_of_int 9007199254740993 = 9007199254740992%float /\
  PyNum.float_of_int (-9007199254740995) = (-9007199254740996)%float /\
  PyNum.float_of_int 18446744073709551617 = 18446744073709551616%float.
Proof. vm_compute. repeat split. Qed.

Example truediv_wait : PyNum.truediv 22750000 1000000 = 22.75%float.
Proof. reflexivity. Qed.

Example truediv_negative : PyNum.truediv (-500000) 1000000 = (-0.5)%float.
Proof. reflexivity. Qed.

Example mod1_example : PyNum.mod1 12345.678%float = 0.67799999999988358%float.
Proof. vm_compute. reflexivity. Qed.

Example mod1_negative : PyNum.mod1 (-0.25)%float = 0.75%float.
Proof. vm_compute. reflexivity. Qed.

Example format_2f_rounds : PyNum.format_fixed 2 10.950000000000001%float = "10.95".
Proof. vm_compute. reflexivity. Qed.

Example format_2f_negative : PyNum.format_fixed 2 (-0.004)%float = "-0.00".
Proof. vm_compute. reflexivity. Qed.

Example format_2f_pad : PyNum.format_fixed 2 3.05%float = "3.05".
Proof. vm_compute. reflexivity. Qed.

Example format_0f : PyNum.format_fixed 0 45000%float = "45000".
Proof. vm_compute. reflexivity. Qed.

Example format_0f_half_even : PyNum.format_fixed 0 2.5%float = "2".
Proof. vm_compute. reflexivity. Qed.

Example strftime_example : Clock.strftime_HMS (Clock.at_time 12 1 0 0) = "12:01:00".
Proof. reflexivity. Qed.

Example display_names_value :
  Funding.display_names = ["BTC"; "ETH"; "SOL"; "XRP"; "BNB"; "DOGE"].
Proof. reflexivity. Qed.

End Checks.


(** * Properties of funding.py *)

Module FundingProps.
Import Funding.

(** ** The aggregate under interleaved events *)

Section Aggregate.

Variable json_decode : string -> option jval.
Variable float_of_str : string -> option float.

Local Abbreviation step := (step json_decode float_of_str).
Local Abbreviation run := (run json_decode float_of_str).
Local Abbreviation stored := (stored json_decode float_of_str).
Local Abbreviation last_update := (last_update json_decode float_of_str).

Lemma write_to_csv_rates timestamp snap w :
  rates (snd (write_to_csv timestamp snap w)) = rates w.
Proof.
  unfold write_to_csv.
  destruct (None_in_values snap); [reflexivity |].
  destruct (traverse (cell snap) display_names); reflexivity.
Qed.

Lemma collect_with_rates palette now w :
  rates (snd (collect_with palette now w)) = rates w.
Proof. unfold collect_with. now rewrite write_to_csv_rates. Qed.

Lemma collect_rates now w : rates (snd (collect now w)) = rates w.
Proof. apply collect_with_rates. Qed.

Lemma handle_rates symbol e w : rates (snd (handle symbol e w)) = rates w.
Proof. destruct e; reflexivity. Qed.

(** What one event does to one entry of the aggregate. *)
Lemma step_lookup w ev name :
  rates (step w ev) !! name =
  match stored name ev with
  | Some v => Some (Some v)
  | None => rates w !! name
  end.
Proof.
  destruct ev as [[symbol display_name] message | now]; simpl.
  - unfold on_message.
    destruct (derive json_decode float_of_str message) as [yearly | e]; simpl.
    + destruct (String.eqb_spec display_name name) as [-> | Hne].
      * apply lookup_insert_eq.
      * now apply lookup_insert_ne.
    + rewrite handle_rates. now destruct (String.eqb display_name name).
  - now rewrite collect_rates.
Qed.

Lemma run_cons ev evs w : run (ev :: evs) w = run evs (step w ev).
Proof. reflexivity. Qed.

Lemma run_snoc evs ev w : run (evs ++ [ev]) w = step (run evs w) ev.
Proof. unfold Funding.run. now rewrite fold_left_app. Qed.

Lemma run_lookup evs : forall w name,
  rates (run evs w) !! name =
  match last_update name evs with
  | Some v => Some (Some v)
  | None => rates w !! name
  end.
Proof.
  induction evs as [| ev later IH]; intros w name; [reflexivity |].
  rewrite run_cons, IH. simpl.
  destruct (last_update name later); [reflexivity |].
  apply step_lookup.
Qed.

Lemma stream_display_name symbol display_name :
  (symbol, display_name) ∈ streams -> display_name ∈ display_names.
Proof. unfold streams. apply elem_of_zip_r. Qed.

Lemma dom_current_rates : dom current_rates = list_to_set display_names.
Proof.
  unfold current_rates. rewrite dom_list_to_map_L. reflexivity.
Qed.

Lemma insert_dom_same (r : gmap string (option float)) k v (names : gset string) :
  dom r = names -> k ∈ names -> dom (<[k := v]> r) = names.
Proof.
  intros <- Hk. rewrite dom_insert_L.
  now apply subseteq_union_1_L, singleton_subseteq_l.
Qed.

#[local] Opaque display_names.

Lemma step_dom w ev :
  from_task ev ->
  dom (rates w) = list_to_set display_names ->
  dom (rates (step w ev)) = list_to_set display_names.
Proof.
  intros Hev Hdom.
  destruct ev as [[symbol display_name] message | now]; simpl.
  - unfold on_message.
    destruct (derive json_decode float_of_str message) as [yearly | e]; simpl.
    + apply insert_dom_same; [exact Hdom |].
      apply elem_of_list_to_set. now apply stream_display_name with symbol.
    + now rewrite handle_rates.
  - now rewrite collect_rates.
Qed.

Lemma run_dom evs : forall w,
  Forall from_task evs ->
  dom (rates w) = list_to_set display_names ->
  dom (rates (run evs w)) = list_to_set display_names.
Proof.
  induction evs as [| ev later IH]; intros w Hall Hdom; [exact Hdom |].
  inversion Hall; subst. rewrite run_cons.
  apply IH; [assumption |]. now apply step_dom.
Qed.

(** C1.  Whatever events of the stream tasks and of the scheduler come
    first, the snapshot taken after them holds, for every instrument at
    once, the last value stored for it by those events, and the value the
    aggregate started with when none was stored; what a collection prints
    and writes is computed from that one snapshot. *)
Theorem snapshot_holds_last_updates (evs : list event) (disk : gmap string (list (list string))) :
  let w := run evs (boot disk) in
  (forall name : string,
     snapshot w !! name =
     match last_update name evs with
     | Some v => Some (Some v)
     | None => current_rates !! name
     end) /\
  (forall now : Z,
     step w (EvCollect now) =
     snd (write_to_csv (Clock.strftime_HMS (Clock.replace_second0 now)) (snapshot w)
            (print_all (render colors (snapshot w)) w))).
Proof.
  split.
  - intros name. unfold snapshot. now rewrite run_lookup.
  - reflexivity.
Qed.

(** C9.  The aggregate starts with exactly the six display names as its
    keys; along every trace of events of the existing tasks each message
    writes under a key that is already there, and the aggregate, hence
    every snapshot, keeps exactly those six keys. *)
Theorem key_set_is_invariant (evs : list event) (disk : gmap string (list (list string))) :
  Forall from_task evs ->
  display_names = ["BTC"; "ETH"; "SOL"; "XRP"; "BNB"; "DOGE"] /\
  dom (rates (boot disk)) = list_to_set display_names /\
  dom (snapshot (run evs (boot disk))) = list_to_set display_names /\
  (forall pre symbol display_name message post,
     evs = pre ++ EvMessage (symbol, display_name) message :: post ->
     display_name ∈ dom (rates (run pre (boot disk))) /\
     dom (rates (run (pre ++ [EvMessage (symbol, display_name) message]) (boot disk))) =
     dom (rates (run pre (boot disk)))).
Proof.
  intros Hall. split; [| split; [| split]].
  - exact Checks.display_names_value.
  - exact dom_current_rates.
  - apply run_dom; [exact Hall | exact dom_current_rates].
  - intros pre symbol display_name message post ->.
    apply Forall_app in Hall as [Hpre Hrest].
    assert (Hev : from_task (EvMessage (symbol, display_name) message))
      by now inversion Hrest.
    pose proof (run_dom pre (boot disk) Hpre dom_current_rates) as Hdom.
    split.
    + rewrite Hdom. apply elem_of_list_to_set.
      now apply stream_display_name with symbol.
    + rewrite run_snoc, Hdom. now apply step_dom.
Qed.

End Aggregate.

(** ** Persistence of a snapshot *)

Lemma None_in_values_spec (snap : gmap string (option float)) :
  None_in_values snap = true <-> exists name, snap !! name = Some None.
Proof.
  unfold None_in_values. rewrite existsb_exists. split.
  - intros (v & Hin & Hv). destruct v; [discriminate |].
    apply in_map_iff in Hin as ((name, v) & Heq & Hin). simpl in Heq. subst v.
    exists name. now apply elem_of_map_to_list, list_elem_of_In.
  - intros (name & Hname). exists None. split; [| reflexivity].
    apply in_map_iff. exists (name, None). split; [reflexivity |].
    now apply list_elem_of_In, elem_of_map_to_list.
Qed.

Lemma traverse_total {A B : Type} (f : A -> pyres B) (g : A -> B) (l : list A) :
  (forall a, a ∈ l -> f a = Ok (g a)) -> traverse f l = Ok (map g l).
Proof.
  induction l as [| a l IH]; intros Hf; [reflexivity |].
  simpl. rewrite Hf by apply list_elem_of_here. simpl.
  rewrite IH; [reflexivity |].
  intros b Hb. now apply Hf, list_elem_of_further.
Qed.

Lemma rows_append {row : Type} path (r : row) (fs : gmap string (list row)) :
  Fs.rows path (Fs.append path r fs) = Fs.rows path fs ++ [r].
Proof. unfold Fs.rows, Fs.append. now rewrite lookup_insert_eq. Qed.

Lemma rows_append_other {row : Type} path path' (r : row) (fs : gmap string (list row)) :
  path <> path' -> Fs.rows path' (Fs.append path r fs) = Fs.rows path' fs.
Proof. intros Hne. unfold Fs.rows, Fs.append. now rewrite lookup_insert_ne. Qed.

(** C2.  For a snapshot over the six instruments: when some sample is
    still unset the write is skipped and the files stay as they were;
    when every instrument has a value exactly one row, the time stamp
    followed by the six formatted rates, is appended to the aggregate
    file. *)
Theorem write_to_csv_skips_or_appends_one
    (timestamp : string) (snap : gmap string (option float)) (w : world) :
  dom snap = list_to_set display_names ->
  let w' := snd (write_to_csv timestamp snap w) in
  ((exists name, snap !! name = Some None) ->
     files w' = files w /\
     Fs.rows CSV_FILENAME (files w') = Fs.rows CSV_FILENAME (files w)) /\
  ((forall name, name ∈ display_names -> exists x, snap !! name = Some (Some x)) ->
     let row := timestamp :: map (shown snap) display_names in
     files w' = Fs.append CSV_FILENAME row (files w) /\
     Fs.rows CSV_FILENAME (files w') = Fs.rows CSV_FILENAME (files w) ++ [row]).
Proof.
  intros Hdom w'. subst w'. unfold write_to_csv. split.
  - intros Hunset. apply None_in_values_spec in Hunset. now rewrite Hunset.
  - intros Hall.
    destruct (None_in_values snap) eqn:Hnone.
    + apply None_in_values_spec in Hnone as (name & Hname).
      assert (Hin : name ∈ dom snap) by (apply elem_of_dom; eauto).
      rewrite Hdom in Hin. apply elem_of_list_to_set in Hin.
      destruct (Hall name Hin) as (x & Hx). congruence.
    + rewrite (traverse_total (cell snap) (shown snap)).
      * simpl. split; [reflexivity | apply rows_append].
      * intros name Hin. unfold cell, shown.
        now destruct (Hall name Hin) as (x & ->).
Qed.

(** The aggregate as it starts: every sample unset, nothing is written. *)
Lemma write_to_csv_skips_or_appends_one_witness :
  let w' := snd (write_to_csv "12:01:00" current_rates (boot ∅)) in
  ((exists name, current_rates !! name = Some None) ->
     files w' = files (boot ∅) /\
     Fs.rows CSV_FILENAME (files w') = Fs.rows CSV_FILENAME (files (boot ∅))) /\
  ((forall name, name ∈ display_names -> exists x, current_rates !! name = Some (Some x)) ->
     let row := "12:01:00" :: map (shown current_rates) display_names in
     files w' = Fs.append CSV_FILENAME row (files (boot ∅)) /\
     Fs.rows CSV_FILENAME (files w') = Fs.rows CSV_FILENAME (files (boot ∅)) ++ [row]).
Proof.
  apply (write_to_csv_skips_or_appends_one "12:01:00" current_rates (boot ∅)).
  vm_compute. reflexivity.
Defined.

(** A trace of two stream tasks and the scheduler. *)
Lemma key_set_is_invariant_witness :
  let evs := [EvMessage ("btcusdt", "BTC") "mark price 0.0001";
              EvCollect (Clock.at_time 12 1 0 0);
              EvMessage ("ethusdt", "ETH") "not json"] in
  dom (snapshot (run Demo.json_decode Demo.float_of_str evs (boot ∅))) =
  list_to_set display_names.
Proof.
  intros evs.
  refine (proj1 (proj2 (proj2
    (key_set_is_invariant Demo.json_decode Demo.float_of_str evs ∅ _)))).
  repeat constructor.
Defined.

(** ** The scheduler's wait *)

Lemma clock_fields (now : Z) :
  exists m,
    now = 60000000 * m + 1000000 * Clock.second now + Clock.microsecond now /\
    0 <= Clock.second now < 60 /\
    0 <= Clock.microsecond now < 1000000.
Proof.
  unfold Clock.second, Clock.microsecond.
  exists (now / 1000000 / 60).
  pose proof (Z.div_mod now 1000000 ltac:(lia)).
  pose proof (Z.div_mod (now / 1000000) 60 ltac:(lia)).
  pose proof (Z.mod_pos_bound now 1000000 ltac:(lia)).
  pose proof (Z.mod_pos_bound (now / 1000000) 60 ltac:(lia)).
  lia.
Qed.

Lemma seconds_to_next_minute_cases (now : Z) :
  (Clock.second now = 0 /\ seconds_to_next_minute now = 0) \/
  (Clock.second now <> 0 /\ seconds_to_next_minute now = 60 - Clock.second now).
Proof.
  unfold seconds_to_next_minute.
  destruct (Z.eqb_spec (60 - Clock.second now) 60); lia.
Qed.

Lemma wait_is_remaining (now : Z) :
  Clock.second now <> 0 \/ Clock.microsecond now = 0 ->
  microseconds_to_wait now = remaining_to_next_minute now.
Proof.
  intros Hcase.
  destruct (clock_fields now) as (m & Hnow & Hs & Hus).
  unfold microseconds_to_wait, remaining_to_next_minute.
  destruct (seconds_to_next_minute_cases now) as [[Hz ->] | [Hnz ->]].
  - apply Z.mod_unique with (q := - m); lia.
  - apply Z.mod_unique with (q := - m - 1); lia.
Qed.

Lemma minute_boundary_fields (k : Z) :
  Clock.second (60000000 * k) = 0 /\ Clock.microsecond (60000000 * k) = 0.
Proof.
  unfold Clock.second, Clock.microsecond. split.
  - replace (60000000 * k) with (60 * k * 1000000) by lia.
    rewrite Z.div_mul by lia.
    replace (60 * k) with (k * 60) by lia. now apply Z.mod_mul.
  - replace (60000000 * k) with (60 * k * 1000000) by lia. now apply Z.mod_mul.
Qed.

(** The claim read on every start time fails within second :00: half a
    second past 12:00:00 the wait computed is minus half a second, while
    59.5 seconds remain until the next :00. *)
Lemma wait_at_second_zero_is_not_remaining :
  let now := Clock.at_time 12 0 0 500000 in
  microseconds_to_wait now = -500000 /\
  remaining_to_next_minute now = 59500000 /\
  microseconds_to_wait now <> remaining_to_next_minute now /\
  wait_time now = (-0.5)%float.
Proof. vm_compute. repeat split; discriminate. Qed.

(** C7, amended.  Started at any time other than within second :00 past
    the boundary, the wait is the time that remains until the next :00
    second, to the microsecond, and a punctual sleep returns on that
    boundary; from 12:00:37.250 the wait is 22.75 seconds and the trigger
    is 12:01:00.000; the pause after a collection is 55 seconds, less
    than a minute. *)
Theorem first_wait_reaches_next_minute (now : Z) :
  Clock.second now <> 0 \/ Clock.microsecond now = 0 ->
  let trigger := Clock.after_sleep now (microseconds_to_wait now) in
  microseconds_to_wait now = remaining_to_next_minute now /\
  0 <= microseconds_to_wait now < 60000000 /\
  wait_time now = PyNum.truediv (remaining_to_next_minute now) 1000000 /\
  Clock.second trigger = 0 /\ Clock.microsecond trigger = 0 /\
  trigger - now = remaining_to_next_minute now /\
  microseconds_to_wait (Clock.at_time 12 0 37 250000) = 22750000 /\
  wait_time (Clock.at_time 12 0 37 250000) = 22.75%float /\
  Clock.after_sleep (Clock.at_time 12 0 37 250000)
    (microseconds_to_wait (Clock.at_time 12 0 37 250000)) = Clock.at_time 12 1 0 0 /\
  0 < pause_after_collection < 60.
Proof.
  intros Hcase trigger.
  pose proof (wait_is_remaining now Hcase) as Hwait.
  assert (Hrange : 0 <= remaining_to_next_minute now < 60000000)
    by (apply Z.mod_pos_bound; lia).
  assert (Htrigger : trigger = now + remaining_to_next_minute now)
    by (unfold trigger, Clock.after_sleep; lia).
  assert (Hboundary : exists k, trigger = 60000000 * k).
  { exists (- ((- now) / 60000000)). rewrite Htrigger.
    unfold remaining_to_next_minute.
    pose proof (Z.div_mod (- now) 60000000 ltac:(lia)). lia. }
  destruct Hboundary as (k & Hk).
  destruct (minute_boundary_fields k) as [Hsec Hmicro].
  unfold wait_time. rewrite Hwait, Hk.
  repeat split; try assumption; try lia; reflexivity.
Qed.

Lemma first_wait_reaches_next_minute_witness :
  let now := Clock.at_time 12 0 37 250000 in
  let trigger := Clock.after_sleep now (microseconds_to_wait now) in
  microseconds_to_wait now = remaining_to_next_minute now /\
  0 <= microseconds_to_wait now < 60000000 /\
  wait_time now = PyNum.truediv (remaining_to_next_minute now) 1000000 /\
  Clock.second trigger = 0 /\ Clock.microsecond trigger = 0 /\
  trigger - now = remaining_to_next_minute now /\
  microseconds_to_wait (Clock.at_time 12 0 37 250000) = 22750000 /\
  wait_time (Clock.at_time 12 0 37 250000) = 22.75%float /\
  Clock.after_sleep (Clock.at_time 12 0 37 250000)
    (microseconds_to_wait (Clock.at_time 12 0 37 250000)) = Clock.at_time 12 1 0 0 /\
  0 < pause_after_collection < 60.
Proof.
  apply (first_wait_reaches_next_minute (Clock.at_time 12 0 37 250000)).
  left. vm_compute. discriminate.
Defined.

(** ** The negative wait as a float *)

Lemma negative_fractions_sound (count : positive) :
  Z.pos count < 4611686018427387904 ->
  let st := negative_fractions_ok count in
  Uint63.to_Z (fst st) = Z.pos count + 1 /\
  (snd st = true ->
   forall k, 1 <= k <= Z.pos count -> negative_fraction_ok (Uint63.of_Z k) = true).
Proof.
  unfold negative_fractions_ok.
  induction count as [| count IH] using Pos.peano_ind; intros Hbound.
  - cbn [Pos.iter fst snd]. split; [reflexivity |].
    intros Hok k Hk. replace k with 1 by lia.
    now apply andb_true_iff in Hok as [_ Hok].
  - rewrite Pos.iter_succ. cbn [fst snd].
    destruct IH as [Hfst Hsnd]; [lia |].
    set (st := Pos.iter _ _ count) in *.
    split.
    + rewrite Uint63.add_spec, Hfst.
      change (Uint63.to_Z 1) with 1.
      rewrite Z.mod_small; [lia |].
      change wB with 9223372036854775808. lia.
    + intros Hok k Hk. apply andb_true_iff in Hok as [Hrest Hlast].
      destruct (Z.eq_dec k (Z.pos count + 1)) as [-> | Hne].
      * rewrite <- Hfst, Uint63.of_to_Z. exact Hlast.
      * apply Hsnd; [exact Hrest | lia].
Qed.

Lemma all_negative_fractions_ok : snd (negative_fractions_ok 999999) = true.
Proof. vm_compute. reflexivity. Qed.

Lemma truediv_negative_fraction (us : Z) :
  0 < us < 1000000 ->
  PrimFloat.ltb (PyNum.truediv (- us) 1000000) 0%float = true /\
  PyNum.truediv (- us) 1000000 = (- PyNum.truediv us 1000000)%float.
Proof.
  intros Hus.
  assert (Hok : negative_fraction_ok (Uint63.of_Z us) = true).
  { apply (proj2 (negative_fractions_sound 999999 ltac:(lia)));
      [exact all_negative_fractions_ok | lia]. }
  assert (Hneg : PyNum.float_of_int (- us) = (- of_uint63 (Uint63.of_Z us))%float).
  { unfold PyNum.float_of_int, PyNum.float_of_magnitude.
    destruct (Z.ltb_spec (- us) 0); [| lia].
    rewrite Z.opp_involutive.
    destruct (Z.ltb_spec us 9223372036854775808); [reflexivity | lia]. }
  assert (Hpos : PyNum.float_of_int us = of_uint63 (Uint63.of_Z us)).
  { unfold PyNum.float_of_int, PyNum.float_of_magnitude.
    destruct (Z.ltb_spec us 0); [lia |].
    destruct (Z.ltb_spec us 9223372036854775808); [reflexivity | lia]. }
  unfold PyNum.truediv. rewrite Hneg, Hpos.
  change (PyNum.float_of_int 1000000) with (of_uint63 1000000).
  unfold negative_fraction_ok in Hok. cbv zeta in Hok.
  apply andb_true_iff in Hok as [Hlt Heq].
  split; [exact Hlt |].
  now apply FloatAxioms.Leibniz.eqb_spec in Heq.
Qed.

(** C10.  When the clock reads second 0 with a positive microsecond part,
    the wait is minus that part, hence negative; the sleep returns at
    once, and the collection is triggered at that same time, within the
    minute that has just begun. *)
Theorem wait_is_negative_in_second_zero (now : Z) :
  Clock.second now = 0 ->
  0 < Clock.microsecond now ->
  let trigger := Clock.after_sleep now (microseconds_to_wait now) in
  microseconds_to_wait now = - Clock.microsecond now /\
  microseconds_to_wait now < 0 /\
  wait_time now = (- PyNum.truediv (Clock.microsecond now) 1000000)%float /\
  PyNum.lt (wait_time now) 0 = true /\
  trigger = now /\
  Clock.replace_second0 trigger = now - Clock.microsecond now /\
  Clock.replace_second0 trigger <= now < Clock.replace_second0 trigger + 1000000.
Proof.
  intros Hsec Hmicro trigger.
  destruct (clock_fields now) as (m & Hnow & Hs & Hus).
  destruct (truediv_negative_fraction (Clock.microsecond now) ltac:(lia))
    as [Hnegative Hopposite].
  assert (Hwait : microseconds_to_wait now = - Clock.microsecond now).
  { unfold microseconds_to_wait.
    destruct (seconds_to_next_minute_cases now) as [[_ ->] | [Hnz _]]; lia. }
  assert (Htrigger : trigger = now)
    by (unfold trigger, Clock.after_sleep; lia).
  assert (Hminute : now mod 60000000 = Clock.microsecond now).
  { symmetry. apply Z.mod_unique with (q := m); lia. }
  unfold wait_time, PyNum.lt. rewrite Htrigger, Hwait.
  unfold Clock.replace_second0. rewrite Hminute.
  repeat split; try lia; assumption.
Qed.

Lemma wait_is_negative_in_second_zero_witness :
  let now := Clock.at_time 12 0 0 500000 in
  let trigger := Clock.after_sleep now (microseconds_to_wait now) in
  microseconds_to_wait now = - Clock.microsecond now /\
  microseconds_to_wait now < 0 /\
  wait_time now = (- PyNum.truediv (Clock.microsecond now) 1000000)%float /\
  PyNum.lt (wait_time now) 0 = true /\
  trigger = now /\
  Clock.replace_second0 trigger = now - Clock.microsecond now /\
  Clock.replace_second0 trigger <= now < Clock.replace_second0 trigger + 1000000.
Proof.
  apply (wait_is_negative_in_second_zero (Clock.at_time 12 0 0 500000)).
  - vm_compute. reflexivity.
  - vm_compute. reflexivity.
Defined.

(** The negative wait as the float handed to [asyncio.sleep]. *)
Example negative_wait_values :
  wait_time (Clock.at_time 12 0 0 500000) = (-0.5)%float /\
  wait_time (Clock.at_time 12 0 0 1) = (-1e-06)%float /\
  wait_time (Clock.at_time 12 0 0 999999) = (-0.999999)%float /\
  Clock.strftime_HMS (Clock.replace_second0 (Clock.at_time 12 0 0 500000)) = "12:00:00".
Proof. vm_compute. repeat split. Qed.

(** ** The scheduler's loop on a punctual clock *)

Lemma write_to_csv_ok timestamp (snap : gmap string (option float)) w :
  dom snap = list_to_set display_names ->
  fst (write_to_csv timestamp snap w) = Ok tt.
Proof.
  intros Hdom. unfold write_to_csv.
  destruct (None_in_values snap) eqn:Hnone; [reflexivity |].
  rewrite (traverse_total (cell snap) (shown snap)); [reflexivity |].
  intros name Hin. unfold cell, shown.
  assert (Hkey : name ∈ dom snap) by (rewrite Hdom; now apply elem_of_list_to_set).
  apply elem_of_dom in Hkey as [[x |] Hx]; rewrite Hx; [reflexivity |].
  assert (None_in_values snap = true) by (apply None_in_values_spec; eauto).
  congruence.
Qed.

Lemma collect_ok now w :
  dom (rates w) = list_to_set display_names ->
  fst (collect now w) = Ok tt.
Proof. intros Hdom. unfold collect, collect_with. now apply write_to_csv_ok. Qed.

Lemma after_pause_fields (k : Z) :
  Clock.second (60000000 * k + 55000000) = 55 /\
  remaining_to_next_minute (60000000 * k + 55000000) = 5000000.
Proof.
  unfold Clock.second, remaining_to_next_minute. split.
  - replace (60000000 * k + 55000000) with ((60 * k + 55) * 1000000) by lia.
    rewrite Z.div_mul by lia.
    symmetry. apply Z.mod_unique with (q := k); lia.
  - symmetry. apply Z.mod_unique with (q := - k - 1); lia.
Qed.

(** On a punctual clock, with the six instruments in the aggregate, the
    collections are triggered on consecutive minute boundaries: none is
    missed and none is doubled. *)
Lemma scheduler_triggers_every_minute (cycles : nat) : forall (now : Z) (w : world),
  Clock.second now <> 0 \/ Clock.microsecond now = 0 ->
  dom (rates w) = list_to_set display_names ->
  fst (scheduled_data_collection cycles now w) =
  map (fun i => now + remaining_to_next_minute now + 60000000 * Z.of_nat i) (seq 0 cycles).
Proof.
  induction cycles as [| n IH]; intros now w Hcase Hdom; [reflexivity |].
  cbn [scheduled_data_collection plan].
  pose proof (wait_is_remaining now Hcase) as Hwait.
  assert (Hrange : 0 <= remaining_to_next_minute now < 60000000)
    by (apply Z.mod_pos_bound; lia).
  set (trigger := Clock.after_sleep now (microseconds_to_wait now)).
  assert (Htrigger : trigger = now + remaining_to_next_minute now)
    by (unfold trigger, Clock.after_sleep; lia).
  assert (Hboundary : exists k, trigger = 60000000 * k).
  { exists (- ((- now) / 60000000)). rewrite Htrigger.
    unfold remaining_to_next_minute.
    pose proof (Z.div_mod (- now) 60000000 ltac:(lia)). lia. }
  destruct Hboundary as (k & Hk).
  set (w1 := log (LogWaiting (wait_time now)) w).
  pose proof (collect_ok trigger w1 Hdom) as Hok.
  pose proof (collect_rates trigger w1) as Hrates.
  destruct (collect trigger w1) as [[[] | e] w2]; [| discriminate].
  simpl in Hrates.
  set (resume := Clock.after_sleep trigger (pause_after_collection * 1000000)).
  assert (Hresume : resume = 60000000 * k + 55000000)
    by (unfold resume, Clock.after_sleep, pause_after_collection; lia).
  destruct (after_pause_fields k) as [Hsec Hrem].
  specialize (IH resume w2).
  destruct (scheduled_data_collection n resume w2) as [later w3].
  simpl in IH. rewrite IH.
  - cbn [fst seq map]. f_equal; [lia |].
    rewrite <- seq_shift, map_map. apply map_ext. intros i.
    rewrite Hresume, Hrem. lia.
  - left. rewrite Hresume, Hsec. discriminate.
  - now rewrite Hrates.
Qed.

(** ** Presentation *)

Lemma colors_in_band (rate : float) (b : band) :
  in_band rate b <-> colors rate = ("black", band_color b).
Proof.
  unfold in_band, colors.
  destruct (PyNum.gt rate 50), (PyNum.gt rate 30), (PyNum.gt rate 5),
    (PyNum.lt rate (-10)), b; simpl;
    split; intros H; try discriminate; try reflexivity;
    repeat split; try reflexivity; try (destruct_and? H; discriminate).
Qed.

Lemma in_band_total (rate : float) : exists b, in_band rate b.
Proof.
  unfold in_band.
  destruct (PyNum.gt rate 50); [now exists SevereHigh |].
  destruct (PyNum.gt rate 30); [now exists High |].
  destruct (PyNum.gt rate 5); [now exists Elevated |].
  destruct (PyNum.lt rate (-10)); [now exists SevereLow | now exists Neutral].
Qed.

Lemma write_to_csv_console timestamp snap w :
  console (snd (write_to_csv timestamp snap w)) = console w.
Proof.
  unfold write_to_csv.
  destruct (None_in_values snap); [reflexivity |].
  destruct (traverse (cell snap) display_names); reflexivity.
Qed.

Lemma collect_with_console palette now w :
  console (snd (collect_with palette now w)) = console w ++ render palette (snapshot w).
Proof. unfold collect_with. now rewrite write_to_csv_console. Qed.

Lemma write_to_csv_ignores_console timestamp snap w out :
  let a := write_to_csv timestamp snap w in
  let b := write_to_csv timestamp snap (print_all out w) in
  fst b = fst a /\ files (snd b) = files (snd a) /\
  rates (snd b) = rates (snd a) /\ logged (snd b) = logged (snd a).
Proof.
  unfold write_to_csv.
  destruct (None_in_values snap); [now repeat split |].
  destruct (traverse (cell snap) display_names); now repeat split.
Qed.

(** C8.  The colour shown for a rate is that of the one band the rate
    falls in when the tests above 50, above 30, above 5 and below -10 are
    tried in this order; every rate of a snapshot is printed in that
    colour; and whatever colours are chosen, the collection returns the
    same result, writes the same files and log and leaves the same
    aggregate. *)
Theorem band_decides_colour_only (rate : float) :
  (forall b, in_band rate b <-> colors rate = ("black", band_color b)) /\
  (exists b, in_band rate b) /\
  (forall b now w name,
     in_band rate b ->
     snapshot w !! name = Some (Some rate) ->
     Cprint (name +:+ " funding: " +:+ PyNum.format_fixed 2 rate +:+ "%")
            "black" (band_color b)
       ∈ console (snd (collect now w))) /\
  (forall palette now w,
     fst (collect_with palette now w) = fst (write_to_csv
        (Clock.strftime_HMS (Clock.replace_second0 now)) (snapshot w) w) /\
     files (snd (collect_with palette now w)) = files (snd (write_to_csv
        (Clock.strftime_HMS (Clock.replace_second0 now)) (snapshot w) w)) /\
     rates (snd (collect_with palette now w)) = rates w /\
     logged (snd (collect_with palette now w)) = logged (snd (write_to_csv
        (Clock.strftime_HMS (Clock.replace_second0 now)) (snapshot w) w))).
Proof.
  split; [intros b; apply colors_in_band |].
  split; [apply in_band_total |].
  split.
  - intros b now w name Hband Hname.
    unfold collect. rewrite collect_with_console.
    apply elem_of_app. right.
    apply list_elem_of_In, in_flat_map.
    exists (name, Some rate). split.
    + now apply list_elem_of_In, elem_of_map_to_list.
    + simpl. apply colors_in_band in Hband. rewrite Hband. now left.
  - intros palette now w. unfold collect_with.
    destruct (write_to_csv_ignores_console
                (Clock.strftime_HMS (Clock.replace_second0 now)) (snapshot w) w
                (render palette (snapshot w))) as (Hres & Hfiles & Hrates & Hlog).
    repeat split; try assumption.
    rewrite Hrates. apply write_to_csv_rates.
Qed.

(** ** The derived value *)

(** The claim's example read on floats fails: from the raw rate 0.0001
    the program stores the float just above the one nearest 10.95. *)
Lemma raw_rate_0001_is_not_stored_as_1095 :
  let w := snd (on_message Demo.json_decode Demo.float_of_str "BTC" "mark price 0.0001"
                  (boot ∅)) in
  Demo.float_of_str "0.0001" = Some 0.0001%float /\
  rates w !! "BTC" = Some (Some 10.950000000000001%float) /\
  rates w !! "BTC" <> Some (Some 10.95%float) /\
  yearly_funding_rate 0.0001 <> 10.95%float.
Proof.
  vm_compute. repeat split.
  - intros H.
    apply (f_equal (fun o => match o with
                             | Some (Some x) => PrimFloat.Leibniz.eqb x 10.95%float
                             | _ => true
                             end)) in H.
    vm_compute in H. discriminate.
  - intros H.
    apply (f_equal (fun x => PrimFloat.Leibniz.eqb x 10.95%float)) in H.
    vm_compute in H. discriminate.
Qed.

Lemma on_message_stores json_decode float_of_str display_name message w yearly :
  derive json_decode float_of_str message = Ok yearly ->
  rates (snd (on_message json_decode float_of_str display_name message w)) !! display_name
  = Some (Some yearly).
Proof.
  intros Hderive. unfold on_message. rewrite Hderive. simpl.
  apply lookup_insert_eq.
Qed.

(** C5, amended.  A frame whose field [r] converts to the float
    [funding_rate] stores [funding_rate * 3 * 365 * 100], computed in
    binary64, under the stream's display name; from the raw rate 0.0001
    that is 10.950000000000001, the float next above 10.95, which the file
    and the console show as 10.95%. *)
Theorem stored_rate_is_annualized
    (json_decode : string -> option jval) (float_of_str : string -> option float)
    (display_name message : string) (data r : jval) (funding_rate : float) (w : world) :
  json_decode message = Some data ->
  Json.getitem data "r" = Ok r ->
  py_float float_of_str r = Ok funding_rate ->
  rates (snd (on_message json_decode float_of_str display_name message w)) !! display_name
  = Some (Some (funding_rate * 3 * 365 * 100)%float) /\
  yearly_funding_rate 0.0001 = 10.950000000000001%float /\
  yearly_funding_rate 0.0001 = next_up 10.95 /\
  PyNum.format_fixed 2 (yearly_funding_rate 0.0001) +:+ "%" = "10.95%".
Proof.
  intros Hdecode Hfield Hfloat. split; [| now vm_compute].
  apply on_message_stores.
  unfold derive, json_loads. rewrite Hdecode. simpl.
  rewrite Hfield. simpl. rewrite Hfloat. reflexivity.
Qed.

Lemma stored_rate_is_annualized_witness :
  let w := boot ∅ in
  rates (snd (on_message Demo.json_decode Demo.float_of_str "ETH" "mark price 0.0005" w))
    !! "ETH"
  = Some (Some (0.0005 * 3 * 365 * 100)%float) /\
  yearly_funding_rate 0.0001 = 10.950000000000001%float /\
  yearly_funding_rate 0.0001 = next_up 10.95 /\
  PyNum.format_fixed 2 (yearly_funding_rate 0.0001) +:+ "%" = "10.95%".
Proof.
  apply (stored_rate_is_annualized Demo.json_decode Demo.float_of_str "ETH"
           "mark price 0.0005"
           (JObj [("e", JStr "markPriceUpdate"); ("r", JStr "0.0005")])
           (JStr "0.0005") 0.0005%float (boot ∅)).
  - reflexivity.
  - reflexivity.
  - reflexivity.
Defined.

End FundingProps.


(** * Properties of liqs.py *)

Module LiqsProps.
Import Liqs.

(** ** The reconnect delay *)

Lemma next_backoff_min (n : Z) :
  0 <= n ->
  next_backoff (Z.min (initial_backoff * 2 ^ n) max_backoff) =
  Z.min (initial_backoff * 2 ^ (n + 1)) max_backoff.
Proof.
  intros Hn. unfold next_backoff, initial_backoff, max_backoff.
  rewrite Z.pow_add_r by lia. change (2 ^ 1) with 2.
  assert (0 < 2 ^ n) by (apply Z.pow_pos_nonneg; lia).
  lia.
Qed.

Lemma backoff_after_closed_form (failures : nat) :
  backoff_after failures = Z.min (initial_backoff * 2 ^ Z.of_nat failures) max_backoff.
Proof.
  induction failures as [| n IH]; [reflexivity |].
  unfold backoff_after in *. simpl Nat.iter. rewrite IH.
  rewrite next_backoff_min by lia. f_equal. f_equal. f_equal. lia.
Qed.

Lemma iter_next_backoff_shift (i : nat) (b : Z) :
  Nat.iter i next_backoff (next_backoff b) = Nat.iter (S i) next_backoff b.
Proof. induction i as [| i IH]; [reflexivity |]. simpl. now rewrite IH. Qed.

Section Loop.

Variable json_decode : string -> option jval.
Variable float_of_str : string -> option float.
Variable int_of_str : string -> option Z.
Variable time_est_of : Z -> option string.

Local Abbreviation connection_loop :=
  (connection_loop json_decode float_of_str int_of_str time_est_of).
Local Abbreviation receive_loop :=
  (receive_loop json_decode float_of_str int_of_str time_est_of).

(** A run of refusals: each sleeps the current [backoff] with its jitter,
    then doubles it up to the ceiling. *)
Lemma refusals_run (uri : string) (times : list float) : forall (b : Z) (w : world),
  fst (connection_loop uri (map ConnectFails times) b w) =
  (imap (fun i t => Refused (Nat.iter i next_backoff b)
                            (jittered (Nat.iter i next_backoff b) t)) times,
   Nat.iter (length times) next_backoff b).
Proof.
  induction times as [| t times IH]; intros b w; [reflexivity |].
  simpl map. simpl connection_loop.
  specialize (IH (next_backoff b)
                 (log_message (ReconnectingIn b)
                    (log_message ConnectionError (log_message (Connecting uri) w)))).
  destruct (connection_loop uri (map ConnectFails times) (next_backoff b) _)
    as [[sessions b'] w'].
  simpl in IH. injection IH as -> ->. simpl.
  f_equal.
  - f_equal. apply imap_ext. intros i t' _. simpl.
    now rewrite iter_next_backoff_shift.
  - change (Nat.iter (length times) next_backoff (next_backoff b) =
            Nat.iter (S (length times)) next_backoff b).
    apply iter_next_backoff_shift.
Qed.

End Loop.

Lemma backoff_after_values (failures : nat) :
  backoff_after failures ∈ [1; 2; 4; 8; 16; 32; 60].
Proof.
  do 6 (destruct failures as [| failures];
        [vm_compute; repeat (first [apply list_elem_of_here | apply list_elem_of_further]) |]).
  replace (backoff_after (S (S (S (S (S (S failures))))))) with 60.
  - repeat (first [apply list_elem_of_here | apply list_elem_of_further]).
  - rewrite backoff_after_closed_form.
    unfold initial_backoff, max_backoff.
    replace (Z.of_nat (S (S (S (S (S (S failures))))))) with (6 + Z.of_nat failures) by lia.
    rewrite Z.pow_add_r by lia.
    assert (0 < 2 ^ Z.of_nat failures) by (apply Z.pow_pos_nonneg; lia).
    change (2 ^ 6) with 64. lia.
Qed.

(** The claim's bound on the delay fails for the time slept: after six
    refusals [backoff] has reached its ceiling of 60, and the seventh
    refusal, met half way through a second of the loop's clock, sleeps 63
    seconds. *)
Lemma jittered_sleep_exceeds_ceiling :
  let script := map ConnectFails (replicate 7 12345.5%float) in
  let sessions :=
    fst (fst (binance_liquidation Demo.json_decode Demo.float_of_str Demo.int_of_str
                Demo.time_est_of websocket_url script (boot ∅))) in
  last sessions = Some (Refused 60 63%float) /\
  PyNum.gt 63%float (PyNum.float_of_int max_backoff) = true /\
  ~ (forall failures loop_time,
       PyNum.gt (jittered (backoff_after failures) loop_time)
                (PyNum.float_of_int max_backoff) = false).
Proof.
  intros script sessions. split; [| split].
  - now vm_compute.
  - now vm_compute.
  - intros H. specialize (H 6%nat 12345.5%float). vm_compute in H. discriminate.
Qed.

(** C4, amended.  After [failures] consecutive refusals the announced
    delay [backoff] is min(1 * 2^failures, 60): it never exceeds the
    ceiling, never decreases along a run of refusals and starts at 1; the
    time slept is that delay plus a jitter of a tenth of it times the
    fraction of the loop's clock (so it equals the delay when that
    fraction is zero); every connection that opens sets the delay back to
    1, and when it closes the stream connects again without a sleep; the
    funding streams sleep a fixed 5 seconds, or 1 after a decode error,
    whatever the number of attempts. *)
Theorem backoff_doubles_up_to_ceiling (failures : nat) :
  backoff_after failures = Z.min (initial_backoff * 2 ^ Z.of_nat failures) max_backoff /\
  initial_backoff <= backoff_after failures <= max_backoff /\
  backoff_after failures <= backoff_after (S failures) /\
  backoff_after 0 = initial_backoff /\
  jittered (backoff_after failures) 0%float = PyNum.float_of_int (backoff_after failures) /\
  (forall json_decode float_of_str int_of_str time_est_of uri times w,
     fst (binance_liquidation json_decode float_of_str int_of_str time_est_of uri
            (map ConnectFails times) w) =
     (imap (fun i t => Refused (backoff_after i) (jittered (backoff_after i) t)) times,
      backoff_after (length times))) /\
  (forall json_decode float_of_str int_of_str time_est_of uri frames later b w,
     connection_loop json_decode float_of_str int_of_str time_est_of uri
       (Connected frames :: later) b w =
     connection_loop json_decode float_of_str int_of_str time_est_of uri
       (Connected frames :: later) initial_backoff w) /\
  (forall json_decode float_of_str int_of_str time_est_of uri frames later b w rest w',
     receive_loop json_decode float_of_str int_of_str time_est_of frames
       (log_message ConnectedOk (log_message (Connecting uri) w)) = (Broke, rest, w') ->
     connection_loop json_decode float_of_str int_of_str time_est_of uri
       (Connected frames :: later) b w =
     let '(sessions, b', w'') :=
       connection_loop json_decode float_of_str int_of_str time_est_of uri
         later initial_backoff w' in
     (Streamed Broke rest :: sessions, b', w'')) /\
  (forall symbol e w,
     fst (Funding.handle symbol e w) = match e with JSONDecodeError => 1 | _ => 5 end).
Proof.
  pose proof (backoff_after_closed_form failures) as Hn.
  pose proof (backoff_after_closed_form (S failures)) as HSn.
  assert (Hpow : 0 < 2 ^ Z.of_nat failures) by (apply Z.pow_pos_nonneg; lia).
  assert (Hstep : 2 ^ Z.of_nat (S failures) = 2 * 2 ^ Z.of_nat failures).
  { replace (Z.of_nat (S failures)) with (Z.of_nat failures + 1) by lia.
    rewrite Z.pow_add_r by lia. change (2 ^ 1) with 2. lia. }
  unfold initial_backoff, max_backoff in *.
  split; [exact Hn |].
  split; [lia |].
  split; [lia |].
  split; [reflexivity |].
  split.
  { pose proof (backoff_after_values failures) as Hin.
    repeat (apply elem_of_cons in Hin as [-> | Hin]; [now vm_compute |]).
    now apply elem_of_nil in Hin. }
  split.
  { intros. unfold binance_liquidation. apply refusals_run. }
  split; [reflexivity |].
  split.
  { intros decode to_float to_int to_time uri frames later b w rest w' Hloop.
    cbn [connection_loop]. now rewrite Hloop. }
  intros symbol e w. now destruct e.
Qed.

(** ** Decode failures *)

Lemma stays_open_bind {A B : Type} (c : pyres A) (k : A -> pyres B) :
  stays_open c -> (forall a, stays_open (k a)) -> stays_open (pybind c k).
Proof. intros Hc Hk. destruct c as [a | e]; [apply Hk | exact Hc]. Qed.

Lemma getitem_stays_open v k : stays_open (Json.getitem v k).
Proof.
  unfold Json.getitem. destruct v; try exact I.
  destruct (Json.assoc k fields); exact I.
Qed.

Lemma py_float_stays_open float_of_str v : stays_open (py_float float_of_str v).
Proof.
  destruct v; simpl; try exact I.
  - destruct (PrimFloat.is_infinity _); exact I.
  - destruct (float_of_str s); exact I.
Qed.

Lemma py_int_stays_open int_of_str v : stays_open (py_int int_of_str v).
Proof.
  destruct v; simpl; try exact I.
  - unfold Json.int_of_float. destruct (Prim2SF x); exact I.
  - destruct (int_of_str s); exact I.
Qed.

Create HintDb stays_open.
#[local] Hint Resolve getitem_stays_open py_float_stays_open py_int_stays_open
  : stays_open.

Section Frames.

Variable json_decode : string -> option jval.
Variable float_of_str : string -> option float.
Variable int_of_str : string -> option Z.
Variable time_est_of : Z -> option string.

Local Abbreviation decide := (decide float_of_str int_of_str time_est_of).
Local Abbreviation process_liquidation :=
  (process_liquidation float_of_str int_of_str time_est_of).
Local Abbreviation on_message :=
  (on_message json_decode float_of_str int_of_str time_est_of).
Local Abbreviation receive_loop :=
  (receive_loop json_decode float_of_str int_of_str time_est_of).

Lemma usd_size_of_stays_open order_data :
  stays_open (usd_size_of float_of_str order_data).
Proof.
  unfold usd_size_of.
  repeat (apply stays_open_bind; [auto with stays_open | intros ?]).
  exact I.
Qed.

Lemma decide_stays_open order_data : stays_open (decide order_data).
Proof.
  unfold Liqs.decide.
  apply stays_open_bind; [auto with stays_open | intros s].
  apply stays_open_bind; [destruct s; exact I | intros full_symbol].
  destruct (first_token _ _); [| exact I].
  repeat (apply stays_open_bind; [auto with stays_open | intros ?]).
  pose proof (usd_size_of_stays_open order_data) as Husd.
  destruct (usd_size_of float_of_str order_data) as [usd_size | e].
  - destruct (PyNum.lt usd_size min_usd_size); [exact I |].
    apply stays_open_bind; [| intros ?; exact I].
    unfold time_est. destruct (time_est_of _); exact I.
  - destruct e; try exact I. exact Husd.
Qed.

Lemma on_message_stays_open msg w : stays_open (fst (on_message msg w)).
Proof.
  unfold Liqs.on_message, json_loads.
  destruct (json_decode msg) as [data |]; [| exact I].
  destruct (Json.contains "o" data) as [[|] | e] eqn:Hcontains; simpl.
  - pose proof (getitem_stays_open data "o") as Hget.
    destruct (Json.getitem data "o") as [order_data | e]; [| exact Hget].
    unfold Liqs.process_liquidation.
    pose proof (decide_stays_open order_data) as Hdecide.
    destruct (decide order_data) as [[| symbol | usd | q] | e];
      simpl; try exact I. exact Hdecide.
  - exact I.
  - destruct data; simpl in Hcontains; try discriminate;
      injection Hcontains as <-; exact I.
Qed.

(** Only a closed connection ends the receive loop of the liquidation
    stream: without one, every frame is read. *)
Lemma receive_loop_reads_all (frames : list recv_event) : forall w,
  RecvClosed ∉ frames ->
  exists w', receive_loop frames w = (Waiting, [], w').
Proof.
  induction frames as [| frame rest IH]; intros w Hopen; [now exists w |].
  assert (Hrest : RecvClosed ∉ rest)
    by (intros Hin; apply Hopen; now apply list_elem_of_further).
  destruct frame as [msg | |]; simpl.
  - pose proof (on_message_stays_open msg w) as Hmsg.
    destruct (on_message msg w) as [[[] | e] w']; simpl in Hmsg.
    + now apply IH.
    + destruct e; try (now apply IH). now elim Hmsg.
  - elim Hopen. apply list_elem_of_here.
  - now apply IH.
Qed.

End Frames.

(** The claim read on the funding streams fails: a frame that does not
    decode ends the connection; the valid frame that follows on it is
    never read and the rate stays unset, and the stream sleeps a second
    before it connects again. *)
Lemma funding_decode_failure_ends_connection :
  let script := [Funding.Connected [Message "not json"; Message "mark price 0.0001"]] in
  let result :=
    Funding.continuous_funding_stream Demo.json_decode Demo.float_of_str
      "btcusdt" "BTC" script (Funding.boot ∅) in
  Demo.json_decode "not json" = None /\
  fst result = [Funding.Session (Funding.Raised JSONDecodeError)
                  [Message "mark price 0.0001"] (Some 1)] /\
  Funding.rates (snd result) !! "BTC" = Some None /\
  Funding.rates (snd (Funding.on_message Demo.json_decode Demo.float_of_str
                        "BTC" "mark price 0.0001" (Funding.boot ∅))) !! "BTC"
  = Some (Some 10.950000000000001%float).
Proof. vm_compute. repeat split. Qed.

(** C3, amended.  In the liquidation stream a frame that does not decode
    is logged and the loop goes on with the next frame of the same
    connection, and nothing but a closed connection ends that loop.  In a
    funding stream such a frame is logged and ends the connection: the
    frames left on it are not read, the task sleeps one second and goes
    on with the next connection. *)
Theorem decode_failure_is_survived
    (json_decode : string -> option jval) (float_of_str : string -> option float)
    (int_of_str : string -> option Z) (time_est_of : Z -> option string)
    (bad : string) :
  json_decode bad = None ->
  (forall rest w,
     receive_loop json_decode float_of_str int_of_str time_est_of (Message bad :: rest) w =
     receive_loop json_decode float_of_str int_of_str time_est_of rest
       (log_message (DecodeError (String.substring 0 100 bad)) w)) /\
  (forall frames w,
     RecvClosed ∉ frames ->
     exists w',
       receive_loop json_decode float_of_str int_of_str time_est_of frames w =
       (Waiting, [], w')) /\
  (forall symbol display_name rest later w,
     Funding.continuous_funding_stream json_decode float_of_str symbol display_name
       (Funding.Connected (Message bad :: rest) :: later) w =
     let url := Funding.websocket_url_base +:+ symbol +:+ "@markPrice" in
     let w1 := Funding.log (Funding.LogJsonDecodeError symbol)
                 (Funding.log (Funding.LogConnecting url) w) in
     let (sessions, w2) :=
       Funding.continuous_funding_stream json_decode float_of_str symbol display_name
         later w1 in
     (Funding.Session (Funding.Raised JSONDecodeError) rest (Some 1) :: sessions, w2)).
Proof.
  intros Hbad. split; [| split].
  - intros rest w. simpl. unfold on_message, json_loads. now rewrite Hbad.
  - intros frames w. apply receive_loop_reads_all.
  - intros symbol display_name rest later w. simpl.
    unfold Funding.on_message, Funding.derive, json_loads. rewrite Hbad.
    reflexivity.
Qed.

Lemma decode_failure_is_survived_witness :
  (forall rest w,
     receive_loop Demo.json_decode Demo.float_of_str Demo.int_of_str Demo.time_est_of
       (Message "not json" :: rest) w =
     receive_loop Demo.json_decode Demo.float_of_str Demo.int_of_str Demo.time_est_of rest
       (log_message (DecodeError (String.substring 0 100 "not json")) w)) /\
  (forall frames w,
     RecvClosed ∉ frames ->
     exists w',
       receive_loop Demo.json_decode Demo.float_of_str Demo.int_of_str Demo.time_est_of
         frames w = (Waiting, [], w')) /\
  (forall symbol display_name rest later w,
     Funding.continuous_funding_stream Demo.json_decode Demo.float_of_str symbol display_name
       (Funding.Connected (Message "not json" :: rest) :: later) w =
     let url := Funding.websocket_url_base +:+ symbol +:+ "@markPrice" in
     let w1 := Funding.log (Funding.LogJsonDecodeError symbol)
                 (Funding.log (Funding.LogConnecting url) w) in
     let (sessions, w2) :=
       Funding.continuous_funding_stream Demo.json_decode Demo.float_of_str symbol
         display_name later w1 in
     (Funding.Session (Funding.Raised JSONDecodeError) rest (Some 1) :: sessions, w2)).
Proof.
  apply (decode_failure_is_survived Demo.json_decode Demo.float_of_str Demo.int_of_str
           Demo.time_est_of "not json").
  reflexivity.
Defined.

(** ** The filter *)

Lemma first_token_some (symbol : string) (tokens : list string) (token : string) :
  first_token symbol tokens = Some token <->
  exists pre post,
    tokens = pre ++ token :: post /\
    PyStr.startswith symbol token = true /\
    Forall (fun t => PyStr.startswith symbol t = false) pre.
Proof.
  induction tokens as [| t rest IH]; simpl.
  - split; [discriminate |]. intros (pre & post & Heq & _). now destruct pre.
  - destruct (PyStr.startswith symbol t) eqn:Ht.
    + split.
      * intros [= <-]. exists [], rest. now repeat split.
      * intros (pre & post & Heq & Htoken & Hpre).
        destruct pre as [| t' pre]; simpl in Heq; injection Heq as -> ->.
        -- reflexivity.
        -- inversion Hpre; subst. congruence.
    + rewrite IH. split.
      * intros (pre & post & -> & Htoken & Hpre).
        exists (t :: pre), post. repeat split; [assumption | now constructor].
      * intros (pre & post & Heq & Htoken & Hpre).
        destruct pre as [| t' pre]; simpl in Heq; injection Heq as -> ->.
        -- congruence.
        -- inversion Hpre; subst. now exists pre, post.
Qed.

Lemma first_token_none (symbol : string) (tokens : list string) :
  first_token symbol tokens = None <->
  Forall (fun t => PyStr.startswith symbol t = false) tokens.
Proof.
  induction tokens as [| t rest IH]; simpl.
  - split; [constructor | reflexivity].
  - destruct (PyStr.startswith symbol t) eqn:Ht.
    + split; [discriminate |]. intros H. inversion H; subst. congruence.
    + rewrite IH. split; [now constructor | intros H; now inversion H].
Qed.

Lemma append_cons (c : ascii) (s t : string) : String c s +:+ t = String c (s +:+ t).
Proof. reflexivity. Qed.

Lemma append_nil (t : string) : "" +:+ t = t.
Proof. reflexivity. Qed.

Lemma prefix_nil (s : string) : String.prefix "" s = true.
Proof. now destruct s. Qed.

Lemma prefix_cons (a b : ascii) (s1 s2 : string) :
  String.prefix (String a s1) (String b s2) =
  if Ascii.eqb a b then String.prefix s1 s2 else false.
Proof.
  cbn [String.prefix].
  destruct (ascii_dec a b) as [-> | Hne].
  - now rewrite Ascii.eqb_refl.
  - apply Ascii.eqb_neq in Hne. now rewrite Hne.
Qed.

(** A symbol that ends in USDT and holds no other occurrence of it loses
    exactly that suffix. *)
Lemma prefix_USDT_app (s : string) :
  s <> "" ->
  String.prefix "USDT" s = false ->
  String.prefix "USDT" (s +:+ "USDT") = false.
Proof.
  intros Hne Hs.
  destruct s as [| c1 [| c2 [| c3 [| c4 s]]]]; [congruence | | | |];
    rewrite ?append_cons, ?append_nil; rewrite ?prefix_cons, ?prefix_nil in *.
  - destruct (Ascii.eqb "U" c1); reflexivity.
  - destruct (Ascii.eqb "U" c1); [| reflexivity].
    destruct (Ascii.eqb "S" c2); reflexivity.
  - destruct (Ascii.eqb "U" c1); [| reflexivity].
    destruct (Ascii.eqb "S" c2); [| reflexivity].
    destruct (Ascii.eqb "D" c3); reflexivity.
  - exact Hs.
Qed.

Lemma replace_strips_suffix (base : string) :
  PyStr.contains base "USDT" = false ->
  PyStr.replace (base +:+ "USDT") "USDT" "" = base.
Proof.
  unfold PyStr.replace.
  induction base as [| c base IH]; intros Hfree; [reflexivity |].
  cbn [PyStr.contains] in Hfree. apply orb_false_iff in Hfree as [Hhead Hrest].
  rewrite append_cons. cbn [PyStr.replace_from].
  rewrite <- append_cons.
  rewrite prefix_USDT_app by (assumption || discriminate).
  f_equal. now apply IH.
Qed.

Section Events.

Variable float_of_str : string -> option float.
Variable int_of_str : string -> option Z.
Variable time_est_of : Z -> option string.

Variable fields : list (string * jval).
Variable full_symbol : string.
Variables side z p t : jval.
Variables filled_quantity price : float.
Variable timestamp : Z.
Variable shown : string.

Hypothesis field_s : Json.assoc "s" fields = Some (JStr full_symbol).
Hypothesis field_S : Json.assoc "S" fields = Some side.
Hypothesis field_T : Json.assoc "T" fields = Some t.
Hypothesis field_z : Json.assoc "z" fields = Some z.
Hypothesis field_p : Json.assoc "p" fields = Some p.
Hypothesis int_T : py_int int_of_str t = Ok timestamp.
Hypothesis float_z : py_float float_of_str z = Ok filled_quantity.
Hypothesis float_p : py_float float_of_str p = Ok price.
Hypothesis time_T : time_est_of timestamp = Some shown.

(** What the filter decides on an event that carries its fields. *)
Lemma decide_wellformed :
  let symbol := PyStr.replace full_symbol "USDT" "" in
  let usd_size := (filled_quantity * price)%float in
  decide float_of_str int_of_str time_est_of (JObj fields) =
  Ok match first_token symbol TOKENS_TO_WATCH with
     | None => Unwatched
     | Some base_token =>
         if PyNum.lt usd_size min_usd_size then BelowThreshold usd_size
         else Qualifies (Qualified fields full_symbol base_token side usd_size shown)
     end.
Proof.
  intros symbol usd_size. unfold decide, usd_size_of, Json.getitem, time_est.
  rewrite field_s. cbn [pybind as_str]. fold symbol.
  destruct (first_token symbol TOKENS_TO_WATCH) as [base_token |]; [| reflexivity].
  rewrite field_S, field_T. cbn [pybind]. rewrite int_T. cbn [pybind].
  rewrite field_z. cbn [pybind]. rewrite float_z. cbn [pybind].
  rewrite field_p. cbn [pybind]. rewrite float_p. cbn [pybind]. fold usd_size.
  destruct (PyNum.lt usd_size min_usd_size); [reflexivity |].
  rewrite time_T. reflexivity.
Qed.

End Events.

(** C6.  The comment of line 66 says that the USDT suffix is removed
    from the symbol; line 68 removes USDT wherever it occurs.  On the
    symbol USDTBTCUSDT the two differ: without its suffix the symbol is
    USDTBTC, which starts with no token of the watch list, so that the
    event would be discarded; the program removes both occurrences, finds
    BTC, and writes the event to the main file and to the file of BTC. *)
Lemma inner_quote_text_is_removed_too :
  let order_data := Demo.order "USDTBTCUSDT" "SELL" "0.5" "90000" in
  let w := snd (process_liquidation Demo.float_of_str Demo.int_of_str Demo.time_est_of
                  order_data (boot ∅)) in
  PyStr.removesuffix "USDTBTCUSDT" "USDT" = "USDTBTC" /\
  first_token (PyStr.removesuffix "USDTBTCUSDT" "USDT") TOKENS_TO_WATCH = None /\
  first_token (PyStr.replace "USDTBTCUSDT" "USDT" "") TOKENS_TO_WATCH = Some "BTC" /\
  length (data_rows (token_file "BTC") w) = 1%nat /\
  length (data_rows main_file w) = 1%nat.
Proof. vm_compute. repeat split. Qed.

(** X19.  What [process_liquidation] does with an event that carries
    its fields: every occurrence of USDT is removed from the symbol,
    which for a symbol that ends in USDT and holds no other occurrence
    is its suffix, and the result is matched against the watch list by
    prefix, the first match in list order winning; with no match nothing
    is done; the notional is the filled quantity times the price; below
    3000 nothing is done; otherwise one line is printed, L LIQ when the
    side is SELL and S LIQ when it is not, in bold above 10000, one row
    is appended to the main file and the same row with the local time
    to the file of the matched token. *)
Theorem liquidation_is_filtered_and_fanned_out
    (float_of_str : string -> option float) (int_of_str : string -> option Z)
    (time_est_of : Z -> option string)
    (fields : list (string * jval)) (full_symbol : string) (side z p t : jval)
    (filled_quantity price : float) (timestamp : Z) (shown : string) (w : world) :
  Json.assoc "s" fields = Some (JStr full_symbol) ->
  Json.assoc "S" fields = Some side ->
  Json.assoc "T" fields = Some t ->
  Json.assoc "z" fields = Some z ->
  Json.assoc "p" fields = Some p ->
  py_int int_of_str t = Ok timestamp ->
  py_float float_of_str z = Ok filled_quantity ->
  py_float float_of_str p = Ok price ->
  time_est_of timestamp = Some shown ->
  let symbol := PyStr.replace full_symbol "USDT" "" in
  let usd_size := (filled_quantity * price)%float in
  let result := process_liquidation float_of_str int_of_str time_est_of (JObj fields) w in
  fst result = Ok tt /\
  match first_token symbol TOKENS_TO_WATCH with
  | None =>
      Forall (fun token => PyStr.startswith symbol token = false) TOKENS_TO_WATCH /\
      snd result = w
  | Some base_token =>
      (exists pre post,
         TOKENS_TO_WATCH = pre ++ base_token :: post /\
         PyStr.startswith symbol base_token = true /\
         Forall (fun token => PyStr.startswith symbol token = false) pre) /\
      if PyNum.lt usd_size 3000
      then snd result = w
      else
        let row :=
          JStr full_symbol ::
          map (fun k => Json.get fields k (JStr ""))
              ["S"; "o"; "f"; "q"; "p"; "ap"; "X"; "l"; "z"; "T"] ++
          [JReal usd_size] in
        let label := if Json.eq_str side "SELL" then "L LIQ" else "S LIQ" in
        files (snd result) =
          Fs.append (token_file base_token) (row ++ [JStr shown])
            (Fs.append main_file row (files w)) /\
        console (snd result) =
          console w ++
          [Cprint (label +:+ " " +:+ base_token +:+ " " +:+ shown +:+ " $" +:+
                   PyNum.format_fixed 0 usd_size)
                  "white" (if Json.eq_str side "SELL" then "on_green" else "on_red")
                  (if PyNum.gt usd_size 10000 then ["bold"] else []);
           Print ""] /\
        log_lines (snd result) = log_lines w
  end /\
  (forall base,
     PyStr.contains base "USDT" = false ->
     PyStr.replace (base +:+ "USDT") "USDT" "" = base) /\
  (let big := Demo.order "BTCUSDT" "SELL" "0.5" "90000" in
   let small := Demo.order "BTCUSDT" "SELL" "0.01" "90000" in
   let run order_data :=
     process_liquidation Demo.float_of_str Demo.int_of_str Demo.time_est_of
       order_data (boot ∅) in
   let row :=
     [JStr "BTCUSDT"; JStr "SELL"; JStr "LIMIT"; JStr "IOC"; JStr "0.5"; JStr "90000";
      JStr "90000"; JStr "FILLED"; JStr "0.5"; JStr "0.5"; JInt 1568014460893;
      JReal 45000] in
   usd_size_of Demo.float_of_str big = Ok 45000%float /\
   data_rows main_file (snd (run big)) = [row] /\
   data_rows (token_file "BTC") (snd (run big)) = [row ++ [JStr "03:34:20"]] /\
   console (snd (run big)) =
     [Cprint "L LIQ BTC 03:34:20 $45000" "white" "on_green" ["bold"]; Print ""] /\
   usd_size_of Demo.float_of_str small = Ok 900%float /\
   run small = (Ok tt, boot ∅)).
Proof.
  intros field_s field_S field_T field_z field_p int_T float_z float_p time_T.
  intros symbol usd_size result.
  pose proof (decide_wellformed float_of_str int_of_str time_est_of fields full_symbol
                side z p t filled_quantity price timestamp shown
                field_s field_S field_T field_z field_p int_T float_z float_p time_T)
    as Hdecide.
  cbv zeta in Hdecide. fold symbol usd_size in Hdecide.
  change min_usd_size with 3000%float in Hdecide.
  subst result. unfold process_liquidation. rewrite Hdecide. clear Hdecide.
  split; [| split; [| split]].
  - destruct (first_token symbol TOKENS_TO_WATCH); [| reflexivity].
    now destruct (PyNum.lt usd_size 3000).
  - destruct (first_token symbol TOKENS_TO_WATCH) as [base_token |] eqn:Htoken.
    + apply first_token_some in Htoken. split; [exact Htoken |].
      destruct (PyNum.lt usd_size 3000); [reflexivity |].
      unfold persist, announce, msg_values, liquidation_type, bold_usd_size.
      cbn [snd files console log_lines set_files show q_fields q_full_symbol
           q_base_token q_side q_usd_size q_time_est].
      repeat split. now destruct (Json.eq_str side "SELL").
    + apply first_token_none in Htoken. now split.
  - exact replace_strips_suffix.
  - cbv zeta. repeat split; reflexivity.
Qed.

Lemma liquidation_is_filtered_and_fanned_out_witness :
  let fields :=
    [("s", JStr "ETHUSDT"); ("S", JStr "BUY"); ("o", JStr "LIMIT"); ("f", JStr "IOC");
     ("q", JStr "0.5"); ("p", JStr "90000"); ("ap", JStr "90000"); ("X", JStr "FILLED");
     ("l", JStr "0.5"); ("z", JStr "0.5"); ("T", JInt 1568014460893)] in
  let result :=
    process_liquidation Demo.float_of_str Demo.int_of_str Demo.time_est_of
      (JObj fields) (boot ∅) in
  let row :=
    [JStr "ETHUSDT"; JStr "BUY"; JStr "LIMIT"; JStr "IOC"; JStr "0.5"; JStr "90000";
     JStr "90000"; JStr "FILLED"; JStr "0.5"; JStr "0.5"; JInt 1568014460893;
     JReal 45000] in
  fst result = Ok tt /\
  files (snd result) =
    Fs.append (token_file "ETH") (row ++ [JStr "03:34:20"])
      (Fs.append main_file row (files (boot ∅))) /\
  console (snd result) =
    [Cprint "S LIQ ETH 03:34:20 $45000" "white" "on_red" ["bold"]; Print ""].
Proof.
  intros fields result row.
  pose proof (liquidation_is_filtered_and_fanned_out
                Demo.float_of_str Demo.int_of_str Demo.time_est_of fields "ETHUSDT"
                (JStr "BUY") (JStr "0.5") (JStr "90000") (JInt 1568014460893)
                0.5%float 90000%float 1568014460893 "03:34:20" (boot ∅)
                eq_refl eq_refl eq_refl eq_refl eq_refl eq_refl eq_refl eq_refl eq_refl)
    as (Hres & Hcase & _).
  destruct Hcase as (_ & Hfiles & Hconsole & _).
  exact (conj Hres (conj Hfiles Hconsole)).
Defined.

End LiqsProps.

(** * Two runs from start to finish *)

Module Scenarios.

(** The funding monitor: the file is created with its header; a
    collection before every stream has reported writes nothing; once all
    six have, the collection at 12:01:00 writes one row. *)
Example funding_run :
  let w0 := Funding.setup_csv_file (Funding.boot ∅) in
  let early :=
    Funding.run Demo.json_decode Demo.float_of_str
      [Funding.EvMessage ("btcusdt", "BTC") "mark price 0.0001";
       Funding.EvCollect (Clock.at_time 12 0 0 0)] w0 in
  let late :=
    Funding.run Demo.json_decode Demo.float_of_str
      (map (fun stream => Funding.EvMessage stream "mark price 0.0001") Funding.streams
       ++ [Funding.EvCollect (Clock.at_time 12 1 0 250)]) early in
  Fs.rows Funding.CSV_FILENAME (Funding.files early) =
    [["Time (UTC)"; "BTC"; "ETH"; "SOL"; "XRP"; "BNB"; "DOGE"]] /\
  Fs.rows Funding.CSV_FILENAME (Funding.files late) =
    [["Time (UTC)"; "BTC"; "ETH"; "SOL"; "XRP"; "BNB"; "DOGE"];
     ["12:01:00"; "10.95%"; "10.95%"; "10.95%"; "10.95%"; "10.95%"; "10.95%"]].
Proof. vm_compute. split; reflexivity. Qed.

(** The liquidation stream: a refused connection, then a connection on
    which a frame that does not decode is followed by a liquidation of
    45000 dollars and one of 900, and which then closes. *)
Example liquidation_run :
  let script :=
    [Liqs.ConnectFails 100.25%float;
     Liqs.Connected [Message "not json";
                     Message "force order BTCUSDT SELL 0.5 90000";
                     Message "force order BTCUSDT SELL 0.01 90000";
                     RecvClosed]] in
  let result :=
    Liqs.binance_liquidation Demo.json_decode Demo.float_of_str Demo.int_of_str
      Demo.time_est_of Liqs.websocket_url script (Liqs.boot ∅) in
  let row :=
    [JStr "BTCUSDT"; JStr "SELL"; JStr "LIMIT"; JStr "IOC"; JStr "0.5"; JStr "90000";
     JStr "90000"; JStr "FILLED"; JStr "0.5"; JStr "0.5"; JInt 1568014460893;
     JReal 45000] in
  fst (fst result) = [Liqs.Refused 1 1.025%float; Liqs.Streamed Liqs.Broke []] /\
  snd (fst result) = 1 /\
  Liqs.data_rows Liqs.main_file (snd result) = [row] /\
  Liqs.data_rows (Liqs.token_file "BTC") (snd result) = [row ++ [JStr "03:34:20"]] /\
  Liqs.data_rows (Liqs.token_file "ETH") (snd result) = [] /\
  Liqs.log_lines (snd result) =
    [Liqs.Connecting Liqs.websocket_url; Liqs.ConnectionError; Liqs.ReconnectingIn 1;
     Liqs.Connecting Liqs.websocket_url; Liqs.ConnectedOk; Liqs.DecodeError "not json";
     Liqs.ClosedUnexpectedly].
Proof. vm_compute. repeat split. Qed.

End Scenarios.


(** * Further properties of funding.py *)

Module FundingExtra.
Import Funding FundingRun.

(** ** The file and its header *)

(** X1.  [setup_csv_file] leaves a file that exists exactly as it is,
    whatever it holds; a missing file is created with the header row
    alone, which is logged; no other file, and no rate, is touched, and
    a second call changes nothing. *)
Theorem setup_csv_file_keeps_existing_file (w : world) :
  (forall rows, files w !! CSV_FILENAME = Some rows -> setup_csv_file w = w) /\
  (files w !! CSV_FILENAME = None ->
     Fs.rows CSV_FILENAME (files (setup_csv_file w)) = ["Time (UTC)" :: display_names] /\
     logged (setup_csv_file w) = logged w ++ [LogCreatedCsv]) /\
  (forall path, path <> CSV_FILENAME ->
     files (setup_csv_file w) !! path = files w !! path) /\
  rates (setup_csv_file w) = rates w /\
  setup_csv_file (setup_csv_file w) = setup_csv_file w.
Proof.
  unfold setup_csv_file.
  destruct (files w !! CSV_FILENAME) as [rows |] eqn:Hfile.
  - split; [reflexivity |].
    split; [discriminate |].
    split; [reflexivity |].
    split; [reflexivity |].
    now rewrite Hfile.
  - split; [discriminate |].
    split.
    { intros _. split; [| reflexivity].
      unfold Fs.rows. simpl. now rewrite lookup_insert_eq. }
    split.
    { intros path Hpath. simpl. now apply lookup_insert_ne. }
    split; [reflexivity |].
    simpl. now rewrite lookup_insert_eq.
Qed.

(** ** Complete and incomplete snapshots *)

Lemma complete_spec (snap : gmap string (option float)) :
  complete snap = true <->
  forall name, name ∈ display_names -> exists x, snap !! name = Some (Some x).
Proof.
  unfold complete. rewrite forallb_forall. split.
  - intros Hall name Hin. apply list_elem_of_In in Hin.
    specialize (Hall name Hin). unfold has_rate in Hall.
    destruct (snap !! name) as [[x |] |]; try discriminate. now exists x.
  - intros Hall name Hin. apply list_elem_of_In in Hin.
    destruct (Hall name Hin) as (x & Hx). unfold has_rate. now rewrite Hx.
Qed.

Lemma complete_no_None (snap : gmap string (option float)) :
  dom snap = list_to_set display_names ->
  complete snap = true ->
  None_in_values snap = false.
Proof.
  intros Hdom Hall.
  destruct (None_in_values snap) eqn:Hnone; [| reflexivity].
  apply FundingProps.None_in_values_spec in Hnone as (name & Hname).
  assert (Hin : name ∈ dom snap) by (apply elem_of_dom; eauto).
  rewrite Hdom in Hin. apply elem_of_list_to_set in Hin.
  destruct (proj1 (complete_spec snap) Hall name Hin) as (x & Hx). congruence.
Qed.

Lemma write_to_csv_complete timestamp (snap : gmap string (option float)) w :
  dom snap = list_to_set display_names ->
  complete snap = true ->
  write_to_csv timestamp snap w =
  let row := timestamp :: map (shown snap) display_names in
  (Ok tt, log (LogWrote row) (set_files (Fs.append CSV_FILENAME row (files w)) w)).
Proof.
  intros Hdom Hall. unfold write_to_csv.
  rewrite complete_no_None by assumption.
  rewrite (FundingProps.traverse_total (cell snap) (shown snap)); [reflexivity |].
  intros name Hin. unfold cell, shown.
  now destruct (proj1 (complete_spec snap) Hall name Hin) as (x & ->).
Qed.

Lemma collect_complete now w :
  dom (rates w) = list_to_set display_names ->
  complete (rates w) = true ->
  collect now w =
  let row := Clock.strftime_HMS (Clock.replace_second0 now)
             :: map (shown (rates w)) display_names in
  let w1 := print_all (render colors (rates w)) w in
  (Ok tt, log (LogWrote row) (set_files (Fs.append CSV_FILENAME row (files w)) w1)).
Proof.
  intros Hdom Hall. unfold collect, collect_with, snapshot.
  now rewrite write_to_csv_complete.
Qed.

Lemma current_rates_unset (name : string) :
  name ∈ display_names -> current_rates !! name = Some None.
Proof.
  intros Hname. rewrite Checks.display_names_value in Hname.
  repeat (apply elem_of_cons in Hname as [-> | Hname]; [now vm_compute |]).
  now apply elem_of_nil in Hname.
Qed.

Lemma row_length timestamp (snap : gmap string (option float)) :
  length (timestamp :: map (shown snap) display_names) = 7%nat.
Proof. cbn [length]. now rewrite length_map. Qed.

Section Traces.

Variable json_decode : string -> option jval.
Variable float_of_str : string -> option float.

Local Abbreviation step := (step json_decode float_of_str).
Local Abbreviation run := (run json_decode float_of_str).
Local Abbreviation last_update := (last_update json_decode float_of_str).
Local Abbreviation on_message := (on_message json_decode float_of_str).
Local Abbreviation derive := (derive json_decode float_of_str).

Lemma handle_logs symbol e w :
  exists r, snd (handle symbol e w) = log r w.
Proof. destruct e; simpl; eauto. Qed.

Lemma step_message_files w stream message :
  files (step w (EvMessage stream message)) = files w.
Proof.
  destruct stream as [symbol display_name]. simpl. unfold Funding.on_message.
  destruct (derive message) as [yearly | e]; [reflexivity |].
  destruct (handle_logs symbol e w) as (r & ->). reflexivity.
Qed.

Lemma step_complete w ev :
  complete (rates w) = true -> complete (rates (step w ev)) = true.
Proof.
  rewrite !complete_spec. intros Hall name Hin.
  rewrite FundingProps.step_lookup.
  destruct (stored json_decode float_of_str name ev) as [v |]; [now exists v |].
  now apply Hall.
Qed.

(** X2.  Once every instrument has a rate, each time the scheduler
    resumes it appends exactly one row of seven cells to the file, and
    nothing else ever writes to it: along any run of the tasks the rows
    written are as many as the collections. *)
Theorem every_collection_writes_once_complete (evs : list event) (w : world) :
  Forall from_task evs ->
  dom (rates w) = list_to_set display_names ->
  complete (rates w) = true ->
  exists new,
    Fs.rows CSV_FILENAME (files (run evs w)) = Fs.rows CSV_FILENAME (files w) ++ new /\
    length new = collections evs /\
    Forall (fun row => length row = 7%nat) new.
Proof.
  revert w. induction evs as [| ev later IH]; intros w Htasks Hdom Hall.
  - exists []. now rewrite app_nil_r.
  - inversion Htasks as [| ? ? Hev Hlater]; subst.
    rewrite FundingProps.run_cons.
    destruct (IH (step w ev) Hlater
                (FundingProps.step_dom json_decode float_of_str w ev Hev Hdom)
                (step_complete w ev Hall)) as (new & Hrows & Hlen & Hwidth).
    destruct ev as [stream message | now].
    + exists new. rewrite Hrows, step_message_files. now repeat split.
    + exists ((Clock.strftime_HMS (Clock.replace_second0 now)
               :: map (shown (rates w)) display_names) :: new).
      rewrite Hrows. cbn [Funding.step]. rewrite collect_complete by assumption.
      cbn [snd files log set_files print_all].
      rewrite FundingProps.rows_append, <- app_assoc. cbn [app collections length].
      repeat split; [now rewrite Hlen |].
      constructor; [apply row_length | exact Hwidth].
Qed.

Lemma last_update_cons_None name ev later :
  last_update name (ev :: later) = None ->
  stored json_decode float_of_str name ev = None /\ last_update name later = None.
Proof.
  simpl. destruct (last_update name later); [discriminate | now split].
Qed.

Lemma quiet_instrument_blocks_writes (evs : list event) : forall (w : world) (name : string),
  rates w !! name = Some None ->
  last_update name evs = None ->
  files (run evs w) = files w.
Proof.
  induction evs as [| ev later IH]; intros w name Hunset Hquiet; [reflexivity |].
  apply last_update_cons_None in Hquiet as [Hev Hlater].
  rewrite FundingProps.run_cons.
  rewrite (IH (step w ev) name); [| | exact Hlater].
  - destruct ev as [stream message | now]; [apply step_message_files |].
    cbn [Funding.step]. unfold collect, collect_with, write_to_csv, snapshot.
    assert (Hnone : None_in_values (rates w) = true)
      by (apply FundingProps.None_in_values_spec; eauto).
    cbn [rates print_all]. now rewrite Hnone.
  - rewrite FundingProps.step_lookup, Hev. exact Hunset.
Qed.

(** X3.  As long as one of the six instruments has not delivered a valid
    frame, no collection writes anything: the files are those the
    program started with after [setup_csv_file], however many frames the
    other streams delivered and however often the scheduler ran. *)
Theorem no_row_before_every_stream_reports
    (evs : list event) (disk : gmap string (list (list string))) (name : string) :
  name ∈ display_names ->
  last_update name evs = None ->
  files (run evs (setup_csv_file (boot disk))) = files (setup_csv_file (boot disk)).
Proof.
  intros Hname Hquiet.
  apply quiet_instrument_blocks_writes with name; [| exact Hquiet].
  replace (rates (setup_csv_file (boot disk))) with current_rates.
  - now apply current_rates_unset.
  - unfold setup_csv_file. now destruct (files (boot disk) !! CSV_FILENAME).
Qed.

End Traces.

Lemma every_collection_writes_once_complete_witness :
  let evs := [EvCollect (Clock.at_time 12 1 0 0);
              EvMessage ("ethusdt", "ETH") "mark price 0.0005";
              EvCollect (Clock.at_time 12 2 0 0)] in
  exists new,
    Fs.rows CSV_FILENAME (files (Funding.run Demo.json_decode Demo.float_of_str evs
                                   Samples.all_reported)) =
    Fs.rows CSV_FILENAME (files Samples.all_reported) ++ new /\
    length new = collections evs /\
    Forall (fun row => length row = 7%nat) new.
Proof.
  apply (every_collection_writes_once_complete Demo.json_decode Demo.float_of_str
           [EvCollect (Clock.at_time 12 1 0 0);
            EvMessage ("ethusdt", "ETH") "mark price 0.0005";
            EvCollect (Clock.at_time 12 2 0 0)] Samples.all_reported).
  - repeat constructor.
  - vm_compute. reflexivity.
  - vm_compute. reflexivity.
Defined.

Lemma no_row_before_every_stream_reports_witness :
  let evs := [EvMessage ("btcusdt", "BTC") "mark price 0.0001";
              EvCollect (Clock.at_time 12 1 0 0);
              EvMessage ("ethusdt", "ETH") "not json";
              EvCollect (Clock.at_time 12 2 0 0)] in
  files (Funding.run Demo.json_decode Demo.float_of_str evs (setup_csv_file (boot ∅))) =
  files (setup_csv_file (boot ∅)).
Proof.
  apply (no_row_before_every_stream_reports Demo.json_decode Demo.float_of_str
           [EvMessage ("btcusdt", "BTC") "mark price 0.0001";
            EvCollect (Clock.at_time 12 1 0 0);
            EvMessage ("ethusdt", "ETH") "not json";
            EvCollect (Clock.at_time 12 2 0 0)] ∅ "ETH").
  - vm_compute. repeat constructor.
  - vm_compute. reflexivity.
Defined.

(** ** The scheduler on a punctual clock *)

Lemma replace_second0_boundary (k : Z) :
  Clock.replace_second0 (60000000 * k) = 60000000 * k.
Proof.
  unfold Clock.replace_second0.
  rewrite (Z.mul_comm 60000000 k), Z.mod_mul by lia. lia.
Qed.

Lemma next_boundary (now : Z) :
  exists k, now + remaining_to_next_minute now = 60000000 * k.
Proof.
  exists (- ((- now) / 60000000)). unfold remaining_to_next_minute.
  pose proof (Z.div_mod (- now) 60000000 ltac:(lia)). lia.
Qed.

Lemma stamps_on_boundaries (k : Z) (cycles : nat) :
  map Clock.replace_second0
    (map (fun i => 60000000 * k + 60000000 * Z.of_nat i) (seq 0 cycles)) =
  map (fun i => 60000000 * k + 60000000 * Z.of_nat i) (seq 0 cycles).
Proof.
  rewrite map_map. apply map_ext. intros i.
  replace (60000000 * k + 60000000 * Z.of_nat i) with (60000000 * (k + Z.of_nat i)) by lia.
  apply replace_second0_boundary.
Qed.

(** One round of the loop when every instrument has a rate. *)
Lemma cycle_complete (n : nat) (now : Z) (w : world) :
  dom (rates w) = list_to_set display_names ->
  complete (rates w) = true ->
  scheduled_data_collection (S n) now w =
  let trigger := Clock.after_sleep now (microseconds_to_wait now) in
  let row := Clock.strftime_HMS (Clock.replace_second0 trigger)
             :: map (shown (rates w)) display_names in
  let w1 := log (LogWaiting (wait_time now)) w in
  let w2 := log (LogWrote row)
              (set_files (Fs.append CSV_FILENAME row (files w))
                 (print_all (render colors (rates w)) w1)) in
  let (later, w3) := scheduled_data_collection n (trigger + 55000000) w2 in
  (trigger :: later, w3).
Proof.
  intros Hdom Hall. cbn [scheduled_data_collection plan].
  rewrite collect_complete by assumption. reflexivity.
Qed.

Lemma aligned_cycles (cycles : nat) : forall (now : Z) (w : world),
  Clock.second now <> 0 \/ Clock.microsecond now = 0 ->
  dom (rates w) = list_to_set display_names ->
  complete (rates w) = true ->
  let result := scheduled_data_collection cycles now w in
  let first := now + remaining_to_next_minute now in
  fst result = map (fun i => first + 60000000 * Z.of_nat i) (seq 0 cycles) /\
  Fs.rows CSV_FILENAME (files (snd result)) =
  Fs.rows CSV_FILENAME (files w) ++
  map (fun i => Clock.strftime_HMS (first + 60000000 * Z.of_nat i)
                :: map (shown (rates w)) display_names) (seq 0 cycles).
Proof.
  induction cycles as [| n IH]; intros now w Hcase Hdom Hall.
  { simpl. now rewrite app_nil_r. }
  cbv zeta. rewrite cycle_complete by assumption. cbv zeta.
  pose proof (FundingProps.wait_is_remaining now Hcase) as Hwait.
  assert (Hrange : 0 <= remaining_to_next_minute now < 60000000)
    by (apply Z.mod_pos_bound; lia).
  assert (Htrigger : Clock.after_sleep now (microseconds_to_wait now)
                     = now + remaining_to_next_minute now)
    by (unfold Clock.after_sleep; lia).
  rewrite Htrigger.
  destruct (next_boundary now) as (k & Hk). rewrite Hk.
  rewrite replace_second0_boundary.
  destruct (FundingProps.after_pause_fields k) as [Hsec Hrem].
  match goal with
  | |- context [scheduled_data_collection n ?resume ?w2] =>
      specialize (IH resume w2); destruct (scheduled_data_collection n resume w2)
        as [later w3]
  end.
  destruct IH as [Htimes Hrows].
  - left. rewrite Hsec. discriminate.
  - exact Hdom.
  - exact Hall.
  - cbn [fst snd] in *. rewrite Htimes, Hrows. rewrite Hrem.
    cbn [files rates log set_files print_all].
    rewrite FundingProps.rows_append, <- app_assoc.
    cbn [seq map app]. rewrite <- seq_shift, !map_map.
    split.
    + f_equal; [lia |]. apply map_ext. intros i. lia.
    + f_equal. f_equal; [do 2 f_equal; lia |].
      apply map_ext. intros i. do 2 f_equal. lia.
Qed.

(** X4.  With a rate for every instrument and a punctual clock,
    [cycles] rounds of the scheduler append [cycles] rows stamped with
    consecutive minutes, whatever the time it starts at: none is missed
    and none is stamped twice.  The first stamp is the minute that has
    just begun when the clock reads second :00, the next minute
    otherwise. *)
Theorem collections_stamp_consecutive_minutes (cycles : nat) (now : Z) (w : world) :
  dom (rates w) = list_to_set display_names ->
  complete (rates w) = true ->
  let result := scheduled_data_collection cycles now w in
  map Clock.replace_second0 (fst result) =
  map (fun i => first_stamp now + 60000000 * Z.of_nat i) (seq 0 cycles) /\
  Fs.rows CSV_FILENAME (files (snd result)) =
  Fs.rows CSV_FILENAME (files w) ++
  map (fun i => Clock.strftime_HMS (first_stamp now + 60000000 * Z.of_nat i)
                :: map (shown (rates w)) display_names) (seq 0 cycles).
Proof.
  intros Hdom Hall result. subst result.
  destruct (FundingProps.clock_fields now) as (m & Hnow & Hs & Hus).
  unfold first_stamp.
  destruct (Z.eqb_spec (Clock.second now) 0) as [Hzero | Hnonzero].
  - destruct (Z.eq_dec (Clock.microsecond now) 0) as [Hexact | Hpast].
    + destruct (aligned_cycles cycles now w (or_intror Hexact) Hdom Hall)
        as [Htimes Hrows].
      assert (Hboundary : now = 60000000 * m) by lia.
      assert (Hfirst : now + remaining_to_next_minute now = 60000000 * m).
      { unfold remaining_to_next_minute. rewrite Hboundary at 2.
        replace (- (60000000 * m)) with ((- m) * 60000000) by lia.
        rewrite Z.mod_mul by lia. lia. }
      assert (Hstamp : Clock.replace_second0 now = 60000000 * m)
        by (rewrite Hboundary; apply replace_second0_boundary).
      rewrite Htimes, Hrows, Hfirst, Hstamp. split; [| reflexivity].
      apply stamps_on_boundaries.
    + destruct cycles as [| n]; [simpl; now rewrite app_nil_r |].
      rewrite cycle_complete by assumption. cbv zeta.
      assert (Hwait : microseconds_to_wait now = - Clock.microsecond now).
      { unfold microseconds_to_wait.
        destruct (FundingProps.seconds_to_next_minute_cases now) as [[_ ->] | [Hnz _]]; lia. }
      assert (Htrigger : Clock.after_sleep now (microseconds_to_wait now) = now)
        by (unfold Clock.after_sleep; lia).
      rewrite Htrigger.
      assert (Hminute : Clock.replace_second0 now = 60000000 * m).
      { unfold Clock.replace_second0.
        replace (now mod 60000000) with (Clock.microsecond now); [lia |].
        apply Z.mod_unique with (q := m); lia. }
      assert (Hsec : Clock.second (now + 55000000) = 55).
      { unfold Clock.second.
        replace ((now + 55000000) / 1000000) with (60 * m + 55)
          by (apply Z.div_unique with (r := Clock.microsecond now); lia).
        symmetry. apply Z.mod_unique with (q := m); lia. }
      assert (Hrem : now + 55000000 + remaining_to_next_minute (now + 55000000)
                     = 60000000 * (m + 1)).
      { unfold remaining_to_next_minute.
        replace ((- (now + 55000000)) mod 60000000)
          with (5000000 - Clock.microsecond now); [lia |].
        apply Z.mod_unique with (q := - m - 1); lia. }
      match goal with
      | |- context [scheduled_data_collection n ?resume ?w2] =>
          pose proof (aligned_cycles n resume w2) as Hrest;
          destruct (scheduled_data_collection n resume w2) as [later w3]
      end.
      destruct Hrest as [Htimes Hrows].
      * left. rewrite Hsec. discriminate.
      * exact Hdom.
      * exact Hall.
      * cbn [fst snd] in *. rewrite Htimes, Hrows, Hrem, Hminute.
        cbn [files rates log set_files print_all].
        rewrite FundingProps.rows_append, <- app_assoc.
        cbn [seq map app]. rewrite <- seq_shift, !map_map.
        split.
        -- f_equal; [lia |].
           rewrite <- (map_map (fun i => 60000000 * (m + 1) + 60000000 * Z.of_nat i)
                         Clock.replace_second0).
           rewrite stamps_on_boundaries.
           apply map_ext. intros i. lia.
        -- f_equal. f_equal; [do 2 f_equal; lia |].
           apply map_ext. intros i. do 2 f_equal. lia.
  - destruct (aligned_cycles cycles now w (or_introl Hnonzero) Hdom Hall)
      as [Htimes Hrows].
    rewrite Htimes, Hrows. split; [| reflexivity].
    destruct (next_boundary now) as (k & ->).
    apply stamps_on_boundaries.
Qed.

Lemma collections_stamp_consecutive_minutes_witness :
  let now := Clock.at_time 12 0 0 500000 in
  let result := scheduled_data_collection 3 now Samples.all_reported in
  map Clock.replace_second0 (fst result) =
  map (fun i => first_stamp now + 60000000 * Z.of_nat i) (seq 0 3) /\
  Fs.rows CSV_FILENAME (files (snd result)) =
  Fs.rows CSV_FILENAME (files Samples.all_reported) ++
  map (fun i => Clock.strftime_HMS (first_stamp now + 60000000 * Z.of_nat i)
                :: map (shown (rates Samples.all_reported)) display_names) (seq 0 3).
Proof.
  apply (collections_stamp_consecutive_minutes 3 (Clock.at_time 12 0 0 500000)
           Samples.all_reported).
  - vm_compute. reflexivity.
  - vm_compute. reflexivity.
Defined.

(** The rows of that run, as the file shows them. *)
Example three_rounds_from_half_past_the_minute :
  let result := scheduled_data_collection 3 (Clock.at_time 12 0 0 500000)
                  Samples.all_reported in
  map Clock.strftime_HMS (fst result) = ["12:00:00"; "12:01:00"; "12:02:00"] /\
  Fs.rows CSV_FILENAME (files (snd result)) =
  [["Time (UTC)"; "BTC"; "ETH"; "SOL"; "XRP"; "BNB"; "DOGE"];
   ["12:00:00"; "10.95%"; "10.95%"; "10.95%"; "10.95%"; "10.95%"; "10.95%"];
   ["12:01:00"; "10.95%"; "10.95%"; "10.95%"; "10.95%"; "10.95%"; "10.95%"];
   ["12:02:00"; "10.95%"; "10.95%"; "10.95%"; "10.95%"; "10.95%"; "10.95%"]].
Proof. vm_compute. split; reflexivity. Qed.


(** ** What a stream task touches *)

Section Task.

Variable json_decode : string -> option jval.
Variable float_of_str : string -> option float.

Local Abbreviation derive := (derive json_decode float_of_str).
Local Abbreviation receive_loop := (receive_loop json_decode float_of_str).
Local Abbreviation continuous_funding_stream :=
  (continuous_funding_stream json_decode float_of_str).

Lemma receive_loop_own_rate (display_name : string) (frames : list recv_event) :
  forall w : world,
  let w' := snd (receive_loop display_name frames w) in
  files w' = files w /\ console w' = console w /\ logged w' = logged w /\
  (forall name, name <> display_name -> rates w' !! name = rates w !! name) /\
  (forall x, rates w !! display_name = Some (Some x) ->
             exists y, rates w' !! display_name = Some (Some y)).
Proof.
  induction frames as [| frame rest IH]; intros w; cbv zeta.
  { simpl. repeat split; eauto. }
  destruct frame as [m | |]; simpl; try (repeat split; eauto; fail).
  unfold on_message. destruct (derive m) as [yearly | e].
  - specialize (IH (set_rates (<[display_name := Some yearly]> (rates w)) w)).
    cbv zeta in IH. destruct IH as (Hfiles & Hconsole & Hlogged & Hothers & Hown).
    repeat split; try assumption.
    + intros name Hname. rewrite Hothers by assumption. simpl.
      now apply lookup_insert_ne.
    + intros x _. apply (Hown yearly). simpl. apply lookup_insert_eq.
  - simpl. repeat split; eauto.
Qed.

(** X5.  A stream task changes the rate of its own instrument and
    nothing else: over any sequence of connections, with whatever
    frames and failures, the files and the console stay as they were,
    the rate of every other instrument is unchanged, and a rate that
    was set stays set, through every error and reconnection. *)
Theorem stream_writes_only_its_own_rate
    (symbol display_name : string) (script : list attempt) (w : world) :
  let w' := snd (continuous_funding_stream symbol display_name script w) in
  files w' = files w /\ console w' = console w /\
  (forall name, name <> display_name -> rates w' !! name = rates w !! name) /\
  (forall x, rates w !! display_name = Some (Some x) ->
             exists y, rates w' !! display_name = Some (Some y)).
Proof.
  revert w. induction script as [| a later IH]; intros w; cbv zeta.
  { simpl. repeat split; eauto. }
  cbn [Funding.continuous_funding_stream].
  set (w0 := log (LogConnecting (websocket_url_base +:+ symbol +:+ "@markPrice")) w).
  destruct a as [| frames].
  - destruct (handle symbol OSError w0) as [delay w1] eqn:Hhandle.
    assert (Hw1 : w1 = log (LogUnexpected symbol) w0)
      by (simpl in Hhandle; congruence).
    specialize (IH w1). cbv zeta in IH.
    destruct (continuous_funding_stream symbol display_name later w1) as [sessions w2].
    subst w1 w0. exact IH.
  - pose proof (receive_loop_own_rate display_name frames w0) as Hloop.
    cbv zeta in Hloop.
    destruct (receive_loop display_name frames w0) as [[ended rest] w1].
    cbn [snd] in Hloop. destruct Hloop as (Hfiles & Hconsole & _ & Hothers & Hown).
    destruct ended as [| e]; [subst w0; cbn [snd]; repeat split; assumption |].
    destruct (handle symbol e w1) as [delay w2] eqn:Hhandle.
    assert (Hw2 : exists r, w2 = log r w1).
    { destruct (handle_logs symbol e w1) as (r & Hr). exists r.
      now rewrite Hhandle in Hr. }
    destruct Hw2 as (r & ->).
    specialize (IH (log r w1)). cbv zeta in IH.
    destruct (continuous_funding_stream symbol display_name later (log r w1))
      as [sessions w3].
    cbn [snd] in *. destruct IH as (Hfiles' & Hconsole' & Hothers' & Hown').
    subst w0. cbn [files console rates log] in *.
    split; [congruence |]. split; [congruence |]. split.
    + intros name Hname. rewrite Hothers' by assumption. now apply Hothers.
    + intros x Hx. destruct (Hown x Hx) as (y & Hy). now apply (Hown' y).
Qed.

(** ** Failures of a frame *)

Lemma derive_JSONDecodeError (message : string) :
  derive message = Raise JSONDecodeError <-> json_decode message = None.
Proof.
  unfold Funding.derive, json_loads.
  destruct (json_decode message) as [data |]; [| now split].
  split; [| discriminate]. simpl.
  unfold Json.getitem. destruct data; try discriminate.
  destruct (Json.assoc "r" fields) as [r |]; [| discriminate]. simpl.
  destruct r; simpl; try discriminate.
  - destruct (PrimFloat.is_infinity _); discriminate.
  - destruct (float_of_str s); discriminate.
Qed.

(** X6.  A frame that cannot be handled ends its connection: the frames
    left on it are not read and the task sleeps before it connects
    again, one second exactly when the frame is not JSON (the error is
    then [JSONDecodeError]) and five seconds for every other failure, a
    missing field [r] or a text that is no number among them. *)
Theorem pause_is_one_second_only_after_undecodable_frame
    (symbol display_name message : string) (rest : list recv_event)
    (later : list attempt) (w : world) (e : exn) :
  derive message = Raise e ->
  head (fst (continuous_funding_stream symbol display_name
               (Connected (Message message :: rest) :: later) w)) =
  Some (Session (Raised e) rest
          (Some (match json_decode message with None => 1 | Some _ => 5 end))) /\
  (json_decode message = None <-> e = JSONDecodeError).
Proof.
  intros Hderive. split.
  - cbn [Funding.continuous_funding_stream Funding.receive_loop].
    unfold on_message. rewrite Hderive.
    assert (Hdelay : fst (handle symbol e
                            (log (LogConnecting (websocket_url_base +:+ symbol +:+ "@markPrice")) w))
                     = match json_decode message with None => 1 | Some _ => 5 end).
    { destruct (json_decode message) as [data |] eqn:Hdecode.
      - destruct e; try reflexivity.
        apply derive_JSONDecodeError in Hderive. congruence.
      - apply derive_JSONDecodeError in Hdecode.
        rewrite Hdecode in Hderive. now injection Hderive as <-. }
    destruct (handle symbol e _) as [delay w1]. cbn [fst] in Hdelay. subst delay.
    destruct (continuous_funding_stream symbol display_name later w1) as [sessions w2].
    reflexivity.
  - rewrite <- derive_JSONDecodeError. rewrite Hderive.
    split; [now intros [= ->] | now intros ->].
Qed.

End Task.

Lemma pause_is_one_second_only_after_undecodable_frame_witness :
  head (fst (continuous_funding_stream Samples.json_decode Demo.float_of_str
               "btcusdt" "BTC"
               [Connected [Message "subscription reply"; Message "never read"]]
               (boot ∅))) =
  Some (Session (Raised KeyError) [Message "never read"]
          (Some (match Samples.json_decode "subscription reply" with
                 | None => 1 | Some _ => 5 end))) /\
  (Samples.json_decode "subscription reply" = None <-> KeyError = JSONDecodeError).
Proof.
  apply (pause_is_one_second_only_after_undecodable_frame
           Samples.json_decode Demo.float_of_str "btcusdt" "BTC" "subscription reply"
           [Message "never read"] [] (boot ∅) KeyError).
  reflexivity.
Defined.

(** ** A snapshot that lacks an instrument *)

Lemma traverse_KeyError {A B : Type} (f : A -> pyres B) (l : list A) :
  (forall a, a ∈ l -> (exists b, f a = Ok b) \/ f a = Raise KeyError) ->
  (exists a, a ∈ l /\ f a = Raise KeyError) ->
  traverse f l = Raise KeyError.
Proof.
  induction l as [| a l IH]; intros Hall (bad & Hin & Hbad).
  - now apply elem_of_nil in Hin.
  - simpl. destruct (Hall a ltac:(apply list_elem_of_here)) as [(b & Hb) | Hb];
      rewrite Hb; [| reflexivity].
    simpl. rewrite IH; [reflexivity | |].
    + intros a' Ha'. apply Hall. now apply list_elem_of_further.
    + apply elem_of_cons in Hin as [-> | Hin]; [congruence |]. now exists bad.
Qed.

(** X7.  Called with a dictionary that holds no unset rate but lacks one
    of the six instruments, [write_to_csv] raises [KeyError] and writes
    no row and no log record; the file has been opened for appending
    by then, so it exists afterwards even when it did not before. *)
Theorem write_to_csv_raises_on_a_missing_instrument
    (timestamp : string) (snap : gmap string (option float)) (w : world) (name : string) :
  name ∈ display_names ->
  snap !! name = None ->
  None_in_values snap = false ->
  let result := write_to_csv timestamp snap w in
  fst result = Raise KeyError /\
  Fs.rows CSV_FILENAME (files (snd result)) = Fs.rows CSV_FILENAME (files w) /\
  is_Some (files (snd result) !! CSV_FILENAME) /\
  logged (snd result) = logged w /\ rates (snd result) = rates w.
Proof.
  intros Hname Hmissing Hnone result. subst result.
  unfold write_to_csv. rewrite Hnone.
  rewrite traverse_KeyError.
  - cbn [fst snd files logged rates set_files]. unfold Fs.open_append, Fs.rows.
    destruct (files w !! CSV_FILENAME) as [rows |] eqn:Hfile.
    + rewrite Hfile. repeat split; eauto.
    + rewrite lookup_insert_eq. repeat split; eauto.
  - intros a _. unfold cell.
    destruct (snap !! a) as [[x |] |] eqn:Ha; [left; eauto | | now right].
    assert (None_in_values snap = true)
      by (apply FundingProps.None_in_values_spec; eauto).
    congruence.
  - exists name. split; [exact Hname |]. unfold cell. now rewrite Hmissing.
Qed.

Lemma write_to_csv_raises_on_a_missing_instrument_witness :
  let result := write_to_csv "12:01:00" ∅ (boot ∅) in
  fst result = Raise KeyError /\
  Fs.rows CSV_FILENAME (files (snd result)) = Fs.rows CSV_FILENAME (files (boot ∅)) /\
  is_Some (files (snd result) !! CSV_FILENAME) /\
  logged (snd result) = logged (boot ∅) /\ rates (snd result) = rates (boot ∅).
Proof.
  apply (write_to_csv_raises_on_a_missing_instrument "12:01:00" ∅ (boot ∅) "BTC").
  - vm_compute. repeat constructor.
  - reflexivity.
  - reflexivity.
Defined.

(** ** The shape of the file *)

Lemma incomplete_has_None (snap : gmap string (option float)) :
  dom snap = list_to_set display_names ->
  complete snap = false ->
  None_in_values snap = true.
Proof.
  intros Hdom Hsome. unfold complete in Hsome.
  apply not_true_iff_false in Hsome.
  destruct (None_in_values snap) eqn:Hnone; [reflexivity |].
  elim Hsome. apply forallb_forall. intros name Hin.
  apply list_elem_of_In in Hin.
  assert (Hkey : name ∈ dom snap) by (rewrite Hdom; now apply elem_of_list_to_set).
  apply elem_of_dom in Hkey as [[x |] Hx]; unfold has_rate; rewrite Hx; [reflexivity |].
  assert (None_in_values snap = true)
    by (apply FundingProps.None_in_values_spec; eauto).
  congruence.
Qed.

Section Table.

Variable json_decode : string -> option jval.
Variable float_of_str : string -> option float.

Local Abbreviation step := (step json_decode float_of_str).
Local Abbreviation run := (run json_decode float_of_str).

Lemma step_rows (w : world) (ev : event) :
  dom (rates w) = list_to_set display_names ->
  exists new,
    Fs.rows CSV_FILENAME (files (step w ev)) = Fs.rows CSV_FILENAME (files w) ++ new /\
    Forall (fun row => length row = 7%nat) new.
Proof.
  intros Hdom. destruct ev as [stream message | now].
  - exists []. rewrite step_message_files, app_nil_r. now split.
  - cbn [Funding.step]. destruct (complete (rates w)) eqn:Hall.
    + rewrite collect_complete by assumption. cbn [snd files log set_files print_all].
      eexists. split; [apply FundingProps.rows_append |].
      constructor; [apply row_length | constructor].
    + exists []. unfold collect, collect_with, write_to_csv, snapshot.
      cbn [rates print_all].
      rewrite incomplete_has_None by assumption.
      rewrite app_nil_r. now split.
Qed.

Lemma run_rows (evs : list event) : forall w : world,
  Forall from_task evs ->
  dom (rates w) = list_to_set display_names ->
  exists new,
    Fs.rows CSV_FILENAME (files (run evs w)) = Fs.rows CSV_FILENAME (files w) ++ new /\
    Forall (fun row => length row = 7%nat) new.
Proof.
  induction evs as [| ev later IH]; intros w Htasks Hdom.
  - exists []. rewrite app_nil_r. now split.
  - inversion Htasks as [| ? ? Hev Hlater]; subst.
    rewrite FundingProps.run_cons.
    destruct (step_rows w ev Hdom) as (first & Hfirst & Hwidth).
    destruct (IH (step w ev) Hlater
                (FundingProps.step_dom json_decode float_of_str w ev Hev Hdom))
      as (rest & Hrest & Hwidth').
    exists (first ++ rest). rewrite Hrest, Hfirst, <- app_assoc.
    split; [reflexivity | now apply Forall_app].
Qed.

(** X8.  The program never rewrites its file: what the file holds
    after [setup_csv_file], the header alone when the file was missing
    and the rows already on disk otherwise, stays the beginning of the
    file whatever the tasks do, and every row added after it has seven
    cells, one for each column of the header. *)
Theorem csv_file_stays_a_table
    (evs : list event) (disk : gmap string (list (list string))) :
  Forall from_task evs ->
  let w0 := setup_csv_file (boot disk) in
  exists data,
    Fs.rows CSV_FILENAME (files (run evs w0)) = Fs.rows CSV_FILENAME (files w0) ++ data /\
    Forall (fun row => length row = length ("Time (UTC)" :: display_names)) data /\
    (disk !! CSV_FILENAME = None ->
       Fs.rows CSV_FILENAME (files w0) = ["Time (UTC)" :: display_names]) /\
    (forall rows, disk !! CSV_FILENAME = Some rows ->
       Fs.rows CSV_FILENAME (files w0) = rows).
Proof.
  intros Htasks w0.
  destruct (run_rows evs w0 Htasks) as (data & Hrows & Hwidth).
  - subst w0. replace (rates (setup_csv_file (boot disk))) with current_rates;
      [apply FundingProps.dom_current_rates |].
    unfold setup_csv_file. now destruct (files (boot disk) !! CSV_FILENAME).
  - exists data. split; [exact Hrows |]. split; [exact Hwidth |].
    subst w0. unfold setup_csv_file, Fs.rows. cbn [files boot]. split.
    + intros Hfresh. rewrite Hfresh. cbn [files log set_files].
      now rewrite lookup_insert_eq.
    + intros rows Hrows0. rewrite Hrows0. cbn [files boot]. rewrite ?Hrows0. reflexivity.
Qed.

End Table.

Lemma csv_file_stays_a_table_witness :
  let evs := map (fun stream => EvMessage stream "mark price 0.0001") streams
             ++ [EvCollect (Clock.at_time 12 1 0 250)] in
  let w0 := setup_csv_file (boot ∅) in
  exists data,
    Fs.rows CSV_FILENAME (files (Funding.run Demo.json_decode Demo.float_of_str evs w0)) =
    Fs.rows CSV_FILENAME (files w0) ++ data /\
    Forall (fun row => length row = length ("Time (UTC)" :: display_names)) data /\
    ((∅ : gmap string (list (list string))) !! CSV_FILENAME = None ->
       Fs.rows CSV_FILENAME (files w0) = ["Time (UTC)" :: display_names]) /\
    (forall rows, (∅ : gmap string (list (list string))) !! CSV_FILENAME = Some rows ->
       Fs.rows CSV_FILENAME (files w0) = rows).
Proof.
  apply (csv_file_stays_a_table Demo.json_decode Demo.float_of_str
           (map (fun stream => EvMessage stream "mark price 0.0001") streams
            ++ [EvCollect (Clock.at_time 12 1 0 250)]) ∅).
  vm_compute. repeat constructor.
Defined.

(** ** The stamp of a collection *)

Lemma replace_second0_multiple (t : Z) :
  Clock.replace_second0 t = 60000000 * (t / 60000000).
Proof.
  unfold Clock.replace_second0.
  pose proof (Z.div_mod t 60000000 ltac:(lia)). lia.
Qed.

Lemma replace_second0_fields (t : Z) :
  Clock.hour (Clock.replace_second0 t) = Clock.hour t /\
  Clock.minute (Clock.replace_second0 t) = Clock.minute t /\
  Clock.second (Clock.replace_second0 t) = 0.
Proof.
  rewrite replace_second0_multiple. set (q := t / 60000000).
  split; [| split].
  - unfold Clock.hour.
    replace (60000000 * q / 3600000000) with (q / 60).
    + unfold q. rewrite Z.div_div by lia. reflexivity.
    + replace 3600000000 with (60000000 * 60) by lia.
      rewrite Z.div_mul_cancel_l by lia. reflexivity.
  - unfold Clock.minute. rewrite (Z.mul_comm 60000000 q), Z.div_mul by lia.
    reflexivity.
  - apply FundingProps.minute_boundary_fields.
Qed.

Lemma a_day_later (t : Z) :
  Clock.strftime_HMS (Clock.replace_second0 (t + 86400000000)) =
  Clock.strftime_HMS (Clock.replace_second0 t).
Proof.
  unfold Clock.strftime_HMS.
  destruct (replace_second0_fields t) as (-> & -> & ->).
  destruct (replace_second0_fields (t + 86400000000)) as (-> & -> & ->).
  assert (Hhour : Clock.hour (t + 86400000000) = Clock.hour t).
  { unfold Clock.hour.
    replace (t + 86400000000) with (t + 24 * 3600000000) by lia.
    rewrite Z.div_add by lia. replace 24 with (1 * 24) at 1 by lia.
    apply Z.mod_add. lia. }
  assert (Hminute : Clock.minute (t + 86400000000) = Clock.minute t).
  { unfold Clock.minute.
    replace (t + 86400000000) with (t + 1440 * 60000000) by lia.
    rewrite Z.div_add by lia. replace 1440 with (24 * 60) by lia.
    apply Z.mod_add. lia. }
  now rewrite Hhour, Hminute.
Qed.

(** X9.  The stamp of a row is the hour and the minute of the collection
    followed by seconds 00, and holds no date: a collection exactly
    twenty-four hours later prints and writes the same as it would
    now. *)
Theorem stamp_is_a_time_of_day_without_date (now : Z) (w : world) :
  Clock.strftime_HMS (Clock.replace_second0 now) =
  Clock.two_digits (Clock.hour now) +:+ ":" +:+ Clock.two_digits (Clock.minute now)
    +:+ ":00" /\
  collect (now + 86400000000) w = collect now w.
Proof.
  split.
  - unfold Clock.strftime_HMS.
    destruct (replace_second0_fields now) as (-> & -> & ->). reflexivity.
  - unfold collect, collect_with. now rewrite a_day_later.
Qed.

End FundingExtra.

(** * Further properties of liqs.py *)

Module LiqsExtra.
Import Liqs LiqsRun.

(** ** The paths of the files *)

Lemma length_append (s t : string) :
  String.length (s +:+ t) = (String.length s + String.length t)%nat.
Proof.
  induction s as [| c s IH]; [reflexivity |].
  rewrite LiqsProps.append_cons. simpl. now rewrite IH.
Qed.

Lemma append_cancel_r (a b t : string) : a +:+ t = b +:+ t -> a = b.
Proof.
  revert b. induction a as [| c a IH]; intros [| c' b] Heq.
  - reflexivity.
  - apply (f_equal String.length) in Heq.
    rewrite LiqsProps.append_nil, length_append in Heq. simpl in Heq. lia.
  - apply (f_equal String.length) in Heq.
    rewrite LiqsProps.append_nil, length_append in Heq. simpl in Heq. lia.
  - rewrite !LiqsProps.append_cons in Heq. injection Heq as -> Heq.
    f_equal. now apply IH.
Qed.

Lemma token_file_inj (token token' : string) :
  token_file token = token_file token' -> token = token'.
Proof.
  unfold token_file, path_join. intros Heq.
  apply String.app_inj in Heq. apply String.app_inj in Heq.
  now apply append_cancel_r in Heq.
Qed.

Lemma token_file_not_main (token : string) : token_file token <> main_file.
Proof.
  intros Heq. vm_compute in Heq. discriminate.
Qed.

(** ** The disk after the module is loaded *)

Lemma create_if_missing_lookup path header (fs : gmap string (list (list jval))) q :
  create_if_missing path header fs !! q =
  match fs !! q with
  | Some rows => Some rows
  | None => if String.eqb q path then Some [header] else None
  end.
Proof.
  unfold create_if_missing.
  destruct (String.eqb_spec q path) as [-> | Hne].
  - destruct (fs !! path) as [rows |] eqn:Hpath; [exact Hpath |].
    apply lookup_insert_eq.
  - destruct (fs !! path) as [rows |] eqn:Hpath.
    + now destruct (fs !! q).
    + rewrite lookup_insert_ne by congruence. now destruct (fs !! q).
Qed.

Lemma makedirs_cases (path : string) (d : disk_state) :
  (makedirs path d = Raise OSError /\
   (path ∈ folders d -> False) /\ is_Some (regular d !! path)) \/
  (exists d1,
     makedirs path d = Ok d1 /\ regular d1 = regular d /\
     (forall q, q ∈ folders d1 <-> q = path \/ q ∈ folders d) /\
     (path ∈ folders d \/ regular d !! path = None)).
Proof.
  unfold makedirs. destruct (bool_decide (path ∈ folders d)) eqn:Hdir.
  - apply bool_decide_eq_true_1 in Hdir. right. exists d.
    split; [reflexivity |]. split; [reflexivity |]. split; [| now left].
    intros q. split; [now right | now intros [-> | Hq]].
  - apply bool_decide_eq_false_1 in Hdir.
    destruct (regular d !! path) as [rows |] eqn:Hfile.
    + left. split; [reflexivity |]. split; [exact Hdir | now exists rows].
    + right. eexists. split; [reflexivity |]. cbn [regular folders].
      split; [reflexivity |]. split; [| now right].
      intros q. rewrite elem_of_union, elem_of_singleton. reflexivity.
Qed.

Lemma write_header_cases (path : string) (header : list jval) (d : disk_state) :
  (write_header_if_missing path header d = Raise OSError /\
   regular d !! path = None /\ path ∈ folders d) \/
  (exists d1,
     write_header_if_missing path header d = Ok d1 /\ folders d1 = folders d /\
     regular d1 = create_if_missing path header (regular d) /\
     (regular d !! path = None -> path ∈ folders d -> False)).
Proof.
  unfold write_header_if_missing.
  destruct (regular d !! path) as [rows |] eqn:Hfile.
  - right. exists d. split; [reflexivity |]. split; [reflexivity |].
    split; [| discriminate]. unfold create_if_missing. now rewrite Hfile.
  - destruct (bool_decide (path ∈ folders d)) eqn:Hdir.
    + apply bool_decide_eq_true_1 in Hdir. left. now repeat split.
    + apply bool_decide_eq_false_1 in Hdir. right. eexists.
      split; [reflexivity |]. cbn [regular folders].
      split; [reflexivity |]. split; [reflexivity |]. intros _. exact Hdir.
Qed.

Lemma write_header_of_existing (path : string) (header : list jval) (d : disk_state) :
  is_Some (regular d !! path) -> write_header_if_missing path header d = Ok d.
Proof. intros [rows Hrows]. unfold write_header_if_missing. now rewrite Hrows. Qed.

Lemma makedirs_of_existing (path : string) (d : disk_state) :
  path ∈ folders d -> makedirs path d = Ok d.
Proof. intros Hdir. unfold makedirs. now rewrite bool_decide_eq_true_2. Qed.

(** What the loop over the watch list leaves: the headers of the tokens
    it reached, in files that were missing. *)
Lemma write_token_headers_spec (tokens : list string) : forall d : disk_state,
  let result := write_token_headers tokens d in
  folders (snd result) = folders d /\
  (forall q,
     regular (snd result) !! q = regular d !! q \/
     regular d !! q = None /\ q ∈ map token_file tokens /\
     regular (snd result) !! q = Some [token_header]) /\
  (fst result = Ok tt ->
   forall token, token ∈ tokens -> is_Some (regular (snd result) !! token_file token)) /\
  ((forall token, token ∈ tokens -> token_file token ∈ folders d -> False) ->
   fst result = Ok tt).
Proof.
  induction tokens as [| token rest IH]; intros d; cbv zeta.
  { cbn [write_token_headers fst snd]. split; [reflexivity |].
    split; [intros q; now left |]. split; [| reflexivity].
    intros _ token Hin. now apply elem_of_nil in Hin. }
  cbn [write_token_headers].
  destruct (write_header_cases (token_file token) token_header d)
    as [(-> & Hnone & Hdir) | (d1 & -> & Hfolders & Hregular & Hfree)].
  - cbn [fst snd]. split; [reflexivity |]. split; [intros q; now left |].
    split; [discriminate |].
    intros Hclear. elim (Hclear token); [apply list_elem_of_here | exact Hdir].
  - specialize (IH d1). cbv zeta in IH.
    destruct IH as (Hfolders' & Hfiles & Hmade & Hsuccess).
    split; [congruence |]. split; [| split].
    + intros q. destruct (Hfiles q) as [Hsame | (Hnone & Hin & Hnew)].
      * rewrite Hsame, Hregular, create_if_missing_lookup.
        destruct (regular d !! q) as [rows |] eqn:Hq; [now left |].
        destruct (String.eqb_spec q (token_file token)) as [-> | _]; [| now left].
        right. split; [reflexivity |]. split; [apply list_elem_of_here | reflexivity].
      * rewrite Hregular, create_if_missing_lookup in Hnone.
        destruct (regular d !! q) as [rows |] eqn:Hq; [discriminate |].
        right. split; [reflexivity |]. split; [| exact Hnew].
        now apply list_elem_of_further.
    + intros Hok token' Hin. apply elem_of_cons in Hin as [-> | Hin].
      * destruct (Hfiles (token_file token)) as [Hsame | (_ & _ & Hnew)].
        -- rewrite Hsame, Hregular, create_if_missing_lookup.
           destruct (regular d !! token_file token); [eauto |].
           rewrite String.eqb_refl. eauto.
        -- rewrite Hnew. eauto.
      * now apply Hmade.
    + intros Hclear. apply Hsuccess. intros token' Hin Hdir.
      apply (Hclear token'); [now apply list_elem_of_further | congruence].
Qed.

Lemma write_token_headers_of_existing (tokens : list string) (d : disk_state) :
  (forall token, token ∈ tokens -> is_Some (regular d !! token_file token)) ->
  write_token_headers tokens d = (Ok tt, d).
Proof.
  induction tokens as [| token rest IH]; intros Hall; [reflexivity |].
  cbn [write_token_headers].
  rewrite write_header_of_existing by (apply Hall, list_elem_of_here).
  apply IH. intros token' Hin. now apply Hall, list_elem_of_further.
Qed.

Lemma directory_names_are_not_files :
  main_file <> DATA_DIR /\ main_file <> TOKEN_DIR /\
  forall token, token_file token <> DATA_DIR /\ token_file token <> TOKEN_DIR.
Proof.
  split; [discriminate |]. split; [discriminate |].
  intros token. split; intros Heq; vm_compute in Heq; discriminate.
Qed.

(** X10.  Loading the module makes the data directory and the token
    directory where they are missing and never truncates a file:
    whatever the outcome, every regular file keeps its rows, a file that
    appears is the main file or the file of a watched token and holds
    its header row alone, and no directory other than these two is made.
    When the name of the data directory is taken by a regular file the
    import raises before anything is made.  Loading succeeds when the
    names of the two directories are not taken by regular files and no
    path of the seven files is a directory; the two directories and the
    seven files are there afterwards, and loading again succeeds and
    changes nothing. *)
Theorem loading_makes_directories_and_never_truncates (d : disk_state) :
  let d' := snd (load d) in
  (forall path rows, regular d !! path = Some rows -> regular d' !! path = Some rows) /\
  (forall path,
     regular d' !! path = regular d !! path \/
     regular d !! path = None /\
     (path = main_file /\ regular d' !! path = Some [main_header] \/
      path ∈ map token_file TOKENS_TO_WATCH /\ regular d' !! path = Some [token_header])) /\
  (forall path, path ∈ folders d -> path ∈ folders d') /\
  (forall path, path ∈ folders d' ->
     path = DATA_DIR \/ path = TOKEN_DIR \/ path ∈ folders d) /\
  (fst (load d) = Ok tt ->
     DATA_DIR ∈ folders d' /\ TOKEN_DIR ∈ folders d' /\
     is_Some (regular d' !! main_file) /\
     (forall token, token ∈ TOKENS_TO_WATCH -> is_Some (regular d' !! token_file token)) /\
     load d' = (Ok tt, d')) /\
  ((DATA_DIR ∈ folders d -> False) -> is_Some (regular d !! DATA_DIR) ->
     load d = (Raise OSError, d)) /\
  (regular d !! DATA_DIR = None -> regular d !! TOKEN_DIR = None ->
   (main_file ∈ folders d -> False) ->
   (forall token, token ∈ TOKENS_TO_WATCH -> token_file token ∈ folders d -> False) ->
   fst (load d) = Ok tt).
Proof.
  destruct directory_names_are_not_files as (Hmain_data & Hmain_token & Htoken_names).
  cbv zeta. unfold load.
  destruct (makedirs_cases DATA_DIR d)
    as [(-> & Hnodir & Hfile) | (d1 & -> & Hreg1 & Hdirs1 & Hfree1)].
  { cbn [fst snd].
    split; [auto |]. split; [intros path; now left |]. split; [auto |].
    split; [intros path Hin; now right; right |]. split; [discriminate |].
    split; [reflexivity |].
    intros Hnone. destruct Hfile as [rows Hrows]. congruence. }
  destruct (makedirs_cases TOKEN_DIR d1)
    as [(-> & Hnodir & Hfile) | (d2 & -> & Hreg2 & Hdirs2 & Hfree2)].
  { cbn [fst snd]. rewrite Hreg1.
    split; [auto |]. split; [intros path; now left |].
    split; [intros path Hin; apply Hdirs1; now right |].
    split; [intros path Hin; apply Hdirs1 in Hin as [-> | Hin]; auto |].
    split; [discriminate |].
    split.
    { intros Hnodata Hdata. destruct Hfree1 as [Hin | Hnone]; [now elim Hnodata |].
      destruct Hdata as [rows Hrows]. congruence. }
    intros _ Hnone. destruct Hfile as [rows Hrows]. congruence. }
  destruct (write_header_cases main_file main_header d2)
    as [(-> & Hnone & Hdir) | (d3 & -> & Hfolders3 & Hreg3 & Hfree3)].
  { cbn [fst snd]. rewrite Hreg2, Hreg1.
    split; [auto |]. split; [intros path; now left |].
    split; [intros path Hin; apply Hdirs2; right; apply Hdirs1; now right |].
    split.
    { intros path Hin. apply Hdirs2 in Hin as [-> | Hin]; [auto |].
      apply Hdirs1 in Hin as [-> | Hin]; auto. }
    split; [discriminate |].
    split.
    { intros Hnodata Hdata. destruct Hfree1 as [Hin | Hnone1]; [now elim Hnodata |].
      destruct Hdata as [rows Hrows]. congruence. }
    intros _ _ Hnomain _. exfalso.
    apply Hdirs2 in Hdir as [Heq | Hdir]; [now apply Hmain_token |].
    apply Hdirs1 in Hdir as [Heq | Hdir]; [now apply Hmain_data | now apply Hnomain]. }
  pose proof (write_token_headers_spec TOKENS_TO_WATCH d3) as Hloop.
  cbv zeta in Hloop. destruct Hloop as (Hfolders & Hfiles & Hmade & Hsuccess).
  set (result := write_token_headers TOKENS_TO_WATCH d3) in *.
  assert (Hdirs : forall q, q ∈ folders (snd result) <->
                            q = TOKEN_DIR \/ q = DATA_DIR \/ q ∈ folders d).
  { intros q. rewrite Hfolders, Hfolders3, Hdirs2, Hdirs1. reflexivity. }
  assert (Hnew : forall path,
            regular (snd result) !! path = regular d !! path \/
            regular d !! path = None /\
            (path = main_file /\ regular (snd result) !! path = Some [main_header] \/
             path ∈ map token_file TOKENS_TO_WATCH /\
             regular (snd result) !! path = Some [token_header])).
  { intros path.
    assert (Hstep : regular d3 !! path =
                    match regular d !! path with
                    | Some rows => Some rows
                    | None => if String.eqb path main_file then Some [main_header] else None
                    end)
      by (rewrite Hreg3, Hreg2, Hreg1; apply create_if_missing_lookup).
    destruct (Hfiles path) as [Hsame | (Hnone & Hin & Hheader)].
    - rewrite Hsame, Hstep.
      destruct (regular d !! path) as [rows |]; [now left |].
      destruct (String.eqb_spec path main_file) as [Heq | _]; [| now left].
      right. split; [reflexivity |]. left. split; [exact Heq | reflexivity].
    - rewrite Hstep in Hnone.
      destruct (regular d !! path) as [rows |]; [discriminate |].
      right. split; [reflexivity |]. right. now split. }
  split.
  { intros path rows Hrows.
    destruct (Hnew path) as [-> | (Hnone & _)]; [exact Hrows | congruence]. }
  split; [exact Hnew |].
  split; [intros path Hin; apply Hdirs; now right; right |].
  split; [intros path Hin; apply Hdirs in Hin; tauto |].
  split.
  { intros Hok.
    assert (Hmain : is_Some (regular (snd result) !! main_file)).
    { destruct (Hfiles main_file) as [-> | (_ & _ & ->)]; [| eauto].
      rewrite Hreg3, create_if_missing_lookup.
      destruct (regular d2 !! main_file); [eauto |].
      rewrite String.eqb_refl. eauto. }
    split; [apply Hdirs; auto |]. split; [apply Hdirs; auto |].
    split; [exact Hmain |]. split; [now apply Hmade |].
    rewrite makedirs_of_existing by (apply Hdirs; auto).
    rewrite makedirs_of_existing by (apply Hdirs; auto).
    rewrite write_header_of_existing by exact Hmain.
    apply write_token_headers_of_existing. now apply Hmade. }
  split.
  { intros Hnodata Hdata. destruct Hfree1 as [Hin | Hnone1]; [now elim Hnodata |].
    destruct Hdata as [rows Hrows]. congruence. }
  intros _ _ _ Hnotokens. apply Hsuccess. intros token Hin Hdir.
  rewrite Hfolders3 in Hdir.
  apply Hdirs2 in Hdir as [Heq | Hdir]; [now apply (Htoken_names token) |].
  apply Hdirs1 in Hdir as [Heq | Hdir]; [now apply (Htoken_names token) |].
  now apply (Hnotokens token).
Qed.

(** A first load in an empty directory, and one in a directory where the
    name of the data directory is taken by a file. *)
Example load_in_an_empty_directory :
  fst (load (Disk ∅ ∅)) = Ok tt /\
  folders (snd (load (Disk ∅ ∅))) = {[DATA_DIR; TOKEN_DIR]} /\
  files (boot ∅) = regular (snd (load (Disk ∅ ∅))) /\
  Fs.rows main_file (files (boot ∅)) = [main_header] /\
  Fs.rows (token_file "BTC") (files (boot ∅)) = [token_header].
Proof.
  split; [now vm_compute |]. split; [now vm_compute |].
  split; [reflexivity |]. split; now vm_compute.
Qed.

Example load_where_a_file_has_the_directory_name :
  let d := Disk ∅ {[DATA_DIR := [[JStr "notes"]]]} in
  load d = (Raise OSError, d).
Proof. vm_compute. reflexivity. Qed.

(** ** The rows written over a run *)

Lemma rows_store_main (qs : list qualified) : forall fs : gmap string (list (list jval)),
  Fs.rows main_file
    (fold_left (fun fs q => files (persist q (World fs [] []))) qs fs) =
  Fs.rows main_file fs ++ map msg_values qs.
Proof.
  induction qs as [| q qs IH]; intros fs; [now rewrite app_nil_r |].
  cbn [fold_left map]. rewrite IH. unfold persist. cbn [files set_files].
  rewrite FundingProps.rows_append_other by apply token_file_not_main.
  rewrite FundingProps.rows_append, <- app_assoc. reflexivity.
Qed.

Lemma rows_store_token (token : string) (qs : list qualified) :
  forall fs : gmap string (list (list jval)),
  Fs.rows (token_file token)
    (fold_left (fun fs q => files (persist q (World fs [] []))) qs fs) =
  Fs.rows (token_file token) fs ++
  map (fun q => msg_values q ++ [JStr (q_time_est q)])
      (List.filter (fun q => String.eqb (q_base_token q) token) qs).
Proof.
  induction qs as [| q qs IH]; intros fs; [now rewrite app_nil_r |].
  cbn [fold_left List.filter]. rewrite IH. unfold persist. cbn [files set_files].
  destruct (String.eqb_spec (q_base_token q) token) as [<- | Hne].
  - rewrite FundingProps.rows_append.
    rewrite FundingProps.rows_append_other
      by (intros Heq; symmetry in Heq; now apply token_file_not_main in Heq).
    cbn [map]. now rewrite <- app_assoc.
  - rewrite FundingProps.rows_append_other
      by (intros Heq; now apply token_file_inj in Heq).
    rewrite FundingProps.rows_append_other
      by (intros Heq; symmetry in Heq; now apply token_file_not_main in Heq).
    reflexivity.
Qed.

Lemma other_paths_store (path : string) (qs : list qualified) :
  forall fs : gmap string (list (list jval)),
  path <> main_file ->
  (forall token, path <> token_file token) ->
  fold_left (fun fs q => files (persist q (World fs [] []))) qs fs !! path = fs !! path.
Proof.
  induction qs as [| q qs IH]; intros fs Hmain Htoken; [reflexivity |].
  cbn [fold_left]. rewrite IH by assumption.
  unfold persist, Fs.append. cbn [files set_files].
  rewrite lookup_insert_ne by (intros Heq; now apply (Htoken (q_base_token q))).
  now rewrite lookup_insert_ne by congruence.
Qed.

Lemma omap_cons_case {A B : Type} (f : A -> option B) (a : A) (l : list A) :
  omap f (a :: l) = match f a with Some b => b :: omap f l | None => omap f l end.
Proof. reflexivity. Qed.

Section Run.

Variable json_decode : string -> option jval.
Variable float_of_str : string -> option float.
Variable int_of_str : string -> option Z.
Variable time_est_of : Z -> option string.

Local Abbreviation decide := (decide float_of_str int_of_str time_est_of).
Local Abbreviation process_liquidation :=
  (process_liquidation float_of_str int_of_str time_est_of).
Local Abbreviation on_message :=
  (on_message json_decode float_of_str int_of_str time_est_of).
Local Abbreviation receive_loop :=
  (receive_loop json_decode float_of_str int_of_str time_est_of).
Local Abbreviation connection_loop :=
  (connection_loop json_decode float_of_str int_of_str time_est_of).
Local Abbreviation binance_liquidation :=
  (binance_liquidation json_decode float_of_str int_of_str time_est_of).
Local Abbreviation recorded :=
  (recorded json_decode float_of_str int_of_str time_est_of).

Lemma on_message_files (msg : string) (w : world) :
  files (snd (on_message msg w)) =
  match recorded msg with
  | Some q => files (persist q (World (files w) [] []))
  | None => files w
  end.
Proof.
  unfold Liqs.on_message, LiqsRun.recorded.
  destruct (json_loads json_decode msg) as [data | e]; [| reflexivity].
  destruct (Json.contains "o" data) as [[|] | e]; try reflexivity.
  destruct (Json.getitem data "o") as [order_data | e]; [| reflexivity].
  unfold Liqs.process_liquidation.
  destruct (decide order_data) as [[| symbol | usd_size | q] | e]; reflexivity.
Qed.

(** A message never ends the loop: the next frame is read in a world
    that differs from the one the message left by a notice at most. *)
Lemma receive_loop_message (msg : string) (rest : list recv_event) (w : world) :
  exists w1,
    receive_loop (Message msg :: rest) w = receive_loop rest w1 /\
    (w1 = snd (on_message msg w) \/ exists n, w1 = log_message n (snd (on_message msg w))).
Proof.
  cbn [Liqs.receive_loop].
  pose proof (LiqsProps.on_message_stays_open json_decode float_of_str int_of_str
                time_est_of msg w) as Hopen.
  destruct (on_message msg w) as [[[] | e] w1]; cbn [fst snd] in *.
  - exists w1. split; [reflexivity | now left].
  - destruct e; try now elim Hopen.
    all: eexists; split; [reflexivity | right; eexists; reflexivity].
Qed.

Lemma receive_loop_files (frames : list recv_event) : forall w : world,
  files (snd (receive_loop frames w)) =
  fold_left (fun fs q => files (persist q (World fs [] [])))
            (omap recorded (delivered frames)) (files w) /\
  fst (fst (receive_loop frames w)) = (if closes frames then Broke else Waiting).
Proof.
  induction frames as [| frame rest IH]; intros w; [now split |].
  destruct frame as [msg | |].
  - destruct (receive_loop_message msg rest w) as (w1 & -> & Hw1).
    destruct (IH w1) as [Hfiles Hexit]. rewrite Hfiles, Hexit.
    split; [| reflexivity].
    assert (Hfiles1 : files w1 = files (snd (on_message msg w)))
      by (destruct Hw1 as [-> | (n & ->)]; reflexivity).
    rewrite Hfiles1, on_message_files. cbn [delivered].
    rewrite omap_cons_case. now destruct (recorded msg).
  - now split.
  - cbn [Liqs.receive_loop delivered closes].
    exact (IH (log_message ProcessingError w)).
Qed.

Lemma connection_loop_files (uri : string) (script : list attempt) :
  forall (backoff : Z) (w : world),
  files (snd (connection_loop uri script backoff w)) =
  fold_left (fun fs q => files (persist q (World fs [] [])))
            (omap recorded (read script)) (files w).
Proof.
  induction script as [| a later IH]; intros backoff w; [reflexivity |].
  cbn [Liqs.connection_loop read].
  destruct a as [loop_time | frames].
  - specialize (IH (next_backoff backoff)
                  (log_message (ReconnectingIn backoff)
                     (log_message ConnectionError (log_message (Connecting uri) w)))).
    destruct (connection_loop uri later (next_backoff backoff) _) as [[sessions b] w2].
    exact IH.
  - destruct (receive_loop_files frames
                (log_message ConnectedOk (log_message (Connecting uri) w)))
      as [Hfiles Hexit].
    destruct (receive_loop frames _) as [[ended rest] w2].
    cbn [fst snd files log_message] in Hfiles, Hexit.
    destruct (closes frames); subst ended.
    + specialize (IH initial_backoff w2).
      destruct (connection_loop uri later initial_backoff w2) as [[sessions b] w3].
      cbn [snd] in *. rewrite IH, Hfiles, omap_app, fold_left_app. reflexivity.
    + cbn [snd]. now rewrite Hfiles, app_nil_r.
Qed.


(** ** The log file and the console *)

Lemma notices_app (a b : list console_item) : notices (a ++ b) = notices a ++ notices b.
Proof. apply omap_app. Qed.

Lemma log_message_agrees (n : notice) (w : world) :
  log_lines w = notices (console w) ->
  log_lines (log_message n w) = notices (console (log_message n w)).
Proof. intros Hw. cbn [log_lines console log_message]. now rewrite notices_app, Hw. Qed.

Lemma process_liquidation_agrees (order_data : jval) (w : world) :
  log_lines w = notices (console w) ->
  log_lines (snd (process_liquidation order_data w)) =
  notices (console (snd (process_liquidation order_data w))).
Proof.
  intros Hw. unfold Liqs.process_liquidation.
  destruct (decide order_data) as [[| symbol | usd_size | q] | e];
    cbn [snd]; try exact Hw.
  - now apply log_message_agrees.
  - unfold persist, announce. cbn [log_lines console set_files show].
    rewrite notices_app, Hw. cbn. now rewrite app_nil_r.
Qed.

Lemma on_message_agrees (msg : string) (w : world) :
  log_lines w = notices (console w) ->
  log_lines (snd (on_message msg w)) = notices (console (snd (on_message msg w))).
Proof.
  intros Hw. unfold Liqs.on_message.
  destruct (json_loads json_decode msg) as [data | e]; [| exact Hw].
  destruct (Json.contains "o" data) as [[|] | e]; try exact Hw.
  destruct (Json.getitem data "o") as [order_data | e]; [| exact Hw].
  now apply process_liquidation_agrees.
Qed.

Lemma receive_loop_agrees (frames : list recv_event) : forall w : world,
  log_lines w = notices (console w) ->
  log_lines (snd (receive_loop frames w)) = notices (console (snd (receive_loop frames w))).
Proof.
  induction frames as [| frame rest IH]; intros w Hw; [exact Hw |].
  destruct frame as [msg | |].
  - destruct (receive_loop_message msg rest w) as (w1 & -> & Hw1).
    apply IH. pose proof (on_message_agrees msg w Hw) as Hmsg.
    destruct Hw1 as [-> | (n & ->)]; [exact Hmsg | now apply log_message_agrees].
  - cbn [Liqs.receive_loop snd]. now apply log_message_agrees.
  - cbn [Liqs.receive_loop]. apply IH. now apply log_message_agrees.
Qed.

Lemma connection_loop_agrees (uri : string) (script : list attempt) :
  forall (backoff : Z) (w : world),
  log_lines w = notices (console w) ->
  log_lines (snd (connection_loop uri script backoff w)) =
  notices (console (snd (connection_loop uri script backoff w))).
Proof.
  induction script as [| a later IH]; intros backoff w Hw; [exact Hw |].
  cbn [Liqs.connection_loop].
  destruct a as [loop_time | frames].
  - match goal with
    | |- context [connection_loop uri later ?b ?w1] =>
        specialize (IH b w1); destruct (connection_loop uri later b w1) as [[sessions b'] w2]
    end.
    apply IH. now do 3 apply log_message_agrees.
  - match goal with
    | |- context [receive_loop frames ?w1] =>
        pose proof (receive_loop_agrees frames w1) as Hloop;
        destruct (receive_loop frames w1) as [[ended rest] w2]
    end.
    cbn [snd] in Hloop.
    assert (Hw2 : log_lines w2 = notices (console w2))
      by (apply Hloop; now do 2 apply log_message_agrees).
    destruct ended; [exact Hw2 |].
    specialize (IH initial_backoff w2 Hw2).
    destruct (connection_loop uri later initial_backoff w2) as [[sessions b'] w3].
    exact IH.
Qed.

(** X12.  Whatever the stream meets, the lines written to the log file
    are exactly the notices printed on the console, in the same order:
    nothing is logged without being printed, and nothing is printed as a
    notice without being logged. *)
Theorem log_file_and_console_agree
    (uri : string) (script : list attempt) (disk : gmap string (list (list jval))) :
  let w' := snd (binance_liquidation uri script (boot disk)) in
  log_lines w' = notices (console w').
Proof.
  cbv zeta. unfold Liqs.binance_liquidation.
  apply connection_loop_agrees. reflexivity.
Qed.

End Run.

(** ** What the filter lets through *)

(** X13.  Every liquidation the filter lets through, and so every row
    written, names a token of the watch list, the first one its symbol
    without USDT starts with; its notional is the product of quantity
    and price and is not below 3000; and it fills one cell for each
    column of the header of the main file, and of a token file once the
    time is added. *)
Theorem qualified_liquidations_fit_the_headers
    (float_of_str : string -> option float) (int_of_str : string -> option Z)
    (time_est_of : Z -> option string) (order_data : jval) (q : qualified) :
  decide float_of_str int_of_str time_est_of order_data = Ok (Qualifies q) ->
  Json.getitem order_data "s" = Ok (JStr (q_full_symbol q)) /\
  first_token (PyStr.replace (q_full_symbol q) "USDT" "") TOKENS_TO_WATCH
    = Some (q_base_token q) /\
  q_base_token q ∈ TOKENS_TO_WATCH /\
  usd_size_of float_of_str order_data = Ok (q_usd_size q) /\
  PyNum.lt (q_usd_size q) 3000 = false /\
  length (msg_values q) = length main_header /\
  length (msg_values q ++ [JStr (q_time_est q)]) = length token_header.
Proof.
  unfold decide. intros Hdecide.
  destruct (Json.getitem order_data "s") as [s | e]; [| discriminate].
  cbn [pybind] in Hdecide.
  destruct s as [| | | | full_symbol | |]; try discriminate.
  cbn [pybind as_str] in Hdecide.
  destruct (first_token (PyStr.replace full_symbol "USDT" "") TOKENS_TO_WATCH)
    as [base_token |] eqn:Htoken; [| discriminate].
  destruct (Json.getitem order_data "S") as [side | e]; [| discriminate].
  cbn [pybind] in Hdecide.
  destruct (Json.getitem order_data "T") as [t | e]; [| discriminate].
  cbn [pybind] in Hdecide.
  destruct (py_int int_of_str t) as [timestamp | e]; [| discriminate].
  cbn [pybind] in Hdecide.
  destruct (usd_size_of float_of_str order_data) as [usd_size | e].
  - destruct (PyNum.lt usd_size min_usd_size) eqn:Hsize; [discriminate |].
    destruct (time_est time_est_of timestamp) as [shown | e]; [| discriminate].
    cbn [pybind] in Hdecide. injection Hdecide as <-.
    cbn [q_full_symbol q_base_token q_usd_size q_time_est].
    split; [reflexivity |]. split; [exact Htoken |]. split.
    { apply LiqsProps.first_token_some in Htoken as (pre & post & -> & _).
      apply elem_of_app. right. apply list_elem_of_here. }
    split; [reflexivity |]. split; [exact Hsize |].
    split; reflexivity.
  - destruct e; try discriminate.
Qed.

Lemma qualified_liquidations_fit_the_headers_witness :
  let order_data := Demo.order "BTCUSDT" "SELL" "0.5" "90000" in
  let q := Qualified (fields_of order_data) "BTCUSDT" "BTC" (JStr "SELL")
             45000%float "03:34:20" in
  Json.getitem order_data "s" = Ok (JStr (q_full_symbol q)) /\
  first_token (PyStr.replace (q_full_symbol q) "USDT" "") TOKENS_TO_WATCH
    = Some (q_base_token q) /\
  q_base_token q ∈ TOKENS_TO_WATCH /\
  usd_size_of Demo.float_of_str order_data = Ok (q_usd_size q) /\
  PyNum.lt (q_usd_size q) 3000 = false /\
  length (msg_values q) = length main_header /\
  length (msg_values q ++ [JStr (q_time_est q)]) = length token_header.
Proof.
  apply (qualified_liquidations_fit_the_headers Demo.float_of_str Demo.int_of_str
           Demo.time_est_of (Demo.order "BTCUSDT" "SELL" "0.5" "90000")
           (Qualified (fields_of (Demo.order "BTCUSDT" "SELL" "0.5" "90000"))
              "BTCUSDT" "BTC" (JStr "SELL") 45000%float "03:34:20")).
  reflexivity.
Defined.

(** ** Amounts that cannot be read *)

Lemma usd_size_of_invalid (float_of_str : string -> option float)
    (fields : list (string * jval)) :
  Json.assoc "z" fields = None \/
  (exists s, Json.assoc "z" fields = Some (JStr s) /\ float_of_str s = None) \/
  (exists z x, Json.assoc "z" fields = Some z /\ py_float float_of_str z = Ok x /\
     (Json.assoc "p" fields = None \/
      exists s, Json.assoc "p" fields = Some (JStr s) /\ float_of_str s = None)) ->
  usd_size_of float_of_str (JObj fields) = Raise KeyError \/
  usd_size_of float_of_str (JObj fields) = Raise ValueError.
Proof.
  unfold usd_size_of, Json.getitem.
  intros [Hz | [(s & Hz & Hs) | (z & x & Hz & Hx & Hp)]]; rewrite Hz; cbn [pybind].
  - now left.
  - cbn [py_float]. rewrite Hs. now right.
  - rewrite Hx. cbn [pybind].
    destruct Hp as [Hp | (s & Hp & Hs)]; rewrite Hp; cbn [pybind].
    + now left.
    + cbn [py_float]. rewrite Hs. now right.
Qed.

(** X14.  A liquidation of a watched token whose filled quantity or
    price is missing, or is a text that is no number, is reported once
    as invalid data, under the symbol without USDT, and dropped: the
    call returns normally, and nothing is printed as a liquidation or
    written to a file. *)
Theorem unreadable_amount_is_reported_and_dropped
    (float_of_str : string -> option float) (int_of_str : string -> option Z)
    (time_est_of : Z -> option string)
    (fields : list (string * jval)) (full_symbol base_token : string) (side t : jval)
    (timestamp : Z) (w : world) :
  Json.assoc "s" fields = Some (JStr full_symbol) ->
  first_token (PyStr.replace full_symbol "USDT" "") TOKENS_TO_WATCH = Some base_token ->
  Json.assoc "S" fields = Some side ->
  Json.assoc "T" fields = Some t ->
  py_int int_of_str t = Ok timestamp ->
  Json.assoc "z" fields = None \/
  (exists s, Json.assoc "z" fields = Some (JStr s) /\ float_of_str s = None) \/
  (exists z x, Json.assoc "z" fields = Some z /\ py_float float_of_str z = Ok x /\
     (Json.assoc "p" fields = None \/
      exists s, Json.assoc "p" fields = Some (JStr s) /\ float_of_str s = None)) ->
  let result := process_liquidation float_of_str int_of_str time_est_of (JObj fields) w in
  fst result = Ok tt /\
  files (snd result) = files w /\
  log_lines (snd result) = log_lines w ++ [InvalidData (PyStr.replace full_symbol "USDT" "")] /\
  console (snd result) =
    console w ++ [Cnotice (InvalidData (PyStr.replace full_symbol "USDT" ""))].
Proof.
  intros Hs Htoken HS HT Hint Hamount result.
  apply (usd_size_of_invalid float_of_str) in Hamount.
  assert (Hresult : result =
                    (Ok tt, log_message (InvalidData (PyStr.replace full_symbol "USDT" "")) w)).
  { subst result. unfold process_liquidation, decide, Json.getitem.
    rewrite Hs. cbn [pybind as_str]. rewrite Htoken, HS, HT. cbn [pybind].
    rewrite Hint. cbn [pybind].
    destruct Hamount as [-> | ->]; reflexivity. }
  rewrite Hresult. repeat split; reflexivity.
Qed.

Lemma unreadable_amount_is_reported_and_dropped_witness :
  let fields := [("s", JStr "ETHUSDT"); ("S", JStr "BUY"); ("p", JStr "90000");
                 ("T", JInt 1568014460893)] in
  let result := process_liquidation Demo.float_of_str Demo.int_of_str Demo.time_est_of
                  (JObj fields) (boot ∅) in
  fst result = Ok tt /\
  files (snd result) = files (boot ∅) /\
  log_lines (snd result) =
    log_lines (boot ∅) ++ [InvalidData (PyStr.replace "ETHUSDT" "USDT" "")] /\
  console (snd result) =
    console (boot ∅) ++ [Cnotice (InvalidData (PyStr.replace "ETHUSDT" "USDT" ""))].
Proof.
  apply (unreadable_amount_is_reported_and_dropped
           Demo.float_of_str Demo.int_of_str Demo.time_est_of
           [("s", JStr "ETHUSDT"); ("S", JStr "BUY"); ("p", JStr "90000");
            ("T", JInt 1568014460893)]
           "ETHUSDT" "ETH" (JStr "BUY") (JInt 1568014460893) 1568014460893 (boot ∅)).
  - reflexivity.
  - reflexivity.
  - reflexivity.
  - reflexivity.
  - reflexivity.
  - left. reflexivity.
Defined.

(** ** A notional that is not a number *)

Lemma nan_mul (price : float) : (PrimFloat.nan * price)%float = PrimFloat.nan.
Proof.
  rewrite <- (FloatAxioms.SF2Prim_Prim2SF (PrimFloat.nan * price)), FloatAxioms.mul_spec.
  change (Prim2SF PrimFloat.nan) with S754_nan.
  reflexivity.
Qed.

(** X15.  The size test discards an event only when its notional
    compares below 3000.  A filled quantity that reads as the float
    that is not a number gives such a notional whatever the price; the
    comparison is then false, and the event is announced, with the
    amount shown as nan and without emphasis, and written to both
    files. *)
Theorem nan_notional_passes_the_size_test
    (float_of_str : string -> option float) (int_of_str : string -> option Z)
    (time_est_of : Z -> option string)
    (fields : list (string * jval)) (full_symbol base_token : string) (side z p t : jval)
    (price : float) (timestamp : Z) (shown : string) (w : world) :
  Json.assoc "s" fields = Some (JStr full_symbol) ->
  first_token (PyStr.replace full_symbol "USDT" "") TOKENS_TO_WATCH = Some base_token ->
  Json.assoc "S" fields = Some side ->
  Json.assoc "T" fields = Some t ->
  Json.assoc "z" fields = Some z ->
  Json.assoc "p" fields = Some p ->
  py_int int_of_str t = Ok timestamp ->
  py_float float_of_str z = Ok PrimFloat.nan ->
  py_float float_of_str p = Ok price ->
  time_est_of timestamp = Some shown ->
  let result := process_liquidation float_of_str int_of_str time_est_of (JObj fields) w in
  let row :=
    JStr full_symbol ::
    map (fun k => Json.get fields k (JStr ""))
        ["S"; "o"; "f"; "q"; "p"; "ap"; "X"; "l"; "z"; "T"] ++
    [JReal PrimFloat.nan] in
  fst result = Ok tt /\
  Fs.rows main_file (files (snd result)) = Fs.rows main_file (files w) ++ [row] /\
  Fs.rows (token_file base_token) (files (snd result)) =
    Fs.rows (token_file base_token) (files w) ++ [row ++ [JStr shown]] /\
  console (snd result) =
    console w ++
    [Cprint (liquidation_type side +:+ " " +:+ base_token +:+ " " +:+ shown +:+ " $nan")
            "white" (if Json.eq_str side "SELL" then "on_green" else "on_red") [];
     Print ""].
Proof.
  intros Hs Htoken HS HT Hz Hp Hint Hquantity Hprice Htime result row.
  subst result row. unfold process_liquidation.
  rewrite (LiqsProps.decide_wellformed float_of_str int_of_str time_est_of fields
             full_symbol side z p t PrimFloat.nan price timestamp shown
             Hs HS HT Hz Hp Hint Hquantity Hprice Htime).
  cbv zeta. rewrite Htoken, nan_mul.
  change (PyNum.lt PrimFloat.nan min_usd_size) with false.
  cbn [fst snd]. unfold persist, announce, msg_values.
  cbn [files console set_files show q_fields q_full_symbol q_base_token q_side
       q_usd_size q_time_est].
  change (PyNum.gt PrimFloat.nan bold_usd_size) with false.
  change (PyNum.format_fixed 0 PrimFloat.nan) with "nan".
  split; [reflexivity |]. split; [| split].
  - rewrite FundingProps.rows_append_other by apply token_file_not_main.
    apply FundingProps.rows_append.
  - rewrite FundingProps.rows_append.
    rewrite FundingProps.rows_append_other
      by (intros Heq; symmetry in Heq; now apply token_file_not_main in Heq).
    reflexivity.
  - now destruct (Json.eq_str side "SELL").
Qed.

Lemma nan_notional_passes_the_size_test_witness :
  let fields :=
    [("s", JStr "SOLUSDT"); ("S", JStr "SELL"); ("z", JStr "nan"); ("p", JStr "90000");
     ("T", JInt 1568014460893)] in
  let result := process_liquidation Samples.float_of_str Demo.int_of_str Demo.time_est_of
                  (JObj fields) (boot ∅) in
  let row :=
    JStr "SOLUSDT" ::
    map (fun k => Json.get fields k (JStr ""))
        ["S"; "o"; "f"; "q"; "p"; "ap"; "X"; "l"; "z"; "T"] ++
    [JReal PrimFloat.nan] in
  fst result = Ok tt /\
  Fs.rows main_file (files (snd result)) = Fs.rows main_file (files (boot ∅)) ++ [row] /\
  Fs.rows (token_file "SOL") (files (snd result)) =
    Fs.rows (token_file "SOL") (files (boot ∅)) ++ [row ++ [JStr "03:34:20"]] /\
  console (snd result) =
    console (boot ∅) ++
    [Cprint (liquidation_type (JStr "SELL") +:+ " " +:+ "SOL" +:+ " " +:+ "03:34:20"
             +:+ " $nan")
            "white" (if Json.eq_str (JStr "SELL") "SELL" then "on_green" else "on_red") [];
     Print ""].
Proof.
  apply (nan_notional_passes_the_size_test
           Samples.float_of_str Demo.int_of_str Demo.time_est_of
           [("s", JStr "SOLUSDT"); ("S", JStr "SELL"); ("z", JStr "nan");
            ("p", JStr "90000"); ("T", JInt 1568014460893)]
           "SOLUSDT" "SOL" (JStr "SELL") (JStr "nan") (JStr "90000")
           (JInt 1568014460893) 90000%float 1568014460893 "03:34:20" (boot ∅)).
  all: reflexivity.
Defined.

(** ** The watch list *)

Lemma prefix_of_both (s : string) : forall a b : string,
  String.prefix a s = true -> String.prefix b s = true ->
  String.prefix a b = true \/ String.prefix b a = true.
Proof.
  induction s as [| c s IH]; intros [| x a] [| y b] Ha Hb;
    try (left; apply LiqsProps.prefix_nil); try (right; apply LiqsProps.prefix_nil);
    try discriminate.
  rewrite LiqsProps.prefix_cons in Ha, Hb. rewrite !LiqsProps.prefix_cons.
  destruct (Ascii.eqb_spec x c) as [-> | _]; [| discriminate].
  destruct (Ascii.eqb_spec y c) as [-> | _]; [| discriminate].
  rewrite Ascii.eqb_refl. now apply IH.
Qed.

Lemma one_token_matches (symbol token token' : string) :
  token ∈ TOKENS_TO_WATCH -> token' ∈ TOKENS_TO_WATCH ->
  PyStr.startswith symbol token = true -> PyStr.startswith symbol token' = true ->
  token = token'.
Proof.
  unfold PyStr.startswith, TOKENS_TO_WATCH. intros Hin Hin' Hmatch Hmatch'.
  destruct (prefix_of_both symbol token token' Hmatch Hmatch') as [Hcase | Hcase];
    repeat (apply elem_of_cons in Hin as [-> | Hin]);
    try (now apply elem_of_nil in Hin);
    repeat (apply elem_of_cons in Hin' as [-> | Hin']);
    try (now apply elem_of_nil in Hin');
    try reflexivity; vm_compute in Hcase; discriminate.
Qed.

(** X16.  No token of the watch list is the beginning of another, so a
    symbol starts with at most one of them: the token an event is filed
    under is the one token of the list its symbol without USDT starts
    with, whatever the order of the list. *)
Theorem matched_token_does_not_depend_on_list_order (symbol token : string) :
  first_token symbol TOKENS_TO_WATCH = Some token <->
  token ∈ TOKENS_TO_WATCH /\ PyStr.startswith symbol token = true.
Proof.
  split.
  - intros Hfirst.
    apply LiqsProps.first_token_some in Hfirst as (pre & post & Hlist & Hmatch & _).
    split; [| exact Hmatch].
    rewrite Hlist. apply elem_of_app. right. apply list_elem_of_here.
  - intros [Hin Hmatch].
    destruct (first_token symbol TOKENS_TO_WATCH) as [token' |] eqn:Hfirst.
    + f_equal.
      apply LiqsProps.first_token_some in Hfirst as (pre & post & Hlist & Hmatch' & _).
      apply (one_token_matches symbol); try assumption.
      rewrite Hlist. apply elem_of_app. right. apply list_elem_of_here.
    + apply LiqsProps.first_token_none in Hfirst.
      rewrite Forall_forall in Hfirst. rewrite (Hfirst token Hin) in Hmatch.
      discriminate.
Qed.

End LiqsExtra.

(** * Properties of pull_from_vps.py *)

Module PullProps.
Import PullFromVps.

Section Library.

Variable raises : call -> option string.

Local Abbreviation download_file := (download_file raises).

Local Ltac returns Hpre :=
  repeat match goal with
         | |- context [raises ?c] =>
             let H := fresh in
             assert (H : raises c = None) by (apply Hpre; repeat constructor);
             rewrite H; clear H
         end.

Lemma download_succeeds (w : world) :
  (forall c, c ∈ plan -> raises c = None) ->
  download_file w =
  World (returned w ++ plan) (console w ++ [downloading; "Download complete!"]).
Proof.
  intros Hall. unfold PullFromVps.download_file, body, and_then, invoke, say, plan.
  returns Hall. unfold print. cbn [returned console].
  rewrite <- !app_assoc. reflexivity.
Qed.

Lemma download_fails (w : world) (pre post : list call) (c : call) (text : string) :
  plan = pre ++ c :: post ->
  (forall c', c' ∈ pre -> raises c' = None) ->
  raises c = Some text ->
  download_file w =
  World (returned w ++ pre)
        (console w ++ (if bool_decide (OpenSftp ∈ pre) then [downloading] else [])
                   ++ ["Error: " +:+ text]).
Proof.
  intros Hplan Hpre Hc. unfold plan in Hplan.
  unfold PullFromVps.download_file, body, and_then, invoke, say.
  do 7 (destruct pre as [| ? pre];
        [simplify_eq/=; returns Hpre; rewrite Hc;
         unfold print; cbn [returned console]; rewrite <- ?app_assoc, ?app_nil_r;
         reflexivity |
         simplify_eq/=]).
  destruct pre; discriminate.
Qed.

Lemma first_failure (calls : list call) :
  (forall c, c ∈ calls -> raises c = None) \/
  exists pre c post text,
    calls = pre ++ c :: post /\
    (forall c', c' ∈ pre -> raises c' = None) /\
    raises c = Some text.
Proof.
  induction calls as [| c calls IH]; [left; intros c Hc; now apply elem_of_nil in Hc |].
  destruct (raises c) as [text |] eqn:Hc.
  - right. exists [], c, calls, text. repeat split; [| exact Hc].
    intros c' Hc'. now apply elem_of_nil in Hc'.
  - destruct IH as [Hall | (pre & c0 & post & text & -> & Hpre & Hc0)].
    + left. intros c' Hc'. apply elem_of_cons in Hc' as [-> | Hc']; auto.
    + right. exists (c :: pre), c0, post, text. repeat split; [| exact Hc0].
      intros c' Hc'. apply elem_of_cons in Hc' as [-> | Hc']; auto.
Qed.

(** X17.  [download_file] makes its calls in order and stops at the
    first one that raises.  When none raises, all seven calls return and
    the two progress lines are printed.  When one raises, the calls
    after it are not made, the text of the exception is printed after
    Error:, and the line Downloading is printed before it only if the
    SFTP session had been opened; the function returns normally in
    both cases. *)
Theorem download_stops_at_the_first_failure (w : world) :
  ((forall c, c ∈ plan -> raises c = None) ->
   download_file w =
   World (returned w ++ plan) (console w ++ [downloading; "Download complete!"])) /\
  (forall pre c post text,
     plan = pre ++ c :: post ->
     (forall c', c' ∈ pre -> raises c' = None) ->
     raises c = Some text ->
     download_file w =
     World (returned w ++ pre)
           (console w ++ (if bool_decide (OpenSftp ∈ pre) then [downloading] else [])
                      ++ ["Error: " +:+ text])).
Proof.
  split.
  - apply download_succeeds.
  - intros pre c post text. apply download_fails.
Qed.

Lemma before_a_failure (pre post : list call) (c : call) :
  plan = pre ++ c :: post ->
  (CloseSsh ∈ pre -> False) /\
  (CloseSftp ∈ pre -> Get REMOTE_PATH LOCAL_PATH ∈ pre).
Proof.
  intros Hplan. unfold plan in Hplan.
  do 7 (destruct pre as [| ? pre];
        [simplify_eq/=; split; intros Hin;
         [repeat (apply elem_of_cons in Hin as [Hin | Hin]; [discriminate |]);
          now apply elem_of_nil in Hin |
          repeat (apply elem_of_cons in Hin as [Hin | Hin]; [discriminate |]);
          try (now apply elem_of_nil in Hin); repeat constructor] |
         simplify_eq/=]).
  destruct pre; discriminate.
Qed.

(** X18.  The SSH client is closed only at the end of a download in
    which every call succeeded, which is also the only case in which
    Download complete! is printed; the SFTP session is closed only
    after the file was fetched.  So when a call raises once the
    connection is made, the client is left open. *)
Theorem connection_is_closed_only_after_a_complete_download :
  let w' := download_file start in
  (CloseSsh ∈ returned w' <-> forall c, c ∈ plan -> raises c = None) /\
  ("Download complete!" ∈ console w' <-> forall c, c ∈ plan -> raises c = None) /\
  (CloseSftp ∈ returned w' -> Get REMOTE_PATH LOCAL_PATH ∈ returned w').
Proof.
  cbv zeta.
  destruct (first_failure plan) as [Hall | (pre & c & post & text & Hplan & Hpre & Hc)].
  - rewrite (download_succeeds start Hall). cbn [returned console start app].
    split; [| split].
    + split; [intros _; exact Hall | intros _; unfold plan; repeat constructor].
    + split; [intros _; exact Hall | intros _; repeat constructor].
    + intros _. unfold plan. repeat constructor.
  - rewrite (download_fails start pre post c text Hplan Hpre Hc).
    cbn [returned console start app].
    assert (Hbad : ~ (forall c, c ∈ plan -> raises c = None)).
    { intros Hall. rewrite Hall in Hc; [discriminate |].
      rewrite Hplan. apply elem_of_app. right. apply list_elem_of_here. }
    pose proof (before_a_failure pre post c Hplan) as Hopen.
    split; [| split].
    + split; [intros Hin; now apply Hopen in Hin | intros Hall; now elim Hbad].
    + split; [| intros Hall; now elim Hbad].
      intros Hin. exfalso.
      apply elem_of_app in Hin as [Hin | Hin].
      * destruct (bool_decide (OpenSftp ∈ pre)); [| now apply elem_of_nil in Hin].
        apply list_elem_of_singleton in Hin. vm_compute in Hin. discriminate.
      * apply list_elem_of_singleton in Hin. discriminate.
    + apply Hopen.
Qed.

End Library.

(** A run in which the remote file is missing: the transfer raises, its
    message is printed, and neither the session nor the client is
    closed. *)
Example download_of_a_missing_file :
  let raises c := match c with Get _ _ => Some "[Errno 2] No such file" | _ => None end in
  download_file raises start =
  World [NewClient; SetPolicy; Connect "89.116.34.94" "root" "your-password"; OpenSftp]
        ["Downloading /root/my_project/myfile.py from VPS to /Users/your-user/Downloads/myfile.py...";
         "Error: [Errno 2] No such file"].
Proof. vm_compute. reflexivity. Qed.

End PullProps.
